(** * darktable, [src/iop/filmicrgb.c]: the filmic RGB tone mapper

    A shallow embedding of the numerical core of the module (log encoders,
    spline evaluation and solve, clip mask, a-trous wavelet highlight
    reconstruction, ratio round trip, tone-mapping kernels, [commit_params]
    and [process]) and of the code that edits its parameters (migration of
    old edits, colour pickers, sliders of the scene), together with the
    properties its specification states and further properties of the code.

    Number model.  The translation unit is compiled under
    [#pragma GCC optimize ("finite-math-only", "fast-math", ...)]: the code
    itself declares that NaN and infinities do not occur and that the
    compiler may use the algebra of the reals.  Accordingly [float] and
    [double] are modelled by [R]; every theorem below is a statement about
    exact real arithmetic, and an equality proved here is what the source
    calls "equal within floating-point tolerance".  A division by zero or a
    logarithm of a non-positive number, which the pragma rules out, takes the
    Standard Library's conventional value ([x / 0 = 0], [ln x = 0] for
    [x <= 0]); theorems that would depend on such a value carry the
    hypothesis that excludes it.

    Memory model.  A [float *] is a map from offsets to values
    ([buffer := nat -> R]); a store updates one offset.  An allocation either
    fails ([None], the C [NULL]) or yields a buffer with arbitrary contents.
    Loops over pixels are folds over the list of pixel offsets, in the order
    of the source. *)

From Stdlib Require Import String Reals Lra Lia ZArith List Bool Psatz.
Import ListNotations.
Local Open Scope R_scope.

(** ** [math.h] on the reals *)

Definition fmaxf (x y : R) : R := Rmax x y.
Definition fminf (x y : R) : R := Rmin x y.
Definition fabsf (x : R) : R := Rabs x.
Definition sqrtf (x : R) : R := sqrt x.
Definition expf (x : R) : R := exp x.
Definition exp2f (x : R) : R := Rpower 2 x.
Definition log2f (x : R) : R := ln x / ln 2.
Definition floorf (x : R) : R := IZR (Int_part x).

(** [powf]: [x^y = exp (y ln x)] for a positive base; [0^0 = 1] and
    [0^y = 0]; a negative base with an integral exponent takes the sign of
    the parity.  The remaining cases ([0] to a negative power, a negative
    base with a fractional exponent) are infinite or NaN in C and outside
    the number model; they are given the value [0]. *)
Definition powf (x y : R) : R :=
  if Req_EM_T x 0 then (if Req_EM_T y 0 then 1 else 0)
  else if Rlt_dec 0 x then Rpower x y
  else if Req_EM_T y (IZR (Int_part y))
       then (if Z.even (Int_part y) then Rpower (- x) y else - Rpower (- x) y)
       else 0.

(** Modelled from the spec: the glib macros [CLAMP] and [MAX], which are not
    under src/; "clamped" to the closed interval, resp. the larger value. *)
Definition CLAMP (x low high : R) : R :=
  if Rgt_dec x high then high else if Rlt_dec x low then low else x.

Definition MAX (a b : R) : R := if Rgt_dec a b then a else b.

Definition CLAMP_int (x low high : Z) : Z :=
  if (x >? high)%Z then high else if (x <? low)%Z then low else x.

(** A C [int] used as a truth value. *)
Definition truthy (i : Z) : bool := negb (i =? 0)%Z.

(** ** Enumerations and structures (lines 103-230) *)

Definition DT_FILMIC_METHOD_NONE : Z := 0.
Definition DT_FILMIC_METHOD_MAX_RGB : Z := 1.
Definition DT_FILMIC_METHOD_LUMINANCE : Z := 2.
Definition DT_FILMIC_METHOD_POWER_NORM : Z := 3.

Inductive dt_iop_filmicrgb_curve_type_t : Set :=
| DT_FILMIC_CURVE_POLY_4
| DT_FILMIC_CURVE_POLY_3.

Definition DT_FILMIC_COLORSCIENCE_V1 : Z := 0.
Definition DT_FILMIC_COLORSCIENCE_V2 : Z := 1.

(** A C array of floats, and a pointer into one: offset |-> value. *)
Definition buffer : Type := nat -> R.

Definition store (b : buffer) (k : nat) (v : R) : buffer :=
  fun k' => if Nat.eqb k' k then v else b k'.

(** [M1 .. M5] hold, at index 0 the toe, at index 1 the shoulder and at
    index 2 the latitude coefficient of x^0 .. x^4. *)
Record dt_iop_filmic_rgb_spline_t : Type := mk_spline {
  M1 : buffer; M2 : buffer; M3 : buffer; M4 : buffer; M5 : buffer;
  latitude_min : R; latitude_max : R;
  spline_y : buffer;
  spline_x : buffer
}.

Record dt_iop_filmicrgb_params_t : Type := mk_params {
  grey_point_source : R;
  black_point_source : R;
  white_point_source : R;
  reconstruct_threshold : R;
  reconstruct_feather : R;
  reconstruct_bloom_vs_details : R;
  reconstruct_grey_vs_color : R;
  reconstruct_structure_vs_texture : R;
  security_factor : R;
  grey_point_target : R;
  black_point_target : R;
  white_point_target : R;
  output_power : R;
  latitude : R;
  contrast : R;
  saturation : R;
  balance : R;
  preserve_color : Z;
  version : Z;
  auto_hardness : Z;
  custom_grey : Z;
  high_quality_reconstruction : Z;
  shadows : dt_iop_filmicrgb_curve_type_t;
  highlights : dt_iop_filmicrgb_curve_type_t
}.

Record dt_iop_filmicrgb_data_t : Type := mk_data {
  d_max_grad : R;
  d_white_source : R;
  d_grey_source : R;
  d_black_source : R;
  d_reconstruct_threshold : R;
  d_reconstruct_feather : R;
  d_reconstruct_bloom_vs_details : R;
  d_reconstruct_grey_vs_color : R;
  d_reconstruct_structure_vs_texture : R;
  d_dynamic_range : R;
  d_saturation : R;
  d_output_power : R;
  d_contrast : R;
  d_sigma_toe : R;
  d_sigma_shoulder : R;
  d_preserve_color : Z;
  d_version : Z;
  d_high_quality_reconstruction : Z;
  d_spline : dt_iop_filmic_rgb_spline_t
}.

(** An RGB triple read from a pixel ([pixel[0..2]]). *)
Definition rgb : Type := (R * R * R)%type.

Definition chan (p : rgb) (c : nat) : R :=
  match p with
  | (r, g, b) => match c with O => r | S O => g | _ => b end
  end.

Definition pixel_at (b : buffer) (k : nat) : rgb :=
  (b k, b (k + 1)%nat, b (k + 2)%nat).

Definition map_rgb (f : R -> R) (p : rgb) : rgb :=
  match p with (r, g, b) => (f r, f g, f b) end.

(** ** Scalar helpers (lines 351-516) *)

Definition clamp_simd (x : R) : R := fminf (fmaxf x 0) 1.

(** The first non-null 16 bit integer, [2^-16], written
    [1.52587890625e-05f] throughout the source. *)
Definition noise_floor : R := 1.52587890625e-05.

Definition pixel_rgb_norm_power (pixel : rgb) : R :=
  let step (acc : R * R) (c : nat) :=
    let value := fabsf (chan pixel c) in
    let RGB_square := value * value in
    let RGB_cubic := RGB_square * value in
    (fst acc + RGB_cubic, snd acc + RGB_square) in
  let '(numerator, denominator) := fold_left step (seq 0 3) (0, 0) in
  numerator / fmaxf denominator 1e-12.

Definition log_tonemapping_v1 (x grey black dynamic_range : R) : R :=
  let temp := (log2f (x / grey) - black) / dynamic_range in
  fmaxf (fminf temp 1) noise_floor.

Definition log_tonemapping_v2 (x grey black dynamic_range : R) : R :=
  clamp_simd ((log2f (x / grey) - black) / dynamic_range).

Definition filmic_spline (x : R) (m1 m2 m3 m4 m5 : buffer)
    (latitude_min latitude_max : R) : R :=
  if Rlt_dec x latitude_min
  then m1 0%nat + x * (m2 0%nat + x * (m3 0%nat + x * (m4 0%nat + x * m5 0%nat)))
  else if Rgt_dec x latitude_max
  then m1 1%nat + x * (m2 1%nat + x * (m3 1%nat + x * (m4 1%nat + x * m5 1%nat)))
  else m1 2%nat + x * (m2 2%nat + x * (m3 2%nat + x * (m4 2%nat + x * m5 2%nat))).

Definition filmic_desaturate_v1 (x sigma_toe sigma_shoulder saturation : R) : R :=
  let radius_toe := x in
  let radius_shoulder := 1 - x in
  let key_toe := expf (- 0.5 * radius_toe * radius_toe / sigma_toe) in
  let key_shoulder := expf (- 0.5 * radius_shoulder * radius_shoulder / sigma_shoulder) in
  1 - clamp_simd ((key_toe + key_shoulder) / saturation).

Definition filmic_desaturate_v2 (x sigma_toe sigma_shoulder saturation : R) : R :=
  let radius_toe := x in
  let radius_shoulder := 1 - x in
  let sat2 := 0.5 / sqrtf saturation in
  let key_toe := expf (- radius_toe * radius_toe / sigma_toe * sat2) in
  let key_shoulder := expf (- radius_shoulder * radius_shoulder / sigma_shoulder * sat2) in
  saturation - (key_toe + key_shoulder) * saturation.

Definition linear_saturation (x luminance saturation : R) : R :=
  luminance + saturation * (x - luminance).

Definition fmaxabsf (a b : R) : R :=
  let abs_a := fabsf a in
  let abs_b := fabsf b in
  if Rgt_dec abs_a abs_b then a else b.

Definition fminabsf (a b : R) : R :=
  let abs_a := fabsf a in
  let abs_b := fabsf b in
  if Rlt_dec abs_a abs_b then a else b.

Definition sqf (x : R) : R := x * x.

Definition MAX_NUM_SCALES : Z := 12.

(** ** Integer conversions of the index arithmetic

    [size_t] is 64 bits wide and wraps; the conversion of a [size_t] to
    [int] keeps the low 32 bits (two's complement), which is also what the
    [int] accumulator of a sum does. *)

Definition size_t_wrap (z : Z) : Z := (z mod 2 ^ 64)%Z.

Definition int_wrap (z : Z) : Z := ((z + 2 ^ 31) mod 2 ^ 32 - 2 ^ 31)%Z.

(** The offsets [k = 0, ch, 2 ch, ...] visited by
    [for(size_t k = 0; k < height * width * ch; k += ch)]. *)
Definition pixel_offsets (width height ch : nat) : list nat :=
  if Nat.eqb ch 0 then [] else map (fun i => (i * ch)%nat) (seq 0 (height * width)).

Definition store_rgb (b : buffer) (k : nat) (v : rgb) : buffer :=
  store (store (store b k (chan v 0)) (k + 1)%nat (chan v 1)) (k + 2)%nat (chan v 2).

(** ** Region and pipeline descriptors (the fields the module reads) *)

Record dt_iop_roi_t : Type := mk_roi {
  roi_width : Z;
  roi_height : Z;
  roi_scale : R
}.

Record dt_dev_pixelpipe_iop_t : Type := mk_piece {
  buf_in_width : Z;
  buf_in_height : Z;
  iscale : R;
  colors : Z;
  pipe_type_full : bool;       (* piece->pipe->type == DT_DEV_PIXELPIPE_FULL *)
  pipe_mask_display : bool     (* piece->pipe->mask_display & DT_DEV_PIXELPIPE_DISPLAY_MASK *)
}.

(** What [dt_alloc_sse_ps] returned for the five scratch buffers of one
    reconstruction pass. *)
Record scratch_alloc : Type := mk_scratch {
  alloc_LF_even : option buffer;
  alloc_LF_odd : option buffer;
  alloc_HF_RGB : option buffer;
  alloc_HF_grey : option buffer;
  alloc_temp : option buffer
}.

(** What [dt_alloc_sse_ps] returned for every allocation of one call of
    [process], in program order. *)
Record process_alloc : Type := mk_alloc {
  alloc_mask : option buffer;
  alloc_reconstructed : option buffer;
  alloc_pass1 : scratch_alloc;
  alloc_norms : option buffer;
  alloc_ratios : option buffer;
  alloc_pass2 : scratch_alloc
}.

(** ** Clip mask (lines 522-555) *)

(** The body of the loop: one pixel's weight is stored and the pixel is
    counted, in an [int], when [4.f > argument]. *)
Definition mask_clipped_step (in_ : buffer) (normalize feathering : R) (ch : nat)
    (st : buffer * Z) (k : nat) : buffer * Z :=
  let pix_max := sqrtf (sqf (in_ k) + sqf (in_ (k + 1)%nat) + sqf (in_ (k + 2)%nat)) in
  let argument := - pix_max * normalize + feathering in
  let weight := 1 / (1 + exp2f argument) in
  (store (fst st) (k / ch)%nat weight,
   int_wrap (snd st + (if Rgt_dec 4 argument then 1 else 0))).

Definition mask_clipped_pixels (in_ mask : buffer) (normalize feathering : R)
    (width height ch : nat) : buffer * bool :=
  let clipped := 0%Z in
  let st := fold_left (mask_clipped_step in_ normalize feathering ch)
              (pixel_offsets width height ch) (mask, clipped) in
  (fst st, (snd st >? 9)%Z).

(** ** B-spline blur (lines 558-679) *)

Definition fsize : nat := 5.

Definition filter (jj : nat) : R :=
  nth jj [1 / 16; 4 / 16; 6 / 16; 4 / 16; 1 / 16] 0.

(** [mult * (jj - (fsize - 1) / 2) + j], computed in [size_t]. *)
Definition tap_index (mult jj j : nat) : Z :=
  size_t_wrap (Z.of_nat mult * size_t_wrap (Z.of_nat jj - Z.of_nat ((fsize - 1) / 2))
               + Z.of_nat j).

(** The index of one filter tap: bound-checked as an [int] in the boundary
    zone, taken as it is on the fast track. *)
Definition tap (check : bool) (mult jj j : nat) (bound_lo bound_hi : Z) : Z :=
  if check then
    let index := int_wrap (tap_index mult jj j) in
    if (index <? bound_lo)%Z then bound_lo
    else if (index >? bound_hi)%Z then bound_hi
    else index
  else tap_index mult jj j.

Definition blur_2D_Bspline_vertical (in_ out : buffer) (width height ch mult : nat)
    (bound_left bound_right : Z) : buffer :=
  fold_left (fun out i =>
    fold_left (fun out j =>
      let index_out := ((i * width + j) * ch)%nat in
      let check :=
        negb ((2 * mult <? j)%nat
              && (Z.of_nat j <? size_t_wrap (Z.of_nat width - 2 * Z.of_nat mult))%Z) in
      let accumulator (c : nat) : R :=
        fold_left (fun acc jj =>
          let index_x := tap check mult jj j bound_left bound_right in
          acc + filter jj
                * in_ (Z.to_nat (size_t_wrap ((Z.of_nat (i * width) + index_x) * Z.of_nat ch
                                              + Z.of_nat c))))
          (seq 0 fsize) 0 in
      store_rgb out index_out (accumulator 0%nat, accumulator 1%nat, accumulator 2%nat))
      (seq 0 width) out)
    (seq 0 height) out.

Definition blur_2D_Bspline_horizontal (in_ out : buffer) (width height ch mult : nat)
    (bound_top bound_bot : Z) : buffer :=
  fold_left (fun out i =>
    fold_left (fun out j =>
      let index_out := ((i * width + j) * ch)%nat in
      let check :=
        negb ((2 * mult <? i)%nat
              && (Z.of_nat i <? size_t_wrap (Z.of_nat height - 2 * Z.of_nat mult))%Z) in
      let accumulator (c : nat) : R :=
        if (c <? 3)%nat then
          fold_left (fun acc ii =>
            let index_y := tap check mult ii i bound_top bound_bot in
            acc + filter ii
                  * in_ (Z.to_nat (size_t_wrap ((index_y * Z.of_nat width + Z.of_nat j)
                                                * Z.of_nat ch + Z.of_nat c))))
            (seq 0 fsize) 0
        else 0 in
      fold_left (fun out c => store out (index_out + c)%nat (accumulator c)) (seq 0 ch) out)
      (seq 0 width) out)
    (seq 0 height) out.

(** ** Wavelet synthesis (lines 682-847) *)

Definition wavelets_reconstruct_RGB (HF LF texture mask reconstructed : buffer)
    (width height ch : nat) (gamma gamma_comp beta beta_comp delta : R)
    (s scales : nat) : buffer :=
  fold_left (fun reconstructed k =>
    let alpha := mask (k / ch)%nat in
    let HF_c := pixel_at HF k in
    let LF_c := pixel_at LF k in
    let grey_texture := gamma * texture (k / ch)%nat in
    let grey_details :=
      gamma_comp * fmaxabsf (fmaxabsf (chan HF_c 0) (chan HF_c 1)) (chan HF_c 2) in
    let grey_HF := beta_comp * (grey_details + grey_texture) in
    let grey_residual := beta_comp * fminf (fminf (chan LF_c 0) (chan LF_c 1)) (chan LF_c 2) in
    fold_left (fun reconstructed c =>
      let color_residual := chan LF_c c * beta in
      let color_details := chan HF_c c * beta * gamma_comp in
      store reconstructed (k + c)%nat
        (reconstructed (k + c)%nat
         + alpha * (delta * (grey_HF + color_details)
                    + (grey_residual + color_residual) / INR scales)))
      (seq 0 3) reconstructed)
    (pixel_offsets width height ch) reconstructed.

Definition wavelets_reconstruct_ratios (HF LF texture mask reconstructed : buffer)
    (width height ch : nat) (gamma gamma_comp beta beta_comp delta : R)
    (s scales : nat) : buffer :=
  fold_left (fun reconstructed k =>
    let alpha := mask (k / ch)%nat in
    let HF_c := pixel_at HF k in
    let LF_c := pixel_at LF k in
    let grey_texture := gamma * texture (k / ch)%nat in
    let grey_details :=
      gamma_comp * fmaxabsf (fmaxabsf (chan HF_c 0) (chan HF_c 1)) (chan HF_c 2) in
    let grey_HF := beta_comp * (grey_details + grey_texture) in
    let grey_residual := beta_comp * fmaxf (fmaxf (chan LF_c 0) (chan LF_c 1)) (chan LF_c 2) in
    fold_left (fun reconstructed c =>
      let color_residual := chan LF_c c * beta in
      let color_details := chan HF_c c * beta * gamma_comp in
      store reconstructed (k + c)%nat
        (reconstructed (k + c)%nat
         + alpha * (delta * (grey_HF + color_details)
                    + (grey_residual + color_residual) / INR scales)))
      (seq 0 3) reconstructed)
    (pixel_offsets width height ch) reconstructed.

Definition init_reconstruct (in_ mask reconstructed : buffer) (width height ch : nat)
    : buffer :=
  fold_left (fun reconstructed k => store reconstructed k (in_ k * (1 - mask (k / ch)%nat)))
    (seq 0 (height * width * ch)) reconstructed.

Definition wavelets_detail_level_RGB (detail LF HF texture : buffer)
    (width height ch : nat) : buffer * buffer :=
  fold_left (fun st k =>
    let '(HF, texture) := st in
    let HF := fold_left (fun HF c => store HF (k + c)%nat (detail (k + c)%nat - LF (k + c)%nat))
                (seq 0 3) HF in
    (HF, store texture (k / ch)%nat
           (fmaxabsf (fmaxabsf (HF k) (HF (k + 1)%nat)) (HF (k + 2)%nat))))
    (pixel_offsets width height ch) (HF, texture).

Definition wavelets_detail_level_ratios (detail LF HF texture : buffer)
    (width height ch : nat) : buffer * buffer :=
  fold_left (fun st k =>
    let '(HF, texture) := st in
    let HF := fold_left (fun HF c => store HF (k + c)%nat (detail (k + c)%nat - LF (k + c)%nat))
                (seq 0 3) HF in
    (HF, store texture (k / ch)%nat
           (fminabsf (fminabsf (HF k) (HF (k + 1)%nat)) (HF (k + 2)%nat))))
    (pixel_offsets width height ch) (HF, texture).

Definition get_scales (roi_in : dt_iop_roi_t) (piece : dt_dev_pixelpipe_iop_t) : Z :=
  let scale := roi_scale roi_in / iscale piece in
  let size := Int_part (MAX (IZR (buf_in_height piece) * iscale piece)
                            (IZR (buf_in_width piece) * iscale piece)) in
  let scales :=
    Int_part (floorf (log2f (2 * IZR size * scale / INR ((fsize - 1) * fsize) - 1))) in
  CLAMP_int scales 1 MAX_NUM_SCALES.

(** Settles one test [Req_EM_T a b] on closed terms. *)
Ltac decide_pivot :=
  match goal with
  | |- context [Req_EM_T ?a ?b] =>
      destruct (Req_EM_T a b) as [?H|?H]; [exfalso; lra | ]
  | |- context [Req_EM_T ?a ?b] =>
      destruct (Req_EM_T a b) as [?H|?H]; [ | exfalso; lra ]
  end.

(** ** The module proper, over its external collaborators

    [dt_ioppr_get_rgb_matrix_luminance] and [dt_camera_rgb_luminance]
    (common/iop_profile.h) and [gauss_solve] (iop/gaussian_elimination.h) are
    not under src/: the module is embedded over arbitrary such functions. *)

Section Filmic.

Variable dt_iop_order_iccprofile_info_t : Type.
Variable dt_ioppr_get_rgb_matrix_luminance : dt_iop_order_iccprofile_info_t -> rgb -> R.
Variable dt_camera_rgb_luminance : rgb -> R.
Variable gauss_solve : list R -> list R -> nat -> list R.

(** [(work_profile) ? dt_ioppr_get_rgb_matrix_luminance(...) : dt_camera_rgb_luminance(...)] *)
Definition luminance (work_profile : option dt_iop_order_iccprofile_info_t) (pixel : rgb) : R :=
  match work_profile with
  | Some profile => dt_ioppr_get_rgb_matrix_luminance profile pixel
  | None => dt_camera_rgb_luminance pixel
  end.

Definition get_pixel_norm (pixel : rgb) (variant : Z)
    (work_profile : option dt_iop_order_iccprofile_info_t) : R :=
  if (variant =? DT_FILMIC_METHOD_MAX_RGB)%Z then
    fmaxf (fmaxf (chan pixel 0) (chan pixel 1)) (chan pixel 2)
  else if (variant =? DT_FILMIC_METHOD_LUMINANCE)%Z then luminance work_profile pixel
  else if (variant =? DT_FILMIC_METHOD_POWER_NORM)%Z then pixel_rgb_norm_power pixel
  else luminance work_profile pixel.

(** *** Highlight reconstruction (lines 867-977) *)

Record wavelets : Type := mk_wavelets {
  LF_even : buffer;
  LF_odd : buffer;
  HF_RGB : buffer;
  HF_grey : buffer;
  temp : buffer;
  accumulator : buffer          (* [reconstructed] *)
}.

Definition alloc_failed_message : string :=
  "filmic highlights reconstruction failed to allocate memory, check your RAM settings".

(** One turn of [for(int s = 0; s < scales; ++s)]. *)
Definition reconstruct_scale (in_ mask : buffer) (variant : Z)
    (data : dt_iop_filmicrgb_data_t) (width height : nat) (scales : nat)
    (w : wavelets) (s : nat) : wavelets :=
  let gamma := d_reconstruct_structure_vs_texture data in
  let gamma_comp := 1 - d_reconstruct_structure_vs_texture data in
  let beta := d_reconstruct_grey_vs_color data in
  let beta_comp := 1 - d_reconstruct_grey_vs_color data in
  let delta := d_reconstruct_bloom_vs_details data in
  let bound_left := 0%Z in
  let bound_right := (Z.of_nat width - 1)%Z in
  let bound_top := 0%Z in
  let bound_bot := (Z.of_nat height - 1)%Z in
  let odd_target := orb (Nat.eqb s 0) (Nat.eqb (s mod 2) 0) in
  let detail :=
    if Nat.eqb s 0 then in_
    else if negb (Nat.eqb (s mod 2) 0) then LF_odd w
    else LF_even w in
  let LF0 := if odd_target then LF_odd w else LF_even w in
  let mult := (2 ^ s)%nat in
  let temp1 := blur_2D_Bspline_vertical detail (temp w) width height 4 mult
                 bound_left bound_right in
  let LF := blur_2D_Bspline_horizontal temp1 LF0 width height 4 mult bound_top bound_bot in
  let '(HF1, grey1) :=
    if (variant =? 0)%Z then
      wavelets_detail_level_RGB detail LF (HF_RGB w) (HF_grey w) width height 4
    else if (variant =? 1)%Z then
      wavelets_detail_level_ratios detail LF (HF_RGB w) (HF_grey w) width height 4
    else (HF_RGB w, HF_grey w) in
  let temp2 := blur_2D_Bspline_vertical HF1 temp1 width height 4 mult
                 bound_left bound_right in
  let HF2 := blur_2D_Bspline_horizontal temp2 HF1 width height 4 mult bound_top bound_bot in
  let reconstructed :=
    if (variant =? 0)%Z then
      wavelets_reconstruct_RGB HF2 LF grey1 mask (accumulator w) width height 4
        gamma gamma_comp beta beta_comp delta s scales
    else if (variant =? 1)%Z then
      wavelets_reconstruct_ratios HF2 LF grey1 mask (accumulator w) width height 4
        gamma gamma_comp beta beta_comp delta s scales
    else accumulator w in
  {| LF_even := if odd_target then LF_even w else LF;
     LF_odd := if odd_target then LF else LF_odd w;
     HF_RGB := HF2; HF_grey := grey1; temp := temp2;
     accumulator := reconstructed |}.

(** Returns [success], the [reconstructed] buffer as the call leaves it, and
    what was passed to [dt_control_log]. *)
Definition reconstruct_highlights (in_ mask reconstructed : buffer) (variant : Z)
    (data : dt_iop_filmicrgb_data_t) (piece : dt_dev_pixelpipe_iop_t)
    (roi_in roi_out : dt_iop_roi_t) (alloc : scratch_alloc)
    : bool * buffer * list string :=
  let scales := get_scales roi_in piece in
  match alloc_LF_even alloc, alloc_LF_odd alloc, alloc_HF_RGB alloc,
        alloc_HF_grey alloc, alloc_temp alloc with
  | Some LF_even, Some LF_odd, Some HF_RGB, Some HF_grey, Some temp =>
      let width := Z.to_nat (roi_width roi_out) in
      let height := Z.to_nat (roi_height roi_out) in
      let reconstructed := init_reconstruct in_ mask reconstructed width height 4 in
      let w := fold_left
                 (reconstruct_scale in_ mask variant data width height (Z.to_nat scales))
                 (seq 0 (Z.to_nat scales))
                 (mk_wavelets LF_even LF_odd HF_RGB HF_grey temp reconstructed) in
      (true, accumulator w, [])
  | _, _, _, _, _ => (false, reconstructed, [alloc_failed_message])
  end.

(** *** Tone-mapping kernels (lines 979-1179) *)

Definition floor_noise (x : R) : R := if Rlt_dec x noise_floor then noise_floor else x.

Definition apply_spline (spline : dt_iop_filmic_rgb_spline_t) (x : R) : R :=
  filmic_spline x (M1 spline) (M2 spline) (M3 spline) (M4 spline) (M5 spline)
    (latitude_min spline) (latitude_max spline).

Definition filmic_split_v1_pixel (work_profile : option dt_iop_order_iccprofile_info_t)
    (data : dt_iop_filmicrgb_data_t) (spline : dt_iop_filmic_rgb_spline_t)
    (pix_in : rgb) : rgb :=
  let temp := map_rgb (fun v => log_tonemapping_v1 (floor_noise v) (d_grey_source data)
                                  (d_black_source data) (d_dynamic_range data)) pix_in in
  let lum := luminance work_profile temp in
  let desaturation := filmic_desaturate_v1 lum (d_sigma_toe data) (d_sigma_shoulder data)
                        (d_saturation data) in
  map_rgb (fun t => powf (clamp_simd (apply_spline spline (linear_saturation t lum desaturation)))
                      (d_output_power data)) temp.

Definition filmic_split_v1 (in_ out : buffer)
    (work_profile : option dt_iop_order_iccprofile_info_t)
    (data : dt_iop_filmicrgb_data_t) (spline : dt_iop_filmic_rgb_spline_t)
    (width height ch : nat) : buffer :=
  fold_left (fun out k =>
      store_rgb out k (filmic_split_v1_pixel work_profile data spline (pixel_at in_ k)))
    (pixel_offsets width height ch) out.

Definition filmic_split_v2_pixel (work_profile : option dt_iop_order_iccprofile_info_t)
    (data : dt_iop_filmicrgb_data_t) (spline : dt_iop_filmic_rgb_spline_t)
    (pix_in : rgb) : rgb :=
  let temp := map_rgb (fun v => log_tonemapping_v2 (floor_noise v) (d_grey_source data)
                                  (d_black_source data) (d_dynamic_range data)) pix_in in
  let lum := luminance work_profile temp in
  let desaturation := filmic_desaturate_v2 lum (d_sigma_toe data) (d_sigma_shoulder data)
                        (d_saturation data) in
  map_rgb (fun t => powf (clamp_simd (apply_spline spline (linear_saturation t lum desaturation)))
                      (d_output_power data)) temp.

Definition filmic_split_v2 (in_ out : buffer)
    (work_profile : option dt_iop_order_iccprofile_info_t)
    (data : dt_iop_filmicrgb_data_t) (spline : dt_iop_filmic_rgb_spline_t)
    (width height ch : nat) : buffer :=
  fold_left (fun out k =>
      store_rgb out k (filmic_split_v2_pixel work_profile data spline (pixel_at in_ k)))
    (pixel_offsets width height ch) out.

Definition filmic_chroma_v1_pixel (work_profile : option dt_iop_order_iccprofile_info_t)
    (data : dt_iop_filmicrgb_data_t) (spline : dt_iop_filmic_rgb_spline_t)
    (variant : Z) (pix_in : rgb) : rgb :=
  let norm := get_pixel_norm pix_in variant work_profile in
  let norm := floor_noise norm in
  let ratios := map_rgb (fun v => v / norm) pix_in in
  let min_ratios := fminf (fminf (chan ratios 0) (chan ratios 1)) (chan ratios 2) in
  let ratios := if Rlt_dec min_ratios 0 then map_rgb (fun r => r - min_ratios) ratios
                else ratios in
  let norm := log_tonemapping_v1 norm (d_grey_source data) (d_black_source data)
                (d_dynamic_range data) in
  let desaturation := filmic_desaturate_v1 norm (d_sigma_toe data) (d_sigma_shoulder data)
                        (d_saturation data) in
  let ratios := map_rgb (fun r => r * norm) ratios in
  let lum := luminance work_profile ratios in
  let ratios := map_rgb (fun r => linear_saturation r lum desaturation / norm) ratios in
  let norm := powf (clamp_simd (apply_spline spline norm)) (d_output_power data) in
  map_rgb (fun r => r * norm) ratios.

Definition filmic_chroma_v1 (in_ out : buffer)
    (work_profile : option dt_iop_order_iccprofile_info_t)
    (data : dt_iop_filmicrgb_data_t) (spline : dt_iop_filmic_rgb_spline_t)
    (variant : Z) (width height ch : nat) : buffer :=
  fold_left (fun out k =>
      store_rgb out k (filmic_chroma_v1_pixel work_profile data spline variant (pixel_at in_ k)))
    (pixel_offsets width height ch) out.

Definition filmic_chroma_v2_pixel (work_profile : option dt_iop_order_iccprofile_info_t)
    (data : dt_iop_filmicrgb_data_t) (spline : dt_iop_filmic_rgb_spline_t)
    (variant : Z) (pix_in : rgb) : rgb :=
  let norm := get_pixel_norm pix_in variant work_profile in
  let norm := floor_noise norm in
  let ratios := map_rgb (fun v => v / norm) pix_in in
  let min_ratios := fminf (fminf (chan ratios 0) (chan ratios 1)) (chan ratios 2) in
  let sanitize := Rlt_dec min_ratios 0 in
  let ratios := if sanitize then map_rgb (fun r => r - min_ratios) ratios else ratios in
  let norm := log_tonemapping_v2 norm (d_grey_source data) (d_black_source data)
                (d_dynamic_range data) in
  let desaturation := filmic_desaturate_v2 norm (d_sigma_toe data) (d_sigma_shoulder data)
                        (d_saturation data) in
  let norm := powf (clamp_simd (apply_spline spline norm)) (d_output_power data) in
  let ratios := map_rgb (fun r => fmaxf (r + (1 - r) * (1 - desaturation)) 0) ratios in
  let pix_out := map_rgb (fun r => r * norm) ratios in
  let max_pix := fmaxf (fmaxf (chan pix_out 0) (chan pix_out 1)) (chan pix_out 2) in
  let penalize := Rgt_dec max_pix 1 in
  if penalize then
    let ratios := map_rgb (fun r => fmaxf (r + (1 - max_pix)) 0) ratios in
    map_rgb (fun r => clamp_simd (r * norm)) ratios
  else pix_out.

Definition filmic_chroma_v2 (in_ out : buffer)
    (work_profile : option dt_iop_order_iccprofile_info_t)
    (data : dt_iop_filmicrgb_data_t) (spline : dt_iop_filmic_rgb_spline_t)
    (variant : Z) (width height ch : nat) : buffer :=
  fold_left (fun out k =>
      store_rgb out k (filmic_chroma_v2_pixel work_profile data spline variant (pixel_at in_ k)))
    (pixel_offsets width height ch) out.

Definition display_mask (mask out : buffer) (width height ch : nat) : buffer :=
  fold_left (fun out k => store out k (mask (k / ch)%nat))
    (seq 0 (height * width * ch)) out.

(** *** Ratios to the norm and back (lines 1194-1225) *)

Definition compute_ratios_step (in_ : buffer)
    (work_profile : option dt_iop_order_iccprofile_info_t) (variant : Z) (ch : nat)
    (st : buffer * buffer) (k : nat) : buffer * buffer :=
  let norm := get_pixel_norm (pixel_at in_ k) variant work_profile in
  let norm := floor_noise norm in
  (store (fst st) (k / ch)%nat norm,
   fold_left (fun ratios c => store ratios (k + c)%nat (in_ (k + c)%nat / norm))
     (seq 0 3) (snd st)).

(** Returns the buffers [norms] and [ratios] as the call leaves them. *)
Definition compute_ratios (in_ norms ratios : buffer)
    (work_profile : option dt_iop_order_iccprofile_info_t) (variant : Z)
    (width height ch : nat) : buffer * buffer :=
  fold_left (compute_ratios_step in_ work_profile variant ch)
    (pixel_offsets width height ch) (norms, ratios).

Definition restore_ratios (ratios norms : buffer) (width height ch : nat) : buffer :=
  fold_left (fun ratios k =>
    fold_left (fun ratios c => store ratios (k + c)%nat (ratios (k + c)%nat * norms (k / ch)%nat))
      (seq 0 3) ratios)
    (pixel_offsets width height ch) ratios.

(** *** [process] (lines 1228-1325) *)

(** Modelled from the spec: [dt_iop_alpha_copy] (develop/imageop_math.h, not
    under src/), "alpha channel copied through unmodified". *)
Definition dt_iop_alpha_copy (ivoid ovoid : buffer) (width height : nat) : buffer :=
  fold_left (fun out k => store out (k + 3)%nat (ivoid (k + 3)%nat))
    (pixel_offsets width height 4) ovoid.

Definition colors_failed_message : string := "filmic works only on RGB input".

(** Lines 1275-1302: the buffer [in] points to when the tone mapper starts,
    and what was logged on the way. *)
Definition process_highlights (in_ : buffer) (recover_highlights : bool)
    (mask : option buffer) (data : dt_iop_filmicrgb_data_t)
    (piece : dt_dev_pixelpipe_iop_t)
    (work_profile : option dt_iop_order_iccprofile_info_t)
    (roi_in roi_out : dt_iop_roi_t) (alloc : process_alloc) : buffer * list string :=
  let variant := d_preserve_color data in
  let width := Z.to_nat (roi_width roi_out) in
  let height := Z.to_nat (roi_height roi_out) in
  match mask, alloc_reconstructed alloc with
  | Some mask, Some reconstructed =>
      if recover_highlights then
        let '(success_1, reconstructed, log_1) :=
          reconstruct_highlights in_ mask reconstructed 0 data piece roi_in roi_out
            (alloc_pass1 alloc) in
        let '(reconstructed, log_2) :=
          if truthy (d_high_quality_reconstruction data) && success_1 then
            match alloc_norms alloc, alloc_ratios alloc with
            | Some norms, Some ratios =>
                let '(norms, ratios) :=
                  compute_ratios reconstructed norms ratios work_profile variant
                    width height 4 in
                let '(success_2, reconstructed, log_2) :=
                  reconstruct_highlights ratios mask reconstructed 1 data piece roi_in roi_out
                    (alloc_pass2 alloc) in
                (if success_2 then restore_ratios reconstructed norms width height 4
                 else reconstructed, log_2)
            | _, _ => (reconstructed, [])
            end
          else (reconstructed, []) in
        (if success_1 then reconstructed else in_, (log_1 ++ log_2)%list)
      else (in_, [])
  | _, _ => (in_, [])
  end.

(** Lines 1304-1319: the kernel selected by chroma mode and version. *)
Definition process_tonemap (in_ out : buffer)
    (work_profile : option dt_iop_order_iccprofile_info_t)
    (data : dt_iop_filmicrgb_data_t) (roi_in roi_out : dt_iop_roi_t) : buffer :=
  let variant := d_preserve_color data in
  let spline := d_spline data in
  let ch := 4%nat in
  if (variant =? DT_FILMIC_METHOD_NONE)%Z then
    if (d_version data =? DT_FILMIC_COLORSCIENCE_V1)%Z then
      filmic_split_v1 in_ out work_profile data spline
        (Z.to_nat (roi_width roi_out)) (Z.to_nat (roi_height roi_in)) ch
    else if (d_version data =? DT_FILMIC_COLORSCIENCE_V2)%Z then
      filmic_split_v2 in_ out work_profile data spline
        (Z.to_nat (roi_width roi_out)) (Z.to_nat (roi_height roi_in)) ch
    else out
  else
    if (d_version data =? DT_FILMIC_COLORSCIENCE_V1)%Z then
      filmic_chroma_v1 in_ out work_profile data spline variant
        (Z.to_nat (roi_width roi_out)) (Z.to_nat (roi_height roi_out)) ch
    else if (d_version data =? DT_FILMIC_COLORSCIENCE_V2)%Z then
      filmic_chroma_v2 in_ out work_profile data spline variant
        (Z.to_nat (roi_width roi_out)) (Z.to_nat (roi_height roi_out)) ch
    else out.

(** Lines 1256-1260: the mask buffer is written without a NULL check, so a
    failed allocation of it is a store through NULL ([None]) as soon as the
    region has a pixel. *)
Definition process_mask (in_ : buffer) (data : dt_iop_filmicrgb_data_t)
    (roi_out : dt_iop_roi_t) (alloc : process_alloc) : option (option buffer * bool) :=
  let width := Z.to_nat (roi_width roi_out) in
  let height := Z.to_nat (roi_height roi_out) in
  let normalize := d_reconstruct_feather data / d_reconstruct_threshold data in
  match alloc_mask alloc with
  | Some mask =>
      let '(mask, recover_highlights) :=
        mask_clipped_pixels in_ mask normalize (d_reconstruct_feather data) width height 4 in
      Some (Some mask, recover_highlights)
  | None =>
      match pixel_offsets width height 4 with
      | [] => Some (None, false)
      | _ :: _ => None
      end
  end.

(** [process] returns the output buffer and the log; [None] is undefined
    behaviour. [gui_attached] is [self->dev->gui_attached], [show_mask] is
    [g->show_mask]. *)
Definition process (gui_attached show_mask : bool) (piece : dt_dev_pixelpipe_iop_t)
    (work_profile : option dt_iop_order_iccprofile_info_t)
    (data : dt_iop_filmicrgb_data_t) (ivoid ovoid : buffer)
    (roi_in roi_out : dt_iop_roi_t) (alloc : process_alloc)
    : option (buffer * list string) :=
  if negb (colors piece =? 4)%Z then Some (ovoid, [colors_failed_message])
  else
    let width := Z.to_nat (roi_width roi_out) in
    let height := Z.to_nat (roi_height roi_out) in
    match process_mask ivoid data roi_out alloc with
    | None => None
    | Some (mask, recover_highlights) =>
        match (if gui_attached && pipe_type_full piece && show_mask then mask else None) with
        | Some mask => Some (display_mask mask ovoid width height 4, [])
        | None =>
            let '(in_, log) :=
              process_highlights ivoid recover_highlights mask data piece work_profile
                roi_in roi_out alloc in
            let out := process_tonemap in_ ovoid work_profile data roi_in roi_out in
            Some (if pipe_mask_display piece then dt_iop_alpha_copy ivoid out width height
                  else out, log)
        end
    end.

(** *** Curve solver and commit (lines 1972-2225) *)

Definition ORDER_4 : nat := 5.
Definition ORDER_3 : nat := 4.

(** Lines 2006: the slope of the latitude. *)
Definition spline_contrast (p : dt_iop_filmicrgb_params_t) : R :=
  CLAMP (contrast p) 0.1 2.

(** Lines 1978-2052: the five nodes, [x] in the log domain and [y] on the
    display. *)
Definition spline_nodes (p : dt_iop_filmicrgb_params_t)
    (spline : dt_iop_filmic_rgb_spline_t) : buffer * buffer :=
  let grey_display :=
    if truthy (custom_grey p) then
      powf (CLAMP (grey_point_target p) (black_point_target p) (white_point_target p) / 100)
           (1 / output_power p)
    else powf 0.1845 (1 / output_power p) in
  let white_source := white_point_source p in
  let black_source := black_point_source p in
  let dynamic_range := white_source - black_source in
  let black_log := 0 in
  let grey_log := fabsf (black_point_source p) / dynamic_range in
  let white_log := 1 in
  let black_display := CLAMP (black_point_target p) 0 (grey_point_target p) / 100 in
  let white_display := CLAMP (white_point_target p) (grey_point_target p) 100 / 100 in
  let latitude := CLAMP (latitude p) 0 100 / 100 * dynamic_range in
  let balance := CLAMP (balance p) (-50) 50 / 100 in
  let contrast := spline_contrast p in
  let toe_log := grey_log - latitude / dynamic_range * fabsf (black_source / dynamic_range) in
  let shoulder_log :=
    grey_log + latitude / dynamic_range * fabsf (white_source / dynamic_range) in
  let linear_intercept := grey_display - (contrast * grey_log) in
  let toe_display := toe_log * contrast + linear_intercept in
  let shoulder_display := shoulder_log * contrast + linear_intercept in
  let norm := sqrtf (contrast * contrast + 1) in
  let coeff := - ((2 * latitude) / dynamic_range) * balance in
  let toe_display := toe_display + coeff * contrast / norm in
  let shoulder_display := shoulder_display + coeff * contrast / norm in
  let toe_log := toe_log + coeff / norm in
  let shoulder_log := shoulder_log + coeff / norm in
  let x := store (store (store (store (store (spline_x spline) 0 black_log) 1 toe_log)
                                2 grey_log) 3 shoulder_log) 4 white_log in
  let y := store (store (store (store (store (spline_y spline) 0 black_display) 1 toe_display)
                                2 grey_display) 3 shoulder_display) 4 white_display in
  (x, y).

(** Lines 2062-2116: the toe, as the coefficients of x^0 .. x^4. *)
Definition solve_toe (x y : buffer) (slope : R) (shadows : dt_iop_filmicrgb_curve_type_t)
    : R * R * R * R * R :=
  let Tl := x 1%nat in
  let Tl2 := Tl * Tl in
  let Tl3 := Tl2 * Tl in
  let Tl4 := Tl3 * Tl in
  match shadows with
  | DT_FILMIC_CURVE_POLY_4 =>
      let A0 := [0;         0;        0;      0;  1;
                 0;         0;        0;      1;  0;
                 Tl4;       Tl3;      Tl2;    Tl; 1;
                 4 * Tl3;   3 * Tl2;  2 * Tl; 1;  0;
                 12 * Tl2;  6 * Tl;   2;      0;  0] in
      let b0 := [y 0%nat; 0; y 1%nat; slope; 0] in
      let b0 := gauss_solve A0 b0 ORDER_4 in
      (nth 4 b0 0, nth 3 b0 0, nth 2 b0 0, nth 1 b0 0, nth 0 b0 0)
  | DT_FILMIC_CURVE_POLY_3 =>
      let A0 := [0;        0;       0;   1;
                 Tl3;      Tl2;     Tl;  1;
                 3 * Tl2;  2 * Tl;  1;   0;
                 6 * Tl;   2;       0;   0] in
      let b0 := [y 0%nat; y 1%nat; slope; 0] in
      let b0 := gauss_solve A0 b0 ORDER_3 in
      (nth 3 b0 0, nth 2 b0 0, nth 1 b0 0, nth 0 b0 0, 0)
  end.

(** Lines 2067-2070 and 2118-2155: the shoulder. *)
Definition solve_shoulder (x y : buffer) (slope : R)
    (highlights : dt_iop_filmicrgb_curve_type_t) : R * R * R * R * R :=
  let Sl := x 3%nat in
  let Sl2 := Sl * Sl in
  let Sl3 := Sl2 * Sl in
  let Sl4 := Sl3 * Sl in
  match highlights with
  | DT_FILMIC_CURVE_POLY_3 =>
      let A1 := [1;        1;       1;   1;
                 Sl3;      Sl2;     Sl;  1;
                 3 * Sl2;  2 * Sl;  1;   0;
                 6 * Sl;   2;       0;   0] in
      let b1 := [y 4%nat; y 3%nat; slope; 0] in
      let b1 := gauss_solve A1 b1 ORDER_3 in
      (nth 3 b1 0, nth 2 b1 0, nth 1 b1 0, nth 0 b1 0, 0)
  | DT_FILMIC_CURVE_POLY_4 =>
      let A1 := [1;         1;        1;      1;  1;
                 4;         3;        2;      1;  0;
                 Sl4;       Sl3;      Sl2;    Sl; 1;
                 4 * Sl3;   3 * Sl2;  2 * Sl; 1;  0;
                 12 * Sl2;  6 * Sl;   2;      0;  0] in
      let b1 := [y 4%nat; 0; y 3%nat; slope; 0] in
      let b1 := gauss_solve A1 b1 ORDER_4 in
      (nth 4 b1 0, nth 3 b1 0, nth 2 b1 0, nth 1 b1 0, nth 0 b1 0)
  end.

Definition dt_iop_filmic_rgb_compute_spline (p : dt_iop_filmicrgb_params_t)
    (spline : dt_iop_filmic_rgb_spline_t) : dt_iop_filmic_rgb_spline_t :=
  let nodes := spline_nodes p spline in
  let x := fst nodes in
  let y := snd nodes in
  let m2 := store (M2 spline) 2 (spline_contrast p) in
  let m1 := store (M1 spline) 2 (y 1%nat - m2 2%nat * x 1%nat) in
  let m3 := store (M3 spline) 2 0 in
  let m4 := store (M4 spline) 2 0 in
  let m5 := store (M5 spline) 2 0 in
  let toe := solve_toe x y (m2 2%nat) (shadows p) in
  let shoulder := solve_shoulder x y (m2 2%nat) (highlights p) in
  let '(t1, t2, t3, t4, t5) := toe in
  let '(s1, s2, s3, s4, s5) := shoulder in
  {| M1 := store (store m1 0 t1) 1 s1;
     M2 := store (store m2 0 t2) 1 s2;
     M3 := store (store m3 0 t3) 1 s3;
     M4 := store (store m4 0 t4) 1 s4;
     M5 := store (store m5 0 t5) 1 s5;
     latitude_min := x 1%nat;
     latitude_max := x 3%nat;
     spline_y := y;
     spline_x := x |}.

Definition commit_params (p : dt_iop_filmicrgb_params_t) (d : dt_iop_filmicrgb_data_t)
    : dt_iop_filmicrgb_data_t :=
  let '(grey_source, grey_display) :=
    if truthy (custom_grey p) then
      (grey_point_source p / 100, powf (grey_point_target p / 100) (1 / output_power p))
    else (0.1845, powf 0.1845 (1 / output_power p)) in
  let white_source := white_point_source p in
  let black_source := black_point_source p in
  let dynamic_range := white_source - black_source in
  let grey_log := fabsf (black_point_source p) / dynamic_range in
  let contrast := contrast p in
  let contrast :=
    if Rlt_dec contrast (grey_display / grey_log)
    then 1.0001 * grey_display / grey_log
    else contrast in
  let spline := dt_iop_filmic_rgb_compute_spline p (d_spline d) in
  {| d_max_grad := d_max_grad d;
     d_white_source := d_white_source d;
     d_grey_source := grey_source;
     d_black_source := black_source;
     d_reconstruct_threshold :=
       powf 2 (white_source + reconstruct_threshold p) * grey_source;
     d_reconstruct_feather := exp2f (12 / reconstruct_feather p);
     d_reconstruct_bloom_vs_details := (reconstruct_bloom_vs_details p / 100 + 1) / 2;
     d_reconstruct_grey_vs_color := (reconstruct_grey_vs_color p / 100 + 1) / 2;
     d_reconstruct_structure_vs_texture :=
       (reconstruct_structure_vs_texture p / 100 + 1) / 2;
     d_dynamic_range := dynamic_range;
     d_saturation := 2 * saturation p / 100 + 1;
     d_output_power := output_power p;
     d_contrast := contrast;
     d_sigma_toe := powf (latitude_min spline / 3) 2;
     d_sigma_shoulder := powf ((1 - latitude_max spline) / 3) 2;
     d_preserve_color := preserve_color p;
     d_version := version p;
     d_high_quality_reconstruction := high_quality_reconstruction p;
     d_spline := spline |}.

(** *** The specification's wording of the encoder, the clip mask and the
    commit step, to compare the code with *)

Definition spec_clamp (v low high : R) : R :=
  if Rlt_dec v low then low else if Rlt_dec high v then high else v.

Definition spec_encoded (x grey black dynamic_range : R) : R :=
  (ln (x / grey) / ln 2 - black) / dynamic_range.

Definition spec_pix_norm (in_ : buffer) (i : nat) : R :=
  sqrt (in_ (4 * i)%nat * in_ (4 * i)%nat
        + in_ (4 * i + 1)%nat * in_ (4 * i + 1)%nat
        + in_ (4 * i + 2)%nat * in_ (4 * i + 2)%nat).

Definition spec_argument (in_ : buffer) (feather threshold : R) (i : nat) : R :=
  feather - spec_pix_norm in_ i * (feather / threshold).

Definition spec_weight (argument : R) : R := 1 / (1 + Rpower 2 argument).

(** The number of pixels, among the first [npix], with [argument < 4]. *)
Definition spec_clipped (in_ : buffer) (feather threshold : R) (npix : nat) : nat :=
  List.length
    (List.filter (fun i => if Rlt_dec (spec_argument in_ feather threshold i) 4 then true else false)
       (seq 0 npix)).

(** [grey_display] and [grey_log] as [commit_params] computes them
    (lines 2165-2185). *)
Definition commit_grey_display (p : dt_iop_filmicrgb_params_t) : R :=
  if truthy (custom_grey p)
  then powf (grey_point_target p / 100) (1 / output_power p)
  else powf 0.1845 (1 / output_power p).

Definition commit_grey_log (p : dt_iop_filmicrgb_params_t) : R :=
  fabsf (black_point_source p) / (white_point_source p - black_point_source p).

(** What one scale adds to channel [c] of the pixel at offset [k], given the
    operation [combine] that merges the three low-frequency channels into
    the grey residual (lines 696-729 and 761-794). *)
Definition synthesis_term (combine : R -> R -> R) (HF LF texture mask : buffer)
    (gamma gamma_comp beta beta_comp delta : R) (scales : nat) (k c : nat) : R :=
  let grey_HF :=
    beta_comp * (gamma_comp * fmaxabsf (fmaxabsf (HF k) (HF (k + 1)%nat)) (HF (k + 2)%nat)
                 + gamma * texture (k / 4)%nat) in
  let grey_residual := beta_comp * combine (combine (LF k) (LF (k + 1)%nat)) (LF (k + 2)%nat) in
  mask (k / 4)%nat
  * (delta * (grey_HF + HF (k + c)%nat * beta * gamma_comp)
     + (grey_residual + LF (k + c)%nat * beta) / INR scales).

(** Every scratch buffer of a pass was allocated. *)
Definition scratch_ok (a : scratch_alloc) : bool :=
  match alloc_LF_even a, alloc_LF_odd a, alloc_HF_RGB a, alloc_HF_grey a, alloc_temp a with
  | Some _, Some _, Some _, Some _, Some _ => true
  | _, _, _, _, _ => false
  end.

(** The last statement of [process] (lines 1323-1324). *)
Definition process_alpha (piece : dt_dev_pixelpipe_iop_t) (ivoid out : buffer)
    (roi_out : dt_iop_roi_t) : buffer :=
  if pipe_mask_display piece
  then dt_iop_alpha_copy ivoid out (Z.to_nat (roi_width roi_out)) (Z.to_nat (roi_height roi_out))
  else out.

(** *** Inputs to run the model on *)

(** Modelled from the spec: [gauss_solve] (iop/gaussian_elimination.h, not
    under src/), "a small (4x4 or 5x5) linear system ... solved once via
    Gaussian elimination": the rows of the augmented matrix, elimination
    below a non-zero pivot, back substitution.  A singular system leaves the
    right-hand side as it is. *)
Fixpoint matrix_rows (n rows_left : nat) (A b : list R) : list (list R) :=
  match rows_left, b with
  | S r, bi :: b' => (firstn n A ++ [bi]) :: matrix_rows n r (skipn n A) b'
  | _, _ => []
  end.

Fixpoint pivot_row (rows : list (list R)) : option (list R * list (list R)) :=
  match rows with
  | [] => None
  | r :: rest =>
      if Req_EM_T (hd 0 r) 0
      then match pivot_row rest with
           | Some (p, others) => Some (p, r :: others)
           | None => None
           end
      else Some (r, rest)
  end.

Fixpoint sub_scaled (f : R) (p r : list R) : list R :=
  match p, r with
  | a :: p', b :: r' => (b - f * a) :: sub_scaled f p' r'
  | _, _ => []
  end.

Definition eliminate (p r : list R) : list R := tl (sub_scaled (hd 0 r / hd 0 p) p r).

Fixpoint dot (u v : list R) : R :=
  match u, v with
  | a :: u', b :: v' => a * b + dot u' v'
  | _, _ => 0
  end.

Fixpoint gauss_eliminate (n : nat) (rows : list (list R)) : option (list R) :=
  match n with
  | O => Some []
  | S n' =>
      match pivot_row rows with
      | None => None
      | Some (p, others) =>
          match gauss_eliminate n' (map (eliminate p) others) with
          | None => None
          | Some xs => Some ((last p 0 - dot (tl p) xs) / hd 0 p :: xs)
          end
      end
  end.

Definition gauss_solve_model (A b : list R) (n : nat) : list R :=
  match gauss_eliminate n (matrix_rows n n A b) with
  | Some x => x
  | None => b
  end.

(** A luminance to run the kernels with. *)
Definition example_luminance (pixel : rgb) : R :=
  chan pixel 0 * 0.2225045 + chan pixel 1 * 0.7168786 + chan pixel 2 * 0.0606169.

Definition zero_buffer : buffer := fun _ => 0.

Definition zero_spline : dt_iop_filmic_rgb_spline_t :=
  mk_spline zero_buffer zero_buffer zero_buffer zero_buffer zero_buffer 0 0
    zero_buffer zero_buffer.

(** The defaults of [init] (lines 2310-2336). *)
Definition default_params : dt_iop_filmicrgb_params_t :=
  {| grey_point_source := 18.45; black_point_source := -10.55;
     white_point_source := 3.45;
     reconstruct_threshold := 0; reconstruct_feather := 3;
     reconstruct_bloom_vs_details := 100; reconstruct_grey_vs_color := 0;
     reconstruct_structure_vs_texture := 50; security_factor := 0;
     grey_point_target := 18.45; black_point_target := 0; white_point_target := 100;
     output_power := 5.98; latitude := 40; contrast := 1.30; saturation := 0;
     balance := 12; preserve_color := DT_FILMIC_METHOD_POWER_NORM;
     version := DT_FILMIC_COLORSCIENCE_V2; auto_hardness := 1; custom_grey := 0;
     high_quality_reconstruction := 0;
     shadows := DT_FILMIC_CURVE_POLY_4; highlights := DT_FILMIC_CURVE_POLY_4 |}.

(** Settings within the ranges of the sliders ([gui_init], lines 2544-2757)
    with the balance at +25 %: the shift along the contrast slope moves the
    shoulder node to the left of the grey node. *)
Definition balanced_params : dt_iop_filmicrgb_params_t :=
  {| grey_point_source := 18.45; black_point_source := -12; white_point_source := 4;
     reconstruct_threshold := 0; reconstruct_feather := 3;
     reconstruct_bloom_vs_details := 100; reconstruct_grey_vs_color := 0;
     reconstruct_structure_vs_texture := 50; security_factor := 0;
     grey_point_target := 50; black_point_target := 0; white_point_target := 100;
     output_power := 1; latitude := 50; contrast := 0.75; saturation := 0;
     balance := 25; preserve_color := DT_FILMIC_METHOD_POWER_NORM;
     version := DT_FILMIC_COLORSCIENCE_V2; auto_hardness := 1; custom_grey := 1;
     high_quality_reconstruction := 0;
     shadows := DT_FILMIC_CURVE_POLY_4; highlights := DT_FILMIC_CURVE_POLY_3 |}.

(** A row of ten pixels, the first (1, 0, 0), the others (0, 1, 0), alpha 1:
    every pixel has Euclidean norm 1. *)
Definition highlight_row (k : nat) : R :=
  match k with
  | 0%nat => 1
  | 1%nat => 0
  | 2%nat => 0
  | 3%nat => 1
  | _ => match (k mod 4)%nat with 1%nat => 1 | 3%nat => 1 | _ => 0 end
  end.

Definition row_roi : dt_iop_roi_t := {| roi_width := 10; roi_height := 1; roi_scale := 1 |}.

(** The row is a region of an image 20 pixels wide, rendered at full scale:
    [get_scales] gives one scale. *)
Definition row_piece : dt_dev_pixelpipe_iop_t :=
  {| buf_in_width := 20; buf_in_height := 1; iscale := 1; colors := 4;
     pipe_type_full := true; pipe_mask_display := false |}.

(** Settings within the ranges of the sliders for the row: the clipping
    threshold lands on 1 and the feather on 4, bloom/details at -100 %,
    grey/colour at +100 %, the high-quality second pass on, max-RGB as the
    norm, v2 colour science. *)
Definition row_params : dt_iop_filmicrgb_params_t :=
  {| grey_point_source := 25; black_point_source := -12; white_point_source := 4;
     reconstruct_threshold := -2; reconstruct_feather := 6;
     reconstruct_bloom_vs_details := -100; reconstruct_grey_vs_color := 100;
     reconstruct_structure_vs_texture := 0; security_factor := 0;
     grey_point_target := 50; black_point_target := 0; white_point_target := 100;
     output_power := 1; latitude := 50; contrast := 0.75; saturation := 0;
     balance := 0; preserve_color := DT_FILMIC_METHOD_MAX_RGB;
     version := DT_FILMIC_COLORSCIENCE_V2; auto_hardness := 1; custom_grey := 1;
     high_quality_reconstruction := 1;
     shadows := DT_FILMIC_CURVE_POLY_4; highlights := DT_FILMIC_CURVE_POLY_3 |}.

(** [piece->data] as [init_pipe] allocates it ([calloc], line 2229). *)
Definition zero_data : dt_iop_filmicrgb_data_t :=
  {| d_max_grad := 0; d_white_source := 0; d_grey_source := 0; d_black_source := 0;
     d_reconstruct_threshold := 0; d_reconstruct_feather := 0;
     d_reconstruct_bloom_vs_details := 0; d_reconstruct_grey_vs_color := 0;
     d_reconstruct_structure_vs_texture := 0;
     d_dynamic_range := 0; d_saturation := 0; d_output_power := 0; d_contrast := 0;
     d_sigma_toe := 0; d_sigma_shoulder := 0;
     d_preserve_color := 0; d_version := 0; d_high_quality_reconstruction := 0;
     d_spline := zero_spline |}.

Definition scratch_allocated : scratch_alloc :=
  mk_scratch (Some zero_buffer) (Some zero_buffer) (Some zero_buffer) (Some zero_buffer)
    (Some zero_buffer).

(** The last scratch buffer of the pass, [temp], is refused. *)
Definition scratch_refused : scratch_alloc :=
  mk_scratch (Some zero_buffer) (Some zero_buffer) (Some zero_buffer) (Some zero_buffer) None.

(** Everything is allocated but [temp] of the second pass. *)
Definition second_pass_refused : process_alloc :=
  {| alloc_mask := Some zero_buffer; alloc_reconstructed := Some zero_buffer;
     alloc_pass1 := scratch_allocated;
     alloc_norms := Some zero_buffer; alloc_ratios := Some zero_buffer;
     alloc_pass2 := scratch_refused |}.

(** One pixel whose low-frequency channels are 1, 2, 3, fully masked. *)
Definition low_frequency_123 (k : nat) : R :=
  match k with 0%nat => 1 | 1%nat => 2 | 2%nat => 3 | _ => 0 end.

Definition one_buffer : buffer := fun _ => 1.

(** ** Parameters: migration, colour pickers and sliders *)

Definition logf (x : R) : R := ln x.

(** *** Migration of version 1 parameters (lines 253-308) *)

Record dt_iop_filmicrgb_params_v1_t : Type := mk_params_v1 {
  v1_grey_point_source : R;
  v1_black_point_source : R;
  v1_white_point_source : R;
  v1_security_factor : R;
  v1_grey_point_target : R;
  v1_black_point_target : R;
  v1_white_point_target : R;
  v1_output_power : R;
  v1_latitude : R;
  v1_contrast : R;
  v1_saturation : R;
  v1_balance : R;
  v1_preserve_color : Z
}.

(** Returns the status and [new_params] as the call leaves it; [defaults] is
    [self->default_params]. *)
Definition legacy_params (defaults : dt_iop_filmicrgb_params_t)
    (old_params : dt_iop_filmicrgb_params_v1_t) (old_version : Z)
    (new_params : dt_iop_filmicrgb_params_t) (new_version : Z)
    : Z * dt_iop_filmicrgb_params_t :=
  if ((old_version =? 1) && (new_version =? 2))%Z then
    let o := old_params in
    let d := defaults in
    (0%Z,
     {| grey_point_source := v1_grey_point_source o;
        black_point_source := v1_black_point_source o;
        white_point_source := v1_white_point_source o; reconstruct_threshold := 3;
        reconstruct_feather := 3;
        reconstruct_bloom_vs_details := reconstruct_bloom_vs_details d;
        reconstruct_grey_vs_color := reconstruct_grey_vs_color d;
        reconstruct_structure_vs_texture := reconstruct_structure_vs_texture d;
        security_factor := v1_security_factor o;
        grey_point_target := v1_grey_point_target o;
        black_point_target := v1_black_point_target o;
        white_point_target := v1_white_point_target o; output_power := v1_output_power o;
        latitude := v1_latitude o; contrast := v1_contrast o; saturation := v1_saturation o;
        balance := v1_balance o; preserve_color := v1_preserve_color o;
        version := DT_FILMIC_COLORSCIENCE_V1; auto_hardness := 1; custom_grey := 1;
        high_quality_reconstruction := 0; shadows := DT_FILMIC_CURVE_POLY_4;
        highlights := DT_FILMIC_CURVE_POLY_3 |})
  else (1%Z, new_params).

(** *** Assignments to one field of the parameters ([p->field = v]) *)

Definition set_grey_point_source (p : dt_iop_filmicrgb_params_t) (v : R)
    : dt_iop_filmicrgb_params_t :=
  {| grey_point_source := v; black_point_source := black_point_source p;
     white_point_source := white_point_source p;
     reconstruct_threshold := reconstruct_threshold p;
     reconstruct_feather := reconstruct_feather p;
     reconstruct_bloom_vs_details := reconstruct_bloom_vs_details p;
     reconstruct_grey_vs_color := reconstruct_grey_vs_color p;
     reconstruct_structure_vs_texture := reconstruct_structure_vs_texture p;
     security_factor := security_factor p; grey_point_target := grey_point_target p;
     black_point_target := black_point_target p; white_point_target := white_point_target p;
     output_power := output_power p; latitude := latitude p; contrast := contrast p;
     saturation := saturation p; balance := balance p; preserve_color := preserve_color p;
     version := version p; auto_hardness := auto_hardness p; custom_grey := custom_grey p;
     high_quality_reconstruction := high_quality_reconstruction p; shadows := shadows p;
     highlights := highlights p |}.

Definition set_black_point_source (p : dt_iop_filmicrgb_params_t) (v : R)
    : dt_iop_filmicrgb_params_t :=
  {| grey_point_source := grey_point_source p; black_point_source := v;
     white_point_source := white_point_source p;
     reconstruct_threshold := reconstruct_threshold p;
     reconstruct_feather := reconstruct_feather p;
     reconstruct_bloom_vs_details := reconstruct_bloom_vs_details p;
     reconstruct_grey_vs_color := reconstruct_grey_vs_color p;
     reconstruct_structure_vs_texture := reconstruct_structure_vs_texture p;
     security_factor := security_factor p; grey_point_target := grey_point_target p;
     black_point_target := black_point_target p; white_point_target := white_point_target p;
     output_power := output_power p; latitude := latitude p; contrast := contrast p;
     saturation := saturation p; balance := balance p; preserve_color := preserve_color p;
     version := version p; auto_hardness := auto_hardness p; custom_grey := custom_grey p;
     high_quality_reconstruction := high_quality_reconstruction p; shadows := shadows p;
     highlights := highlights p |}.

Definition set_white_point_source (p : dt_iop_filmicrgb_params_t) (v : R)
    : dt_iop_filmicrgb_params_t :=
  {| grey_point_source := grey_point_source p; black_point_source := black_point_source p;
     white_point_source := v; reconstruct_threshold := reconstruct_threshold p;
     reconstruct_feather := reconstruct_feather p;
     reconstruct_bloom_vs_details := reconstruct_bloom_vs_details p;
     reconstruct_grey_vs_color := reconstruct_grey_vs_color p;
     reconstruct_structure_vs_texture := reconstruct_structure_vs_texture p;
     security_factor := security_factor p; grey_point_target := grey_point_target p;
     black_point_target := black_point_target p; white_point_target := white_point_target p;
     output_power := output_power p; latitude := latitude p; contrast := contrast p;
     saturation := saturation p; balance := balance p; preserve_color := preserve_color p;
     version := version p; auto_hardness := auto_hardness p; custom_grey := custom_grey p;
     high_quality_reconstruction := high_quality_reconstruction p; shadows := shadows p;
     highlights := highlights p |}.

Definition set_security_factor (p : dt_iop_filmicrgb_params_t) (v : R)
    : dt_iop_filmicrgb_params_t :=
  {| grey_point_source := grey_point_source p; black_point_source := black_point_source p;
     white_point_source := white_point_source p;
     reconstruct_threshold := reconstruct_threshold p;
     reconstruct_feather := reconstruct_feather p;
     reconstruct_bloom_vs_details := reconstruct_bloom_vs_details p;
     reconstruct_grey_vs_color := reconstruct_grey_vs_color p;
     reconstruct_structure_vs_texture := reconstruct_structure_vs_texture p;
     security_factor := v; grey_point_target := grey_point_target p;
     black_point_target := black_point_target p; white_point_target := white_point_target p;
     output_power := output_power p; latitude := latitude p; contrast := contrast p;
     saturation := saturation p; balance := balance p; preserve_color := preserve_color p;
     version := version p; auto_hardness := auto_hardness p; custom_grey := custom_grey p;
     high_quality_reconstruction := high_quality_reconstruction p; shadows := shadows p;
     highlights := highlights p |}.

Definition set_output_power (p : dt_iop_filmicrgb_params_t) (v : R)
    : dt_iop_filmicrgb_params_t :=
  {| grey_point_source := grey_point_source p; black_point_source := black_point_source p;
     white_point_source := white_point_source p;
     reconstruct_threshold := reconstruct_threshold p;
     reconstruct_feather := reconstruct_feather p;
     reconstruct_bloom_vs_details := reconstruct_bloom_vs_details p;
     reconstruct_grey_vs_color := reconstruct_grey_vs_color p;
     reconstruct_structure_vs_texture := reconstruct_structure_vs_texture p;
     security_factor := security_factor p; grey_point_target := grey_point_target p;
     black_point_target := black_point_target p; white_point_target := white_point_target p;
     output_power := v; latitude := latitude p; contrast := contrast p;
     saturation := saturation p; balance := balance p; preserve_color := preserve_color p;
     version := version p; auto_hardness := auto_hardness p; custom_grey := custom_grey p;
     high_quality_reconstruction := high_quality_reconstruction p; shadows := shadows p;
     highlights := highlights p |}.

Definition set_auto_hardness (p : dt_iop_filmicrgb_params_t) (v : Z)
    : dt_iop_filmicrgb_params_t :=
  {| grey_point_source := grey_point_source p; black_point_source := black_point_source p;
     white_point_source := white_point_source p;
     reconstruct_threshold := reconstruct_threshold p;
     reconstruct_feather := reconstruct_feather p;
     reconstruct_bloom_vs_details := reconstruct_bloom_vs_details p;
     reconstruct_grey_vs_color := reconstruct_grey_vs_color p;
     reconstruct_structure_vs_texture := reconstruct_structure_vs_texture p;
     security_factor := security_factor p; grey_point_target := grey_point_target p;
     black_point_target := black_point_target p; white_point_target := white_point_target p;
     output_power := output_power p; latitude := latitude p; contrast := contrast p;
     saturation := saturation p; balance := balance p; preserve_color := preserve_color p;
     version := version p; auto_hardness := v; custom_grey := custom_grey p;
     high_quality_reconstruction := high_quality_reconstruction p; shadows := shadows p;
     highlights := highlights p |}.

(** *** Colour pickers (lines 1420-1540)

    [picked_color], [picked_color_min] and [picked_color_max] are the fields
    of [self] the colour picker filled in, [reset] is [self->dt->gui->reset].
    The sliders are then updated while [darktable.gui->reset] is 1, which
    makes their callbacks return at once: what a call leaves behind is the
    parameters. *)

Definition apply_auto_grey (reset : bool) (picked_color : rgb)
    (work_profile : option dt_iop_order_iccprofile_info_t)
    (p : dt_iop_filmicrgb_params_t) : dt_iop_filmicrgb_params_t :=
  if reset then p
  else
    let grey := get_pixel_norm picked_color (preserve_color p) work_profile / 2 in
    let prev_grey := grey_point_source p in
    let p := set_grey_point_source p (CLAMP (100 * grey) 0.001 100) in
    let grey_var := log2f (prev_grey / grey_point_source p) in
    let p := set_black_point_source p (black_point_source p - grey_var) in
    let p := set_white_point_source p (white_point_source p + grey_var) in
    set_output_power p
      (logf (grey_point_target p / 100)
       / logf (- black_point_source p / (white_point_source p - black_point_source p))).

Definition apply_auto_black (reset : bool) (picked_color_min : rgb)
    (work_profile : option dt_iop_order_iccprofile_info_t)
    (p : dt_iop_filmicrgb_params_t) : dt_iop_filmicrgb_params_t :=
  if reset then p
  else
    let black := get_pixel_norm picked_color_min (preserve_color p) work_profile in
    let EVmin := CLAMP (log2f (black / (grey_point_source p / 100))) (-16) (-1) in
    let EVmin := EVmin * (1 + security_factor p / 100) in
    let p := set_black_point_source p (fmaxf EVmin (-16)) in
    set_output_power p
      (logf (grey_point_target p / 100)
       / logf (- black_point_source p / (white_point_source p - black_point_source p))).

Definition apply_auto_white_point_source (reset : bool) (picked_color_max : rgb)
    (work_profile : option dt_iop_order_iccprofile_info_t)
    (p : dt_iop_filmicrgb_params_t) : dt_iop_filmicrgb_params_t :=
  if reset then p
  else
    let white := get_pixel_norm picked_color_max (preserve_color p) work_profile in
    let EVmax := CLAMP (log2f (white / (grey_point_source p / 100))) 1 16 in
    let EVmax := EVmax * (1 + security_factor p / 100) in
    let p := set_white_point_source p EVmax in
    set_output_power p
      (logf (grey_point_target p / 100)
       / logf (- black_point_source p / (white_point_source p - black_point_source p))).

Definition apply_autotune (picked_color picked_color_min picked_color_max : rgb)
    (work_profile : option dt_iop_order_iccprofile_info_t)
    (p : dt_iop_filmicrgb_params_t) : dt_iop_filmicrgb_params_t :=
  let grey := get_pixel_norm picked_color (preserve_color p) work_profile / 2 in
  let p := set_grey_point_source p (CLAMP (100 * grey) 0.001 100) in
  let white := get_pixel_norm picked_color_max (preserve_color p) work_profile in
  let EVmax := CLAMP (log2f (white / (grey_point_source p / 100))) 1 16 in
  let EVmax := EVmax * (1 + security_factor p / 100) in
  let black := get_pixel_norm picked_color_min (preserve_color p) work_profile in
  let EVmin := CLAMP (log2f (black / (grey_point_source p / 100))) (-16) (-1) in
  let EVmin := EVmin * (1 + security_factor p / 100) in
  let p := set_black_point_source p (fmaxf EVmin (-16)) in
  let p := set_white_point_source p EVmax in
  set_output_power p
    (logf (grey_point_target p / 100)
     / logf (- black_point_source p / (white_point_source p - black_point_source p))).

(** *** Sliders of the scene tab (lines 1597-1707, 1934-1955)

    [slider] is what [dt_bauhaus_slider_get] returns, [active] what
    [gtk_toggle_button_get_active] returns.  The hardness formula divides
    by [logf (- black / (white - black))], which is 0 when the white point
    is 0 EV: C then stores an infinite [output_power], which the number
    model does not have; no property below is stated at such a point. *)



Definition black_point_source_callback (reset : bool) (slider : R)
    (p : dt_iop_filmicrgb_params_t) : dt_iop_filmicrgb_params_t :=
  if reset then p
  else
    let p := set_black_point_source p slider in
    if truthy (auto_hardness p) then
      set_output_power p
        (logf (grey_point_target p / 100)
         / logf (- black_point_source p / (white_point_source p - black_point_source p)))
    else p.

Definition security_threshold_callback (reset : bool) (slider : R)
    (p : dt_iop_filmicrgb_params_t) : dt_iop_filmicrgb_params_t :=
  if reset then p
  else
    let previous := security_factor p in
    let p := set_security_factor p slider in
    let ratio := (security_factor p - previous) / (previous + 100) in
    let EVmin := black_point_source p in
    let EVmin := EVmin + ratio * EVmin in
    let EVmax := white_point_source p in
    let EVmax := EVmax + ratio * EVmax in
    let p := set_white_point_source p EVmax in
    let p := set_black_point_source p EVmin in
    if truthy (auto_hardness p) then
      set_output_power p
        (logf (grey_point_target p / 100)
         / logf (- black_point_source p / (white_point_source p - black_point_source p)))
    else p.

Definition auto_hardness_callback (reset : bool) (active : Z)
    (p : dt_iop_filmicrgb_params_t) : dt_iop_filmicrgb_params_t :=
  if reset then p
  else
    let p := set_auto_hardness p active in
    if truthy (auto_hardness p) then
      set_output_power p
        (logf (grey_point_target p / 100)
         / logf (- black_point_source p / (white_point_source p - black_point_source p)))
    else p.

(** ** Vocabulary of the properties *)

(** Splits on every [Rmax] and [Rmin] of the goal and of the hypotheses. *)
Ltac case_max a b :=
  let H := fresh in
  assert (H : (Rmax a b = a /\ b <= a) \/ (Rmax a b = b /\ a <= b))
    by (unfold Rmax; destruct (Rle_dec a b); [right|left]; split; lra);
  destruct H as [[H ?]|[H ?]]; rewrite H in *; clear H.

Ltac case_min a b :=
  let H := fresh in
  assert (H : (Rmin a b = a /\ a <= b) \/ (Rmin a b = b /\ b <= a))
    by (unfold Rmin; destruct (Rle_dec a b); [left|right]; split; lra);
  destruct H as [[H ?]|[H ?]]; rewrite H in *; clear H.

Ltac case_minmax :=
  repeat match goal with
  | |- context [Rmax ?a ?b] => case_max a b
  | |- context [Rmin ?a ?b] => case_min a b
  | _ : context [Rmax ?a ?b] |- _ => case_max a b
  | _ : context [Rmin ?a ?b] |- _ => case_min a b
  end.

(** The tap [jj] of the filter dilated by [mult] around position [j] of a
    line of [size] samples, the line being continued by its end samples. *)
Definition edge_tap (mult jj j size : nat) : nat :=
  Z.to_nat (Z.max 0 (Z.min (Z.of_nat size - 1)
                       (Z.of_nat j + (Z.of_nat jj - 2) * Z.of_nat mult))).

(** The B-spline weighted sum of five samples. *)
Definition bspline_sum (sample : nat -> R) : R :=
  fold_left (fun acc jj => acc + filter jj * sample jj) (seq 0 fsize) 0.

(** The polynomial of segment [s] of a spline (0 the toe, 1 the shoulder,
    2 the latitude) as [filmic_spline] evaluates it, and its first two
    derivatives. *)
Definition segment (spline : dt_iop_filmic_rgb_spline_t) (s : nat) (x : R) : R :=
  M1 spline s + x * (M2 spline s + x * (M3 spline s + x * (M4 spline s + x * M5 spline s))).

Definition segment_slope (spline : dt_iop_filmic_rgb_spline_t) (s : nat) (x : R) : R :=
  M2 spline s + x * (2 * M3 spline s + x * (3 * M4 spline s + x * (4 * M5 spline s))).

Definition segment_curvature (spline : dt_iop_filmic_rgb_spline_t) (s : nat) (x : R) : R :=
  2 * M3 spline s + x * (6 * M4 spline s + x * (12 * M5 spline s)).

(** The systems [solve_toe] and [solve_shoulder] hand to [gauss_solve]
    (lines 2074-2153): matrix in row-major order, right-hand side, order. *)
Definition toe_system (x y : buffer) (slope : R) (shadows : dt_iop_filmicrgb_curve_type_t)
    : list R * list R * nat :=
  let Tl := x 1%nat in
  let Tl2 := Tl * Tl in
  let Tl3 := Tl2 * Tl in
  let Tl4 := Tl3 * Tl in
  match shadows with
  | DT_FILMIC_CURVE_POLY_4 =>
      ([0;         0;        0;      0;  1;
        0;         0;        0;      1;  0;
        Tl4;       Tl3;      Tl2;    Tl; 1;
        4 * Tl3;   3 * Tl2;  2 * Tl; 1;  0;
        12 * Tl2;  6 * Tl;   2;      0;  0],
       [y 0%nat; 0; y 1%nat; slope; 0], ORDER_4)
  | DT_FILMIC_CURVE_POLY_3 =>
      ([0;        0;       0;   1;
        Tl3;      Tl2;     Tl;  1;
        3 * Tl2;  2 * Tl;  1;   0;
        6 * Tl;   2;       0;   0],
       [y 0%nat; y 1%nat; slope; 0], ORDER_3)
  end.

Definition shoulder_system (x y : buffer) (slope : R)
    (highlights : dt_iop_filmicrgb_curve_type_t) : list R * list R * nat :=
  let Sl := x 3%nat in
  let Sl2 := Sl * Sl in
  let Sl3 := Sl2 * Sl in
  let Sl4 := Sl3 * Sl in
  match highlights with
  | DT_FILMIC_CURVE_POLY_3 =>
      ([1;        1;       1;   1;
        Sl3;      Sl2;     Sl;  1;
        3 * Sl2;  2 * Sl;  1;   0;
        6 * Sl;   2;       0;   0],
       [y 4%nat; y 3%nat; slope; 0], ORDER_3)
  | DT_FILMIC_CURVE_POLY_4 =>
      ([1;         1;        1;      1;  1;
        4;         3;        2;      1;  0;
        Sl4;       Sl3;      Sl2;    Sl; 1;
        4 * Sl3;   3 * Sl2;  2 * Sl; 1;  0;
        12 * Sl2;  6 * Sl;   2;      0;  0],
       [y 4%nat; 0; y 3%nat; slope; 0], ORDER_4)
  end.

(** The product of the [n] x [n] matrix [A], in row-major order, with [v]. *)
Fixpoint mat_vec_rows (rows n : nat) (A v : list R) : list R :=
  match rows with
  | O => []
  | S r => dot (firstn n A) v :: mat_vec_rows r n (skipn n A) v
  end.

Definition mat_vec (A v : list R) (n : nat) : list R := mat_vec_rows n n A v.

(** [gauss_solve] returned a solution of the system. *)
Definition solved (system : list R * list R * nat) : Prop :=
  let '(A, b, n) := system in mat_vec A (gauss_solve A b n) n = b.

(** *** Further inputs *)

(** A region of three pixels, and one without width. *)
Definition small_roi : dt_iop_roi_t := {| roi_width := 3; roi_height := 1; roi_scale := 1 |}.

Definition empty_roi : dt_iop_roi_t := {| roi_width := 0; roi_height := 1; roi_scale := 1 |}.

(** Everything is allocated but [reconstructed]. *)
Definition reconstruction_refused : process_alloc :=
  {| alloc_mask := Some zero_buffer; alloc_reconstructed := None;
     alloc_pass1 := scratch_allocated;
     alloc_norms := Some zero_buffer; alloc_ratios := Some zero_buffer;
     alloc_pass2 := scratch_allocated |}.

(** Everything is allocated but [ratios]. *)
Definition ratios_refused : process_alloc :=
  {| alloc_mask := Some zero_buffer; alloc_reconstructed := Some zero_buffer;
     alloc_pass1 := scratch_allocated;
     alloc_norms := Some zero_buffer; alloc_ratios := None;
     alloc_pass2 := scratch_allocated |}.

(** An edit saved by version 1 of the module. *)
Definition old_edit : dt_iop_filmicrgb_params_v1_t :=
  {| v1_grey_point_source := 25; v1_black_point_source := -12; v1_white_point_source := 4;
     v1_security_factor := 0; v1_grey_point_target := 50; v1_black_point_target := 0;
     v1_white_point_target := 100; v1_output_power := 1; v1_latitude := 50;
     v1_contrast := 0.75; v1_saturation := 0; v1_balance := 0;
     v1_preserve_color := DT_FILMIC_METHOD_MAX_RGB |}.

(** Three picked colours: a grey of 20 %, a black and a white patch. *)
Definition picked_grey : rgb := (0.4, 0.4, 0.4).
Definition picked_black : rgb := (0.001, 0.001, 0.001).
Definition picked_white : rgb := (4, 4, 4).

(** Settings within the ranges of the sliders with third-order ends and no
    balance: the nodes of the curve are (0, 0), (3/8, 7/32), (3/4, 1/2),
    (7/8, 19/32) and (1, 1). *)
Definition cubic_params : dt_iop_filmicrgb_params_t :=
  {| grey_point_source := 25; black_point_source := -12; white_point_source := 4;
     reconstruct_threshold := 0; reconstruct_feather := 3;
     reconstruct_bloom_vs_details := 100; reconstruct_grey_vs_color := 0;
     reconstruct_structure_vs_texture := 50; security_factor := 0;
     grey_point_target := 50; black_point_target := 0; white_point_target := 100;
     output_power := 1; latitude := 50; contrast := 0.75; saturation := 0;
     balance := 0; preserve_color := DT_FILMIC_METHOD_MAX_RGB;
     version := DT_FILMIC_COLORSCIENCE_V2; auto_hardness := 1; custom_grey := 1;
     high_quality_reconstruction := 0;
     shadows := DT_FILMIC_CURVE_POLY_3; highlights := DT_FILMIC_CURVE_POLY_3 |}.




(** * Properties *)

(** ** Stores and pixel loops *)

Lemma store_eq (b : buffer) (k : nat) (v : R) : store b k v k = v.
Proof. unfold store. now rewrite Nat.eqb_refl. Qed.

Lemma store_neq (b : buffer) (k k' : nat) (v : R) : k' <> k -> store b k v k' = b k'.
Proof. intros H. unfold store. apply Nat.eqb_neq in H. now rewrite H. Qed.

Lemma pixel_offsets_4 (width height : nat) :
  pixel_offsets width height 4 = map (fun i => (i * 4)%nat) (seq 0 (height * width)).
Proof. reflexivity. Qed.

(** A loop that stores, for each pixel, a value in each colour channel
    computed from the old value of that very cell: the cell [j] ends up
    with that value if it is a colour channel of a visited pixel, and is
    left alone otherwise. *)
Lemma pixel_loop_inplace (h : nat -> nat -> R -> R) (n : nat) (out : buffer) (j : nat) :
  fold_left (fun o k =>
      fold_left (fun o c => store o (k + c)%nat (h k c (o (k + c)%nat))) (seq 0 3) o)
    (map (fun i => (i * 4)%nat) (seq 0 n)) out j
  = if ((j / 4 <? n)%nat && (j mod 4 <? 3)%nat)%bool
    then h (j / 4 * 4)%nat (j mod 4) (out j) else out j.
Proof.
  induction n as [|n IH].
  - cbn [seq map fold_left]. now destruct (j mod 4 <? 3)%nat.
  - rewrite (seq_S n 0), map_app, fold_left_app. cbn [map fold_left seq Nat.add].
    set (o := fold_left _ _ out) in *.
    pose proof (Nat.div_mod_eq j 4) as E.
    pose proof (Nat.mod_upper_bound j 4 ltac:(lia)) as U.
    destruct (Nat.eq_dec (j / 4) n) as [Hp|Hp].
    + assert (Hlt : (j / 4 <? n)%nat = false) by (apply Nat.ltb_ge; lia).
      rewrite Hlt in IH. cbn [andb] in IH.
      assert (Hlt' : (j / 4 <? S n)%nat = true) by (apply Nat.ltb_lt; lia).
      rewrite Hlt'. cbn [andb].
      destruct (j mod 4 <? 3)%nat eqn:Hc.
      * apply Nat.ltb_lt in Hc.
        assert (Hj : (j = n * 4 + j mod 4)%nat) by lia.
        rewrite Hp.
        destruct (j mod 4) as [|[|[|m]]] eqn:Hm; try lia; rewrite Hj;
          repeat first [ rewrite store_eq | rewrite store_neq by lia ];
          rewrite <- Hj, IH; reflexivity.
      * apply Nat.ltb_ge in Hc.
        repeat rewrite store_neq by lia. exact IH.
    + repeat rewrite store_neq by lia.
      rewrite IH.
      replace (j / 4 <? S n)%nat with (j / 4 <? n)%nat; [reflexivity|].
      destruct (j / 4 <? n)%nat eqn:H1; symmetry;
        [apply Nat.ltb_lt in H1; apply Nat.ltb_lt | apply Nat.ltb_ge in H1; apply Nat.ltb_ge]; lia.
Qed.

Lemma pixel_loop_rgb (g : nat -> rgb) (n : nat) (out : buffer) (j : nat) :
  fold_left (fun o k => store_rgb o k (g k)) (map (fun i => (i * 4)%nat) (seq 0 n)) out j
  = if ((j / 4 <? n)%nat && (j mod 4 <? 3)%nat)%bool
    then chan (g (j / 4 * 4)%nat) (j mod 4) else out j.
Proof.
  induction n as [|n IH].
  - cbn [seq map fold_left]. now destruct (j mod 4 <? 3)%nat.
  - rewrite (seq_S n 0), map_app, fold_left_app. cbn [map fold_left seq Nat.add].
    set (o := fold_left _ _ out) in *. unfold store_rgb.
    pose proof (Nat.div_mod_eq j 4) as E.
    pose proof (Nat.mod_upper_bound j 4 ltac:(lia)) as U.
    destruct (Nat.eq_dec (j / 4) n) as [Hp|Hp].
    + assert (Hlt' : (j / 4 <? S n)%nat = true) by (apply Nat.ltb_lt; lia).
      assert (Hlt : (j / 4 <? n)%nat = false) by (apply Nat.ltb_ge; lia).
      rewrite Hlt in IH. rewrite Hlt'. cbn [andb] in *.
      destruct (j mod 4 <? 3)%nat eqn:Hc.
      * apply Nat.ltb_lt in Hc. rewrite Hp.
        destruct (j mod 4) as [|[|[|m]]] eqn:Hm; try lia.
        -- replace j with (n * 4)%nat by lia.
           rewrite !store_neq by lia. now rewrite store_eq.
        -- replace j with (n * 4 + 1)%nat by lia.
           rewrite store_neq by lia. now rewrite store_eq.
        -- replace j with (n * 4 + 2)%nat by lia. now rewrite store_eq.
      * apply Nat.ltb_ge in Hc. rewrite !store_neq by lia. exact IH.
    + rewrite !store_neq by lia. rewrite IH.
      replace (j / 4 <? S n)%nat with (j / 4 <? n)%nat; [reflexivity|].
      destruct (j / 4 <? n)%nat eqn:H1; symmetry;
        [apply Nat.ltb_lt in H1; apply Nat.ltb_lt | apply Nat.ltb_ge in H1; apply Nat.ltb_ge]; lia.
Qed.

(** A loop over every cell [k < m] that stores a value computed from other
    buffers. *)
Lemma cell_loop (v : nat -> R) (m : nat) (out : buffer) (j : nat) :
  fold_left (fun o k => store o k (v k)) (seq 0 m) out j
  = if (j <? m)%nat then v j else out j.
Proof.
  induction m as [|m IH].
  - reflexivity.
  - rewrite seq_S, fold_left_app. cbn [fold_left Nat.add].
    destruct (Nat.eq_dec j m) as [->|Hj].
    + rewrite store_eq.
      now replace (m <? S m)%nat with true by (symmetry; apply Nat.ltb_lt; lia).
    + rewrite store_neq by exact Hj. rewrite IH.
      destruct (j <? m)%nat eqn:H1.
      * apply Nat.ltb_lt in H1.
        now replace (j <? S m)%nat with true by (symmetry; apply Nat.ltb_lt; lia).
      * apply Nat.ltb_ge in H1.
        now replace (j <? S m)%nat with false by (symmetry; apply Nat.ltb_ge; lia).
Qed.

(** ** Scalar facts *)

Lemma clamp_simd_range (x : R) : 0 <= clamp_simd x <= 1.
Proof.
  unfold clamp_simd, fminf, fmaxf, Rmin, Rmax.
  repeat destruct (Rle_dec _ _); lra.
Qed.

Lemma clamp_simd_spec (x : R) : clamp_simd x = spec_clamp x 0 1.
Proof.
  unfold clamp_simd, spec_clamp, fminf, fmaxf, Rmin, Rmax.
  repeat destruct (Rle_dec _ _); repeat destruct (Rlt_dec _ _); lra.
Qed.

Lemma noise_floor_pos : 0 < noise_floor < 1.
Proof. unfold noise_floor. lra. Qed.

Lemma Rpower_pos (x y : R) : 0 < Rpower x y.
Proof. unfold Rpower. apply exp_pos. Qed.


Lemma powf_nonneg_base (x y : R) : 0 <= x -> 0 <= powf x y.
Proof.
  intros Hx. unfold powf.
  destruct (Req_EM_T x 0).
  - destruct (Req_EM_T y 0); lra.
  - destruct (Rlt_dec 0 x); [left; apply Rpower_pos | lra].
Qed.

(** ** C2: the log encoders *)

(** C2.  Both log encoders compute [(log2 (x / grey) - black) / dynamic_range]
    and clamp it: [log_tonemapping_v1] to [[1.52587890625e-05, 1]] (a small
    positive floor, [2^-16]), [log_tonemapping_v2] to [[0, 1]]; this for
    every [x], grey point, black point and dynamic range. *)
Theorem C2_log_encoders_clamp (x grey black dynamic_range : R) :
  let encoded := spec_encoded x grey black dynamic_range in
  (log_tonemapping_v1 x grey black dynamic_range = spec_clamp encoded 1.52587890625e-05 1
   /\ 1.52587890625e-05 <= log_tonemapping_v1 x grey black dynamic_range <= 1)
  /\ (log_tonemapping_v2 x grey black dynamic_range = spec_clamp encoded 0 1
      /\ 0 <= log_tonemapping_v2 x grey black dynamic_range <= 1)
  /\ 0 < 1.52587890625e-05 < 1.6e-5.
Proof.
  intros encoded.
  unfold log_tonemapping_v1, log_tonemapping_v2, log2f, noise_floor.
  fold (spec_encoded x grey black dynamic_range). fold encoded.
  repeat split; try lra.
  - unfold spec_clamp, fminf, fmaxf, Rmin, Rmax.
    repeat destruct (Rle_dec _ _); repeat destruct (Rlt_dec _ _); lra.
  - unfold fminf, fmaxf, Rmin, Rmax. repeat destruct (Rle_dec _ _); lra.
  - unfold fminf, fmaxf, Rmin, Rmax. repeat destruct (Rle_dec _ _); lra.
  - apply clamp_simd_spec.
  - apply clamp_simd_range.
  - apply clamp_simd_range.
Qed.

(** ** C7: the contrast committed by [commit_params] *)

Lemma commit_contrast_eq (p : dt_iop_filmicrgb_params_t) (d : dt_iop_filmicrgb_data_t) :
  d_contrast (commit_params p d)
  = if Rlt_dec (contrast p) (commit_grey_display p / commit_grey_log p)
    then 1.0001 * commit_grey_display p / commit_grey_log p
    else contrast p.
Proof.
  unfold commit_params, commit_grey_display, commit_grey_log.
  destruct (truthy (custom_grey p)); reflexivity.
Qed.

Lemma commit_grey_ratio_nonneg (p : dt_iop_filmicrgb_params_t) :
  black_point_source p < white_point_source p ->
  0 <= grey_point_target p ->
  0 <= commit_grey_display p / commit_grey_log p.
Proof.
  intros Hdr Hgrey.
  assert (Hd : 0 <= commit_grey_display p).
  { unfold commit_grey_display.
    destruct (truthy (custom_grey p)); apply powf_nonneg_base; lra. }
  assert (Hl : 0 <= commit_grey_log p).
  { unfold commit_grey_log, fabsf.
    apply Rmult_le_pos; [apply Rabs_pos|]. left. apply Rinv_0_lt_compat. lra. }
  destruct (Req_dec (commit_grey_log p) 0) as [E|E].
  - rewrite E. unfold Rdiv. rewrite Rinv_0. lra.
  - apply Rmult_le_pos; [exact Hd|]. left. apply Rinv_0_lt_compat. lra.
Qed.

(** C7.  For every parameter set (source black below source white, grey
    target not negative), [commit_params] enforces the contrast invariant:
    when the user's contrast is below [grey_display / grey_log] the committed
    contrast is [1.0001 * grey_display / grey_log], otherwise it is the
    user's; in both cases the committed contrast is at least
    [grey_display / grey_log]. *)
Theorem C7_commit_contrast_invariant
    (p : dt_iop_filmicrgb_params_t) (d : dt_iop_filmicrgb_data_t) :
  black_point_source p < white_point_source p ->
  0 <= grey_point_target p ->
  let bound := commit_grey_display p / commit_grey_log p in
  (contrast p < bound -> d_contrast (commit_params p d) = 1.0001 * bound)
  /\ (bound <= contrast p -> d_contrast (commit_params p d) = contrast p)
  /\ bound <= d_contrast (commit_params p d).
Proof.
  intros Hdr Hgrey bound.
  pose proof (commit_grey_ratio_nonneg p Hdr Hgrey) as Hb. fold bound in Hb.
  rewrite commit_contrast_eq. fold bound.
  replace (1.0001 * commit_grey_display p / commit_grey_log p) with (1.0001 * bound)
    by (unfold bound, Rdiv; ring).
  destruct (Rlt_dec (contrast p) bound); repeat split; intros; lra.
Qed.

(** ** C3: the clip mask *)

Lemma int_wrap_small (z : Z) : (- 2 ^ 31 <= z < 2 ^ 31)%Z -> int_wrap z = z.
Proof. intros H. unfold int_wrap. rewrite Z.mod_small; lia. Qed.

Lemma spec_weight_range (a : R) : 0 <= spec_weight a <= 1.
Proof.
  unfold spec_weight. pose proof (Rpower_pos 2 a) as Hp.
  split.
  - apply Rlt_le, Rdiv_lt_0_compat; lra.
  - apply Rmult_le_reg_r with (1 + Rpower 2 a); [lra|].
    unfold Rdiv. rewrite Rmult_assoc, Rinv_l by lra. lra.
Qed.

Lemma spec_clipped_S (in_ : buffer) (feather threshold : R) (n : nat) :
  spec_clipped in_ feather threshold (S n)
  = (spec_clipped in_ feather threshold n
     + if Rlt_dec (spec_argument in_ feather threshold n) 4 then 1 else 0)%nat.
Proof.
  unfold spec_clipped. rewrite seq_S, filter_app, length_app. cbn [List.filter Nat.add].
  now destruct (Rlt_dec _ 4).
Qed.

Lemma spec_clipped_le (in_ : buffer) (feather threshold : R) (n : nat) :
  (spec_clipped in_ feather threshold n <= n)%nat.
Proof.
  induction n as [|n IH]; [reflexivity|].
  rewrite spec_clipped_S. destruct (Rlt_dec _ 4); lia.
Qed.

Lemma mask_clipped_step_argument (in_ : buffer) (feather threshold : R) (i : nat) :
  - sqrtf (sqf (in_ (i * 4)%nat) + sqf (in_ (i * 4 + 1)%nat) + sqf (in_ (i * 4 + 2)%nat))
    * (feather / threshold) + feather
  = spec_argument in_ feather threshold i.
Proof.
  unfold spec_argument, spec_pix_norm, sqrtf, sqf.
  replace (4 * i)%nat with (i * 4)%nat by lia. ring.
Qed.

Lemma mask_loop (in_ mask0 : buffer) (feather threshold : R) (n : nat) :
  let st := fold_left (mask_clipped_step in_ (feather / threshold) feather 4)
              (map (fun i => (i * 4)%nat) (seq 0 n)) (mask0, 0%Z) in
  (forall j, fst st j = if (j <? n)%nat
                        then spec_weight (spec_argument in_ feather threshold j)
                        else mask0 j)
  /\ ((Z.of_nat n < 2 ^ 31)%Z -> snd st = Z.of_nat (spec_clipped in_ feather threshold n)).
Proof.
  induction n as [|n [IHm IHc]]; cbn zeta.
  - split; [reflexivity|]. intros _. reflexivity.
  - rewrite seq_S, map_app, fold_left_app. cbn [map fold_left Nat.add].
    set (st := fold_left _ _ (mask0, 0%Z)) in *. cbn zeta in IHm, IHc.
    unfold mask_clipped_step at 1 2. cbn [fst snd].
    rewrite Nat.div_mul by lia. rewrite mask_clipped_step_argument.
    split.
    + intros j. destruct (Nat.eq_dec j n) as [->|Hj].
      * rewrite store_eq. unfold exp2f.
        now replace (n <? S n)%nat with true by (symmetry; apply Nat.ltb_lt; lia).
      * rewrite store_neq by exact Hj. rewrite IHm.
        destruct (j <? n)%nat eqn:H1.
        -- apply Nat.ltb_lt in H1.
           now replace (j <? S n)%nat with true by (symmetry; apply Nat.ltb_lt; lia).
        -- apply Nat.ltb_ge in H1.
           now replace (j <? S n)%nat with false by (symmetry; apply Nat.ltb_ge; lia).
    + intros Hn. rewrite IHc by lia. rewrite spec_clipped_S.
      pose proof (spec_clipped_le in_ feather threshold n) as Hle.
      destruct (Rgt_dec 4 _) as [Hg|Hg]; destruct (Rlt_dec _ 4) as [Hl|Hl];
        try (exfalso; unfold Rgt in *; lra);
        rewrite int_wrap_small; lia.
Qed.

(** What [mask_clipped_pixels] leaves in the mask and returns. *)
Lemma mask_clipped_pixels_cells (in_ mask0 : buffer) (feather threshold : R)
    (width height : nat) :
  let result := mask_clipped_pixels in_ mask0 (feather / threshold) feather width height 4 in
  (forall i, (i < height * width)%nat ->
     fst result i = spec_weight (spec_argument in_ feather threshold i))
  /\ ((Z.of_nat (height * width) < 2 ^ 31)%Z ->
      snd result = (Z.of_nat (spec_clipped in_ feather threshold (height * width)) >? 9)%Z).
Proof.
  intros result. unfold result, mask_clipped_pixels. rewrite pixel_offsets_4.
  destruct (mask_loop in_ mask0 feather threshold (height * width)) as [Hm Hc].
  cbn zeta in Hm, Hc. cbn [fst snd]. split.
  - intros i Hi. rewrite Hm.
    now replace (i <? height * width)%nat with true by (symmetry; apply Nat.ltb_lt; lia).
  - intros Hn. now rewrite Hc.
Qed.

(** C3.  For every pixel [i] of a region (of fewer than [2^31] pixels, the
    range of the [int] counter), [mask_clipped_pixels], called as [process]
    calls it with [normalize = feather / threshold], stores the weight
    [1 / (1 + 2^argument)] with
    [argument = feather - pix_norm * (feather / threshold)] and [pix_norm]
    the Euclidean norm; the weight lies in [[0, 1]]; the return value
    requests reconstruction exactly when at least 10 pixels have
    [argument < 4]; and without that request [process] hands its input to the
    tone mapper as it is. *)
Theorem C3_clip_mask (in_ mask0 : buffer) (feather threshold : R) (width height : nat) :
  (Z.of_nat (height * width) < 2 ^ 31)%Z ->
  let result := mask_clipped_pixels in_ mask0 (feather / threshold) feather width height 4 in
  (forall i, (i < height * width)%nat ->
     fst result i = spec_weight (spec_argument in_ feather threshold i)
     /\ 0 <= fst result i <= 1)
  /\ (snd result = true <-> (10 <= spec_clipped in_ feather threshold (height * width))%nat)
  /\ (forall data piece work_profile roi_in roi_out alloc,
        process_highlights in_ false (Some (fst result)) data piece work_profile
          roi_in roi_out alloc = (in_, [])).
Proof.
  intros Hn result.
  destruct (mask_clipped_pixels_cells in_ mask0 feather threshold width height) as [Hm Hc].
  cbn zeta in Hm, Hc. fold result in Hm, Hc. split; [|split].
  - intros i Hi. rewrite Hm by exact Hi.
    split; [reflexivity | apply spec_weight_range].
  - rewrite Hc by exact Hn. rewrite Z.gtb_ltb, Z.ltb_lt. lia.
  - intros data piece work_profile roi_in roi_out alloc. unfold process_highlights.
    now destruct (alloc_reconstructed alloc).
Qed.

(** ** C5: the ratio round trip *)

Lemma floor_noise_ge (x : R) : noise_floor <= floor_noise x.
Proof. unfold floor_noise. destruct (Rlt_dec x noise_floor); lra. Qed.

Lemma floor_noise_pos (x : R) : 0 < floor_noise x.
Proof. pose proof (floor_noise_ge x). pose proof noise_floor_pos. lra. Qed.

Lemma compute_ratios_loop (in_ norms0 ratios0 : buffer)
    (work_profile : option dt_iop_order_iccprofile_info_t) (variant : Z) (n : nat) :
  let st := fold_left (compute_ratios_step in_ work_profile variant 4)
              (map (fun i => (i * 4)%nat) (seq 0 n)) (norms0, ratios0) in
  let norm_of i := floor_noise (get_pixel_norm (pixel_at in_ (i * 4)%nat) variant work_profile) in
  (forall i, fst st i = if (i <? n)%nat then norm_of i else norms0 i)
  /\ (forall j, snd st j = if ((j / 4 <? n)%nat && (j mod 4 <? 3)%nat)%bool
                           then in_ j / norm_of (j / 4)%nat else ratios0 j).
Proof.
  induction n as [|n [IHn IHr]]; cbn zeta.
  - split; [reflexivity|]. intros j. cbn [seq map fold_left snd].
    now destruct (j mod 4 <? 3)%nat.
  - rewrite (seq_S n 0), map_app, fold_left_app. cbn [map fold_left Nat.add seq].
    set (st := fold_left _ _ (norms0, ratios0)) in *. cbn zeta in IHn, IHr.
    unfold compute_ratios_step at 1 2. cbn [fst snd fold_left seq].
    rewrite Nat.div_mul by lia.
    set (norm := floor_noise _).
    split.
    + intros i. destruct (Nat.eq_dec i n) as [->|Hi].
      * rewrite store_eq.
        now replace (n <? S n)%nat with true by (symmetry; apply Nat.ltb_lt; lia).
      * rewrite store_neq by exact Hi. rewrite IHn.
        destruct (i <? n)%nat eqn:H1.
        -- apply Nat.ltb_lt in H1.
           now replace (i <? S n)%nat with true by (symmetry; apply Nat.ltb_lt; lia).
        -- apply Nat.ltb_ge in H1.
           now replace (i <? S n)%nat with false by (symmetry; apply Nat.ltb_ge; lia).
    + intros j.
      pose proof (Nat.div_mod_eq j 4) as E.
      pose proof (Nat.mod_upper_bound j 4 ltac:(lia)) as U.
      destruct (Nat.eq_dec (j / 4) n) as [Hp|Hp].
      * assert (Hlt' : (j / 4 <? S n)%nat = true) by (apply Nat.ltb_lt; lia).
        assert (Hlt : (j / 4 <? n)%nat = false) by (apply Nat.ltb_ge; lia).
        specialize (IHr j). rewrite Hlt in IHr. rewrite Hlt'. cbn [andb] in *.
        destruct (j mod 4 <? 3)%nat eqn:Hc.
        -- apply Nat.ltb_lt in Hc. rewrite Hp. fold norm.
           assert (Hj : (j = n * 4 + j mod 4)%nat) by lia.
           destruct (j mod 4) as [|[|[|m]]] eqn:Hm; try lia; rewrite Hj;
             repeat first [ rewrite store_eq | rewrite store_neq by lia ]; reflexivity.
        -- apply Nat.ltb_ge in Hc. rewrite !store_neq by lia. exact IHr.
      * rewrite !store_neq by lia. rewrite IHr.
        replace (j / 4 <? S n)%nat with (j / 4 <? n)%nat; [reflexivity|].
        destruct (j / 4 <? n)%nat eqn:H1; symmetry;
          [apply Nat.ltb_lt in H1; apply Nat.ltb_lt | apply Nat.ltb_ge in H1; apply Nat.ltb_ge];
          lia.
Qed.

Lemma pixel_channel_index (i c : nat) :
  (c < 3)%nat -> ((4 * i + c) / 4 = i)%nat /\ ((4 * i + c) mod 4 = c)%nat.
Proof.
  intros Hc.
  pose proof (Nat.div_mod_eq (4 * i + c) 4) as E.
  pose proof (Nat.mod_upper_bound (4 * i + c) 4 ltac:(lia)) as U.
  assert ((4 * i + c) / 4 = i)%nat by nia. lia.
Qed.

(** C5.  For every pixel (in particular every pixel whose three channels are
    non-negative), [compute_ratios] stores the pixel norm floored at [2^-16]
    and each channel divided by that stored norm, and [restore_ratios], which
    multiplies each channel by the stored norm, gives back the original RGB
    triple (exactly, in real arithmetic). *)
Theorem C5_ratios_round_trip (in_ norms0 ratios0 : buffer)
    (work_profile : option dt_iop_order_iccprofile_info_t) (variant : Z)
    (width height : nat) (i c : nat) :
  (i < height * width)%nat -> (c < 3)%nat ->
  let result := compute_ratios in_ norms0 ratios0 work_profile variant width height 4 in
  let norm := get_pixel_norm (pixel_at in_ (4 * i)%nat) variant work_profile in
  fst result i = (if Rlt_dec norm 1.52587890625e-05 then 1.52587890625e-05 else norm)
  /\ snd result (4 * i + c)%nat = in_ (4 * i + c)%nat / fst result i
  /\ restore_ratios (snd result) (fst result) width height 4 (4 * i + c)%nat
     = in_ (4 * i + c)%nat.
Proof.
  intros Hi Hc result norm.
  destruct (compute_ratios_loop in_ norms0 ratios0 work_profile variant (height * width))
    as [Hn Hr]. cbn zeta in Hn, Hr.
  unfold result, compute_ratios. rewrite pixel_offsets_4.
  set (st := fold_left _ _ (norms0, ratios0)) in *.
  destruct (pixel_channel_index i c Hc) as [Hdiv Hmod].
  assert (Hlt : (i <? height * width)%nat = true) by (apply Nat.ltb_lt; lia).
  assert (Hlt3 : (c <? 3)%nat = true) by (apply Nat.ltb_lt; lia).
  assert (Hnorm : fst st i = floor_noise norm).
  { rewrite Hn, Hlt. unfold norm. now replace (i * 4)%nat with (4 * i)%nat by lia. }
  assert (Hratio : snd st (4 * i + c)%nat = in_ (4 * i + c)%nat / fst st i).
  { rewrite Hr, Hdiv, Hmod, Hlt, Hlt3. cbn [andb]. now rewrite Hn, Hlt. }
  split; [exact Hnorm|]. split; [exact Hratio|].
  unfold restore_ratios. rewrite pixel_offsets_4.
  rewrite (pixel_loop_inplace (fun k c v => v * fst st (k / 4)%nat)).
  rewrite Hdiv, Hmod, Hlt, Hlt3. cbn [andb].
  rewrite Nat.div_mul by lia. rewrite Hratio, Hnorm.
  pose proof (floor_noise_pos norm). field. lra.
Qed.

(** ** C6 and C4: the wavelet synthesis *)

Lemma chan_pixel_at (b : buffer) (k c : nat) :
  (c < 3)%nat -> chan (pixel_at b k) c = b (k + c)%nat.
Proof.
  intros Hc. unfold chan, pixel_at.
  destruct c as [|[|[|c]]]; try lia; try reflexivity.
  now rewrite Nat.add_0_r.
Qed.

Lemma wavelets_reconstruct_RGB_cell (HF LF texture mask reconstructed : buffer)
    (width height : nat) (gamma gamma_comp beta beta_comp delta : R) (s scales : nat)
    (j : nat) :
  wavelets_reconstruct_RGB HF LF texture mask reconstructed width height 4
    gamma gamma_comp beta beta_comp delta s scales j
  = if ((j / 4 <? height * width)%nat && (j mod 4 <? 3)%nat)%bool
    then reconstructed j
         + synthesis_term Rmin HF LF texture mask gamma gamma_comp beta beta_comp delta scales
             (j / 4 * 4)%nat (j mod 4)
    else reconstructed j.
Proof.
  unfold wavelets_reconstruct_RGB. rewrite pixel_offsets_4.
  rewrite (pixel_loop_inplace (fun k c v =>
    v + mask (k / 4)%nat
        * (delta * (beta_comp
                    * (gamma_comp * fmaxabsf (fmaxabsf (chan (pixel_at HF k) 0)
                                                (chan (pixel_at HF k) 1))
                                      (chan (pixel_at HF k) 2)
                       + gamma * texture (k / 4)%nat)
                    + chan (pixel_at HF k) c * beta * gamma_comp)
           + (beta_comp * fminf (fminf (chan (pixel_at LF k) 0) (chan (pixel_at LF k) 1))
                            (chan (pixel_at LF k) 2)
              + chan (pixel_at LF k) c * beta) / INR scales))).
  destruct ((j / 4 <? height * width)%nat && (j mod 4 <? 3)%nat)%bool eqn:Hb; [|reflexivity].
  apply andb_prop in Hb. destruct Hb as [_ Hc]. apply Nat.ltb_lt in Hc.
  unfold synthesis_term, fminf. rewrite !chan_pixel_at by lia.
  now rewrite !Nat.add_0_r.
Qed.

Lemma wavelets_reconstruct_ratios_cell (HF LF texture mask reconstructed : buffer)
    (width height : nat) (gamma gamma_comp beta beta_comp delta : R) (s scales : nat)
    (j : nat) :
  wavelets_reconstruct_ratios HF LF texture mask reconstructed width height 4
    gamma gamma_comp beta beta_comp delta s scales j
  = if ((j / 4 <? height * width)%nat && (j mod 4 <? 3)%nat)%bool
    then reconstructed j
         + synthesis_term Rmax HF LF texture mask gamma gamma_comp beta beta_comp delta scales
             (j / 4 * 4)%nat (j mod 4)
    else reconstructed j.
Proof.
  unfold wavelets_reconstruct_ratios. rewrite pixel_offsets_4.
  rewrite (pixel_loop_inplace (fun k c v =>
    v + mask (k / 4)%nat
        * (delta * (beta_comp
                    * (gamma_comp * fmaxabsf (fmaxabsf (chan (pixel_at HF k) 0)
                                                (chan (pixel_at HF k) 1))
                                      (chan (pixel_at HF k) 2)
                       + gamma * texture (k / 4)%nat)
                    + chan (pixel_at HF k) c * beta * gamma_comp)
           + (beta_comp * fmaxf (fmaxf (chan (pixel_at LF k) 0) (chan (pixel_at LF k) 1))
                            (chan (pixel_at LF k) 2)
              + chan (pixel_at LF k) c * beta) / INR scales))).
  destruct ((j / 4 <? height * width)%nat && (j mod 4 <? 3)%nat)%bool eqn:Hb; [|reflexivity].
  apply andb_prop in Hb. destruct Hb as [_ Hc]. apply Nat.ltb_lt in Hc.
  unfold synthesis_term, fmaxf. rewrite !chan_pixel_at by lia.
  now rewrite !Nat.add_0_r.
Qed.

(** C6, as the code has it.  For every pixel and colour channel, the
    ratio-domain pass ([wavelets_reconstruct_ratios], variant 1) combines the
    three low-frequency channels of the residual term with max, where the
    RGB-domain pass ([wavelets_reconstruct_RGB], variant 0) combines them
    with min; the two passes are otherwise the same accumulation. *)
Theorem C6_residual_max_in_ratios_min_in_RGB
    (HF LF texture mask reconstructed : buffer) (width height : nat)
    (gamma gamma_comp beta beta_comp delta : R) (s scales : nat) (i c : nat) :
  (i < height * width)%nat -> (c < 3)%nat ->
  wavelets_reconstruct_ratios HF LF texture mask reconstructed width height 4
    gamma gamma_comp beta beta_comp delta s scales (4 * i + c)%nat
  = reconstructed (4 * i + c)%nat
    + synthesis_term Rmax HF LF texture mask gamma gamma_comp beta beta_comp delta scales
        (4 * i)%nat c
  /\ wavelets_reconstruct_RGB HF LF texture mask reconstructed width height 4
       gamma gamma_comp beta beta_comp delta s scales (4 * i + c)%nat
     = reconstructed (4 * i + c)%nat
       + synthesis_term Rmin HF LF texture mask gamma gamma_comp beta beta_comp delta scales
           (4 * i)%nat c.
Proof.
  intros Hi Hc.
  rewrite wavelets_reconstruct_ratios_cell, wavelets_reconstruct_RGB_cell.
  destruct (pixel_channel_index i c Hc) as [Hdiv Hmod]. rewrite Hdiv, Hmod.
  replace (i <? height * width)%nat with true by (symmetry; apply Nat.ltb_lt; lia).
  replace (c <? 3)%nat with true by (symmetry; apply Nat.ltb_lt; lia).
  cbn [andb]. now replace (i * 4)%nat with (4 * i)%nat by lia.
Qed.

Lemma init_reconstruct_cell (in_ mask reconstructed : buffer) (width height : nat) (j : nat) :
  init_reconstruct in_ mask reconstructed width height 4 j
  = if (j <? height * width * 4)%nat then in_ j * (1 - mask (j / 4)%nat) else reconstructed j.
Proof.
  unfold init_reconstruct.
  now rewrite (cell_loop (fun k => in_ k * (1 - mask (k / 4)%nat))).
Qed.

Lemma synthesis_term_unmasked (combine : R -> R -> R) (HF LF texture mask : buffer)
    (gamma gamma_comp beta beta_comp delta : R) (scales : nat) (k c : nat) :
  mask (k / 4)%nat = 0 ->
  synthesis_term combine HF LF texture mask gamma gamma_comp beta beta_comp delta scales k c = 0.
Proof. intros H. unfold synthesis_term. rewrite H. ring. Qed.

(** With a mask that is zero on every pixel, one scale leaves the
    accumulator as it found it, whatever the variant. *)
Lemma reconstruct_scale_unmasked (in_ mask : buffer) (variant : Z)
    (data : dt_iop_filmicrgb_data_t) (width height scales : nat) (w : wavelets) (s : nat) :
  (forall i, (i < height * width)%nat -> mask i = 0) ->
  forall j, accumulator (reconstruct_scale in_ mask variant data width height scales w s) j
            = accumulator w j.
Proof.
  intros Hmask j. unfold reconstruct_scale.
  destruct (variant =? 0)%Z.
  - destruct (wavelets_detail_level_RGB _ _ _ _ _ _ _) as [HF1 grey1]. cbn [accumulator].
    rewrite wavelets_reconstruct_RGB_cell.
    destruct (j / 4 <? height * width)%nat eqn:Hp; [|reflexivity].
    destruct (j mod 4 <? 3)%nat; [|reflexivity]. cbn [andb].
    apply Nat.ltb_lt in Hp.
    rewrite synthesis_term_unmasked; [ring|].
    rewrite Nat.div_mul by lia. now apply Hmask.
  - destruct (variant =? 1)%Z.
    + destruct (wavelets_detail_level_ratios _ _ _ _ _ _ _) as [HF1 grey1]. cbn [accumulator].
      rewrite wavelets_reconstruct_ratios_cell.
      destruct (j / 4 <? height * width)%nat eqn:Hp; [|reflexivity].
      destruct (j mod 4 <? 3)%nat; [|reflexivity]. cbn [andb].
      apply Nat.ltb_lt in Hp.
      rewrite synthesis_term_unmasked; [ring|].
      rewrite Nat.div_mul by lia. now apply Hmask.
    + reflexivity.
Qed.

Lemma reconstruct_scales_unmasked (in_ mask : buffer) (variant : Z)
    (data : dt_iop_filmicrgb_data_t) (width height scales : nat) (l : list nat) :
  (forall i, (i < height * width)%nat -> mask i = 0) ->
  forall (w : wavelets) (j : nat),
    accumulator (fold_left (reconstruct_scale in_ mask variant data width height scales) l w) j
    = accumulator w j.
Proof.
  intros Hmask. induction l as [|s l IH]; intros w j; [reflexivity|].
  cbn [fold_left]. rewrite IH. now apply reconstruct_scale_unmasked.
Qed.

(** C4.  If all mask values are exactly 0, then for every input buffer, every
    variant and every number of scales the accumulator of the wavelet
    reconstruction equals the input buffer: [init_reconstruct] sets it to
    [input * (1 - 0) = input], every per-scale accumulation is scaled by the
    mask value 0, and so [reconstruct_highlights] succeeds (its scratch
    buffers allocated) with the input as its result. *)
Theorem C4_reconstruction_is_noop_without_clipping
    (in_ mask reconstructed : buffer) (variant : Z) (data : dt_iop_filmicrgb_data_t)
    (piece : dt_dev_pixelpipe_iop_t) (roi_in roi_out : dt_iop_roi_t)
    (LF_even0 LF_odd0 HF_RGB0 HF_grey0 temp0 : buffer) :
  let width := Z.to_nat (roi_width roi_out) in
  let height := Z.to_nat (roi_height roi_out) in
  (forall i, (i < height * width)%nat -> mask i = 0) ->
  (forall k, (k < height * width * 4)%nat ->
     init_reconstruct in_ mask reconstructed width height 4 k = in_ k)
  /\ (forall (scales : nat) (w : wavelets) (k : nat),
        accumulator (fold_left (reconstruct_scale in_ mask variant data width height scales)
                       (seq 0 scales) w) k
        = accumulator w k)
  /\ (let result :=
        reconstruct_highlights in_ mask reconstructed variant data piece roi_in roi_out
          (mk_scratch (Some LF_even0) (Some LF_odd0) (Some HF_RGB0) (Some HF_grey0)
             (Some temp0)) in
      fst (fst result) = true
      /\ forall k, (k < height * width * 4)%nat -> snd (fst result) k = in_ k).
Proof.
  intros width height Hmask.
  assert (Hinit : forall k, (k < height * width * 4)%nat ->
            init_reconstruct in_ mask reconstructed width height 4 k = in_ k).
  { intros k Hk. rewrite init_reconstruct_cell.
    replace (k <? height * width * 4)%nat with true by (symmetry; apply Nat.ltb_lt; lia).
    rewrite Hmask; [ring|].
    apply Nat.Div0.div_lt_upper_bound. lia. }
  split; [exact Hinit|]. split.
  - intros scales w k. now apply reconstruct_scales_unmasked.
  - unfold reconstruct_highlights. cbn [alloc_LF_even alloc_LF_odd alloc_HF_RGB alloc_HF_grey
                                         alloc_temp fst snd].
    split; [reflexivity|]. intros k Hk.
    fold width height. rewrite reconstruct_scales_unmasked by exact Hmask.
    cbn [accumulator]. now apply Hinit.
Qed.

(** ** C10 and C9: the tone-mapping kernels *)





Lemma chan_le_max (p : rgb) (c : nat) :
  chan p c <= fmaxf (fmaxf (chan p 0) (chan p 1)) (chan p 2).
Proof.
  destruct p as [[r g] b]. unfold fmaxf.
  pose proof (Rmax_l r g). pose proof (Rmax_r r g).
  pose proof (Rmax_l (Rmax r g) b). pose proof (Rmax_r (Rmax r g) b).
  destruct c as [|[|c]]; cbn [chan]; lra.
Qed.



(** A kernel that stores three colour channels per pixel leaves every
    fourth cell alone. *)
Lemma pixel_loop_rgb_alpha (g : nat -> rgb) (width height : nat) (out : buffer) (j : nat) :
  (j mod 4 = 3)%nat ->
  fold_left (fun o k => store_rgb o k (g k)) (pixel_offsets width height 4) out j = out j.
Proof.
  intros Hj. rewrite pixel_offsets_4, pixel_loop_rgb, Hj.
  now rewrite andb_false_r.
Qed.

Lemma process_tonemap_alpha (in_ out : buffer)
    (work_profile : option dt_iop_order_iccprofile_info_t)
    (data : dt_iop_filmicrgb_data_t) (roi_in roi_out : dt_iop_roi_t) (j : nat) :
  (j mod 4 = 3)%nat ->
  process_tonemap in_ out work_profile data roi_in roi_out j = out j.
Proof.
  intros Hj. unfold process_tonemap.
  unfold filmic_split_v1, filmic_split_v2, filmic_chroma_v1, filmic_chroma_v2.
  repeat match goal with
         | |- context [if ?b then _ else _] => destruct b
         end;
    first [ reflexivity | now apply pixel_loop_rgb_alpha ].
Qed.

Lemma dt_iop_alpha_copy_cell (ivoid ovoid : buffer) (width height : nat) (j : nat) :
  dt_iop_alpha_copy ivoid ovoid width height j
  = if ((j / 4 <? height * width)%nat && (j mod 4 =? 3)%nat)%bool then ivoid j else ovoid j.
Proof.
  unfold dt_iop_alpha_copy. rewrite pixel_offsets_4.
  induction (height * width)%nat as [|n IH].
  - cbn [seq map fold_left]. now destruct (j mod 4 =? 3)%nat.
  - rewrite seq_S, map_app, fold_left_app. cbn [map fold_left Nat.add].
    set (o := fold_left _ _ ovoid) in *.
    pose proof (Nat.div_mod_eq j 4) as E.
    pose proof (Nat.mod_upper_bound j 4 ltac:(lia)) as U.
    destruct (Nat.eq_dec j (n * 4 + 3)) as [Hj|Hj].
    + rewrite Hj at 1. rewrite store_eq.
      assert (Hd : (j / 4 = n)%nat) by nia.
      assert (Hm : (j mod 4 = 3)%nat) by lia.
      rewrite Hd, Hm. rewrite Hj.
      now replace (n <? S n)%nat with true by (symmetry; apply Nat.ltb_lt; lia).
    + rewrite store_neq by exact Hj. rewrite IH.
      destruct (j mod 4 =? 3)%nat eqn:Hm; [|now rewrite !andb_false_r].
      apply Nat.eqb_eq in Hm. rewrite !andb_true_r.
      replace (j / 4 <? S n)%nat with (j / 4 <? n)%nat; [reflexivity|].
      destruct (j / 4 <? n)%nat eqn:H1; symmetry;
        [apply Nat.ltb_lt in H1; apply Nat.ltb_lt | apply Nat.ltb_ge in H1; apply Nat.ltb_ge];
        lia.
Qed.

Lemma process_unfold (gui_attached show_mask : bool) (piece : dt_dev_pixelpipe_iop_t)
    (work_profile : option dt_iop_order_iccprofile_info_t)
    (data : dt_iop_filmicrgb_data_t) (ivoid ovoid : buffer)
    (roi_in roi_out : dt_iop_roi_t) (alloc : process_alloc) (mask0 : buffer) :
  colors piece = 4%Z ->
  alloc_mask alloc = Some mask0 ->
  (gui_attached && pipe_type_full piece && show_mask)%bool = false ->
  let m := mask_clipped_pixels ivoid mask0
             (d_reconstruct_feather data / d_reconstruct_threshold data)
             (d_reconstruct_feather data)
             (Z.to_nat (roi_width roi_out)) (Z.to_nat (roi_height roi_out)) 4 in
  let h := process_highlights ivoid (snd m) (Some (fst m)) data piece work_profile
             roi_in roi_out alloc in
  process gui_attached show_mask piece work_profile data ivoid ovoid roi_in roi_out alloc
  = Some (process_alpha piece ivoid
            (process_tonemap (fst h) ovoid work_profile data roi_in roi_out) roi_out,
          snd h).
Proof.
  intros Hcol Hmask Hprev m h. unfold process, process_mask.
  rewrite Hcol, Hmask, Hprev. cbn [Z.eqb Pos.eqb negb].
  fold m. destruct m as [mask recover]. cbn [fst snd] in *.
  fold h. destruct h as [in1 log]. reflexivity.
Qed.

(** C9.  For every pixel of a processed buffer the alpha (4th) channel is
    left as it is: each tone-mapping kernel writes channels 0-2 only, and
    whatever the wavelet and blur stages did to their own buffers, the alpha
    value of the output buffer after [process] is the one it held before
    (or the input's, copied by [dt_iop_alpha_copy], when the pipe displays a
    mask). *)
Theorem C9_alpha_channel_untouched
    (gui_attached show_mask : bool) (piece : dt_dev_pixelpipe_iop_t)
    (work_profile : option dt_iop_order_iccprofile_info_t)
    (data : dt_iop_filmicrgb_data_t) (ivoid ovoid : buffer)
    (roi_in roi_out : dt_iop_roi_t) (alloc : process_alloc) (mask0 : buffer) :
  colors piece = 4%Z ->
  alloc_mask alloc = Some mask0 ->
  (gui_attached && pipe_type_full piece && show_mask)%bool = false ->
  (forall (in_ out : buffer) (spline : dt_iop_filmic_rgb_spline_t) (variant : Z)
          (width height i : nat),
      filmic_split_v1 in_ out work_profile data spline width height 4 (4 * i + 3)%nat
      = out (4 * i + 3)%nat
      /\ filmic_split_v2 in_ out work_profile data spline width height 4 (4 * i + 3)%nat
         = out (4 * i + 3)%nat
      /\ filmic_chroma_v1 in_ out work_profile data spline variant width height 4
           (4 * i + 3)%nat = out (4 * i + 3)%nat
      /\ filmic_chroma_v2 in_ out work_profile data spline variant width height 4
           (4 * i + 3)%nat = out (4 * i + 3)%nat)
  /\ exists out log,
       process gui_attached show_mask piece work_profile data ivoid ovoid roi_in roi_out alloc
       = Some (out, log)
       /\ forall i, (i < Z.to_nat (roi_height roi_out) * Z.to_nat (roi_width roi_out))%nat ->
            out (4 * i + 3)%nat
            = if pipe_mask_display piece then ivoid (4 * i + 3)%nat else ovoid (4 * i + 3)%nat.
Proof.
  intros Hcol Hmask Hprev.
  assert (Hmod : forall i, ((4 * i + 3) mod 4 = 3)%nat).
  { intros i. pose proof (Nat.div_mod_eq (4 * i + 3) 4).
    pose proof (Nat.mod_upper_bound (4 * i + 3) 4 ltac:(lia)). lia. }
  assert (Hdiv : forall i, ((4 * i + 3) / 4 = i)%nat).
  { intros i. pose proof (Nat.div_mod_eq (4 * i + 3) 4). specialize (Hmod i). lia. }
  split.
  - intros in_ out spline variant width height i.
    unfold filmic_split_v1, filmic_split_v2, filmic_chroma_v1, filmic_chroma_v2.
    repeat split; apply pixel_loop_rgb_alpha, Hmod.
  - rewrite (process_unfold _ _ _ _ _ _ _ _ _ _ _ Hcol Hmask Hprev).
    eexists. eexists. split; [reflexivity|].
    intros i Hi. unfold process_alpha.
    destruct (pipe_mask_display piece).
    + rewrite dt_iop_alpha_copy_cell, Hdiv, Hmod.
      now replace (i <? _)%nat with true by (symmetry; apply Nat.ltb_lt; lia).
    + apply process_tonemap_alpha, Hmod.
Qed.

(** ** C8: allocation failure in the wavelet reconstruction *)

Lemma reconstruct_highlights_failed (in_ mask reconstructed : buffer) (variant : Z)
    (data : dt_iop_filmicrgb_data_t) (piece : dt_dev_pixelpipe_iop_t)
    (roi_in roi_out : dt_iop_roi_t) (a : scratch_alloc) :
  scratch_ok a = false ->
  reconstruct_highlights in_ mask reconstructed variant data piece roi_in roi_out a
  = (false, reconstructed, [alloc_failed_message]).
Proof.
  unfold scratch_ok, reconstruct_highlights.
  destruct (alloc_LF_even a), (alloc_LF_odd a), (alloc_HF_RGB a), (alloc_HF_grey a),
    (alloc_temp a); intros H; try discriminate H; reflexivity.
Qed.

Lemma reconstruct_highlights_succeeded (in_ mask reconstructed : buffer) (variant : Z)
    (data : dt_iop_filmicrgb_data_t) (piece : dt_dev_pixelpipe_iop_t)
    (roi_in roi_out : dt_iop_roi_t) (a : scratch_alloc) :
  scratch_ok a = true ->
  exists r, reconstruct_highlights in_ mask reconstructed variant data piece roi_in roi_out a
            = (true, r, []).
Proof.
  unfold scratch_ok, reconstruct_highlights.
  destruct (alloc_LF_even a), (alloc_LF_odd a), (alloc_HF_RGB a), (alloc_HF_grey a),
    (alloc_temp a); intros H; try discriminate H.
  eexists. reflexivity.
Qed.

(** C8, as the code has it.  When [process] runs the reconstruction (mask
    and accumulator allocated, at least 10 clipped pixels) and a scratch
    allocation fails in the pass that is running, [reconstruct_highlights]
    returns FALSE with the accumulator untouched and the diagnostic logged,
    and [process] still renders: from the original buffer when the failure
    is in the first (RGB) pass, and from the first pass's reconstruction
    when the failure is in the second (ratio) pass of the high-quality
    mode. *)
Theorem C8_allocation_failure_is_not_fatal
    (gui_attached show_mask : bool) (piece : dt_dev_pixelpipe_iop_t)
    (work_profile : option dt_iop_order_iccprofile_info_t)
    (data : dt_iop_filmicrgb_data_t) (ivoid ovoid : buffer)
    (roi_in roi_out : dt_iop_roi_t) (alloc : process_alloc)
    (mask0 reconstructed0 : buffer) :
  colors piece = 4%Z ->
  alloc_mask alloc = Some mask0 ->
  alloc_reconstructed alloc = Some reconstructed0 ->
  (gui_attached && pipe_type_full piece && show_mask)%bool = false ->
  let m := mask_clipped_pixels ivoid mask0
             (d_reconstruct_feather data / d_reconstruct_threshold data)
             (d_reconstruct_feather data)
             (Z.to_nat (roi_width roi_out)) (Z.to_nat (roi_height roi_out)) 4 in
  snd m = true ->
  scratch_ok (alloc_pass1 alloc) = false
  \/ (truthy (d_high_quality_reconstruction data) = true
      /\ alloc_norms alloc <> None /\ alloc_ratios alloc <> None
      /\ scratch_ok (alloc_pass2 alloc) = false) ->
  let pass_1 := reconstruct_highlights ivoid (fst m) reconstructed0 0 data piece roi_in roi_out
                  (alloc_pass1 alloc) in
  let tonemapper_input := if scratch_ok (alloc_pass1 alloc) then snd (fst pass_1) else ivoid in
  (forall (in_ mask reconstructed : buffer) (variant : Z) (a : scratch_alloc),
      scratch_ok a = false ->
      reconstruct_highlights in_ mask reconstructed variant data piece roi_in roi_out a
      = (false, reconstructed, [alloc_failed_message]))
  /\ process gui_attached show_mask piece work_profile data ivoid ovoid roi_in roi_out alloc
     = Some (process_alpha piece ivoid
               (process_tonemap tonemapper_input ovoid work_profile data roi_in roi_out)
               roi_out,
             [alloc_failed_message]).
Proof.
  intros Hcol Hmask Hrec Hprev m Hrecover Hfail pass_1 tonemapper_input.
  split; [intros; now apply reconstruct_highlights_failed|].
  rewrite (process_unfold _ _ _ _ _ _ _ _ _ _ _ Hcol Hmask Hprev). fold m.
  unfold process_highlights. rewrite Hrec, Hrecover. fold pass_1.
  unfold tonemapper_input.
  destruct (scratch_ok (alloc_pass1 alloc)) eqn:Hok1.
  - destruct Hfail as [Hf|(Hhq & Hnorms & Hratios & Hok2)]; [discriminate Hf|].
    destruct (reconstruct_highlights_succeeded ivoid (fst m) reconstructed0 0 data piece
                roi_in roi_out _ Hok1) as [r1 Hr1].
    unfold pass_1. rewrite Hr1. rewrite Hhq. cbn [andb fst snd].
    destruct (alloc_norms alloc) as [norms|]; [|contradiction].
    destruct (alloc_ratios alloc) as [ratios|]; [|contradiction].
    destruct (compute_ratios r1 norms ratios work_profile _ _ _ 4) as [norms1 ratios1].
    rewrite reconstruct_highlights_failed by exact Hok2.
    reflexivity.
  - unfold pass_1. rewrite reconstruct_highlights_failed by exact Hok1.
    rewrite andb_false_r. reflexivity.
Qed.

(** ** C1: the curve solver *)

Lemma CLAMP_range (x low high : R) : low <= high -> low <= CLAMP x low high <= high.
Proof.
  intros H. unfold CLAMP.
  destruct (Rgt_dec x high); [lra|]. destruct (Rlt_dec x low); unfold Rgt in *; lra.
Qed.

Lemma sqrtf_norm_pos (c : R) : 0 < sqrtf (c * c + 1).
Proof. unfold sqrtf. apply sqrt_lt_R0. nra. Qed.

(** What [dt_iop_filmic_rgb_compute_spline] stores, field by field. *)
Lemma compute_spline_fields (p : dt_iop_filmicrgb_params_t)
    (spline0 : dt_iop_filmic_rgb_spline_t) :
  let spline := dt_iop_filmic_rgb_compute_spline p spline0 in
  let x := fst (spline_nodes p spline0) in
  let y := snd (spline_nodes p spline0) in
  let toe := solve_toe x y (spline_contrast p) (shadows p) in
  let shoulder := solve_shoulder x y (spline_contrast p) (highlights p) in
  spline_x spline = x /\ spline_y spline = y
  /\ latitude_min spline = x 1%nat /\ latitude_max spline = x 3%nat
  /\ (M1 spline 2%nat = y 1%nat - spline_contrast p * x 1%nat
      /\ M2 spline 2%nat = spline_contrast p
      /\ M3 spline 2%nat = 0 /\ M4 spline 2%nat = 0 /\ M5 spline 2%nat = 0)
  /\ (M1 spline 0%nat, M2 spline 0%nat, M3 spline 0%nat, M4 spline 0%nat, M5 spline 0%nat)
     = toe
  /\ (M1 spline 1%nat, M2 spline 1%nat, M3 spline 1%nat, M4 spline 1%nat, M5 spline 1%nat)
     = shoulder.
Proof.
  cbn zeta. unfold dt_iop_filmic_rgb_compute_spline.
  set (nodes := spline_nodes p spline0).
  rewrite (store_eq (M2 spline0) 2 (spline_contrast p)).
  destruct (solve_toe _ _ _ _) as [[[[t1 t2] t3] t4] t5].
  destruct (solve_shoulder _ _ _ _) as [[[[s1 s2] s3] s4] s5].
  cbn [M1 M2 M3 M4 M5 latitude_min latitude_max spline_x spline_y].
  repeat split; reflexivity.
Qed.

(** The toe and the shoulder node lie on the line of slope [contrast]
    through the grey node, the toe node to the left of the shoulder node. *)
Lemma spline_nodes_on_line (p : dt_iop_filmicrgb_params_t)
    (spline0 : dt_iop_filmic_rgb_spline_t) :
  white_point_source p <> black_point_source p ->
  let x := fst (spline_nodes p spline0) in
  let y := snd (spline_nodes p spline0) in
  y 1%nat - spline_contrast p * x 1%nat = y 2%nat - spline_contrast p * x 2%nat
  /\ y 3%nat - spline_contrast p * x 3%nat = y 2%nat - spline_contrast p * x 2%nat
  /\ x 1%nat <= x 3%nat.
Proof.
  intros Hdr.
  assert (Hdr' : white_point_source p - black_point_source p <> 0) by lra.
  pose proof (sqrtf_norm_pos (spline_contrast p)) as Hnorm.
  pose proof (CLAMP_range (latitude p) 0 100 ltac:(lra)) as Hlat.
  cbn zeta. unfold spline_nodes. cbn [fst snd].
  repeat first [ rewrite store_eq | rewrite store_neq by lia ].
  split; [field; lra | split; [field; lra|]].
  match goal with
  | |- ?g - ?l / ?d * ?b + ?s <= ?g + ?l / ?d * ?w + ?s =>
      assert (l / d = CLAMP (latitude p) 0 100 / 100) by (field; lra);
      assert (0 <= l / d) by lra;
      assert (0 <= b) by apply Rabs_pos;
      assert (0 <= w) by apply Rabs_pos;
      nra
  end.
Qed.

(** The part of C1 that the code has (the claim itself fails, see
    [C1_counterexample]).  For every parameter set (source black and
    white distinct), the central segment of the solved spline is the affine
    function whose slope is the clamped contrast and which passes through
    the grey node; [filmic_spline] reproduces the y ordinate at the toe and
    at the shoulder abscissa, and at the grey abscissa whenever the grey node
    lies within the latitude, between toe and shoulder. *)
Theorem C1_spline_node_fidelity
    (p : dt_iop_filmicrgb_params_t) (spline0 : dt_iop_filmic_rgb_spline_t) :
  white_point_source p <> black_point_source p ->
  let spline := dt_iop_filmic_rgb_compute_spline p spline0 in
  let x := spline_x spline in
  let y := spline_y spline in
  (M2 spline 2%nat = CLAMP (contrast p) 0.1 2
   /\ M3 spline 2%nat = 0 /\ M4 spline 2%nat = 0 /\ M5 spline 2%nat = 0
   /\ M1 spline 2%nat + M2 spline 2%nat * x 2%nat = y 2%nat)
  /\ apply_spline spline (x 1%nat) = y 1%nat
  /\ apply_spline spline (x 3%nat) = y 3%nat
  /\ (x 1%nat <= x 2%nat <= x 3%nat -> apply_spline spline (x 2%nat) = y 2%nat).
Proof.
  intros Hdr spline x y.
  destruct (compute_spline_fields p spline0)
    as (Hx & Hy & Hmin & Hmax & (H1 & H2 & H3 & H4 & H5) & _ & _).
  destruct (spline_nodes_on_line p spline0 Hdr) as (Htoe & Hshoulder & Horder).
  cbn zeta in *. fold spline in Hx, Hy, Hmin, Hmax, H1, H2, H3, H4, H5.
  unfold x, y. rewrite Hx, Hy.
  set (x' := fst (spline_nodes p spline0)) in *.
  set (y' := snd (spline_nodes p spline0)) in *.
  fold (spline_contrast p).
  split.
  { repeat split; try assumption. rewrite H1, H2. lra. }
  unfold apply_spline, filmic_spline. rewrite Hmin, Hmax, H1, H2, H3, H4, H5.
  split; [|split].
  - destruct (Rlt_dec (x' 1%nat) (x' 1%nat)); [lra|].
    destruct (Rgt_dec (x' 1%nat) (x' 3%nat)); [unfold Rgt in *; lra|]. lra.
  - destruct (Rlt_dec (x' 3%nat) (x' 1%nat)); [lra|].
    destruct (Rgt_dec (x' 3%nat) (x' 3%nat)); [unfold Rgt in *; lra|]. lra.
  - intros [Hlo Hhi].
    destruct (Rlt_dec (x' 2%nat) (x' 1%nat)); [lra|].
    destruct (Rgt_dec (x' 2%nat) (x' 3%nat)); [unfold Rgt in *; lra|]. lra.
Qed.

(** The reconstruction settings as [commit_params] commits them. *)
Lemma commit_params_reconstruction (p : dt_iop_filmicrgb_params_t)
    (d : dt_iop_filmicrgb_data_t) :
  let data := commit_params p d in
  d_reconstruct_feather data = exp2f (12 / reconstruct_feather p)
  /\ d_reconstruct_threshold data
     = powf 2 (white_point_source p + reconstruct_threshold p)
       * (if truthy (custom_grey p) then grey_point_source p / 100 else 0.1845)
  /\ d_reconstruct_structure_vs_texture data
     = (reconstruct_structure_vs_texture p / 100 + 1) / 2
  /\ d_reconstruct_grey_vs_color data = (reconstruct_grey_vs_color p / 100 + 1) / 2
  /\ d_reconstruct_bloom_vs_details data = (reconstruct_bloom_vs_details p / 100 + 1) / 2
  /\ d_high_quality_reconstruction data = high_quality_reconstruction p
  /\ d_preserve_color data = preserve_color p
  /\ d_output_power data = output_power p.
Proof.
  cbn zeta. unfold commit_params.
  destruct (truthy (custom_grey p)); repeat split; reflexivity.
Qed.

(** ** Further properties of the scalar helpers *)

Lemma Rmax_cases (x y : R) : (Rmax x y = x /\ y <= x) \/ (Rmax x y = y /\ x <= y).
Proof.
  unfold Rmax. destruct (Rle_dec x y); [right|left]; split; lra.
Qed.

Lemma Rmin_cases (x y : R) : (Rmin x y = x /\ x <= y) \/ (Rmin x y = y /\ y <= x).
Proof.
  unfold Rmin. destruct (Rle_dec x y); [left|right]; split; lra.
Qed.

(** X1. [pixel_rgb_norm_power], the ratio of the sum of the cubes to the sum
    of the squares of the absolute channel values, is never negative and
    never exceeds the largest absolute channel value, also where the
    denominator is floored at 1e-12. *)
Theorem X1_power_norm_bounds (pixel : rgb) :
  0 <= pixel_rgb_norm_power pixel
    <= fmaxf (fmaxf (fabsf (chan pixel 0)) (fabsf (chan pixel 1))) (fabsf (chan pixel 2)).
Proof.
  destruct pixel as [[r g] b]. unfold pixel_rgb_norm_power.
  cbn [seq fold_left fst snd chan]. unfold fmaxf, fabsf.
  pose proof (Rabs_pos r) as Hr. pose proof (Rabs_pos g) as Hg. pose proof (Rabs_pos b) as Hb.
  set (x := Rabs r) in *. set (y := Rabs g) in *. set (z := Rabs b) in *.
  set (den := Rmax (0 + x * x + y * y + z * z) 1e-12).
  set (M := Rmax (Rmax x y) z).
  assert (Hden : 0 < den /\ 0 + x * x + y * y + z * z <= den).
  { unfold den. destruct (Rmax_cases (0 + x * x + y * y + z * z) 1e-12) as [[-> ?]|[-> ?]]; lra. }
  assert (HM : x <= M /\ y <= M /\ z <= M).
  { unfold M. destruct (Rmax_cases x y) as [[-> ?]|[-> ?]];
      [destruct (Rmax_cases x z) as [[-> ?]|[-> ?]]
      |destruct (Rmax_cases y z) as [[-> ?]|[-> ?]]]; lra. }
  assert (Hinv : 0 < / den) by (apply Rinv_0_lt_compat; lra).
  assert (Hx : x * x * x <= M * (x * x)) by nra.
  assert (Hy : y * y * y <= M * (y * y)) by nra.
  assert (Hz : z * z * z <= M * (z * z)) by nra.
  assert (Hnum : 0 + x * x * x + y * y * y + z * z * z <= M * den) by nra.
  split.
  - apply Rmult_le_pos; [nra | lra].
  - replace M with (M * den / den) by (field; lra).
    unfold Rdiv. apply Rmult_le_compat_r; lra.
Qed.

(** X2. The log encoders are anchored on the scene: with a positive grey and
    a black point below and a white point above it, the scene black
    [grey * 2^black] is encoded as 0 (as the noise floor by v1), the scene
    white [grey * 2^white] as 1 and the grey itself as
    [|black| / (white - black)]; a brighter value never gets a smaller
    code. *)
Theorem X2_log_encoders_anchor_black_grey_white (grey black white x x' : R) :
  0 < grey -> black < 0 -> 0 < white -> 0 < x <= x' ->
  let dynamic_range := white - black in
  log_tonemapping_v2 (grey * exp2f black) grey black dynamic_range = 0
  /\ log_tonemapping_v2 (grey * exp2f white) grey black dynamic_range = 1
  /\ log_tonemapping_v2 grey grey black dynamic_range = fabsf black / dynamic_range
  /\ log_tonemapping_v1 (grey * exp2f black) grey black dynamic_range = noise_floor
  /\ log_tonemapping_v1 (grey * exp2f white) grey black dynamic_range = 1
  /\ log_tonemapping_v2 x grey black dynamic_range
     <= log_tonemapping_v2 x' grey black dynamic_range
  /\ log_tonemapping_v1 x grey black dynamic_range
     <= log_tonemapping_v1 x' grey black dynamic_range.
Proof.
  intros Hg Hb Hw Hx dynamic_range.
  assert (Hdr : 0 < dynamic_range) by (unfold dynamic_range; lra).
  assert (Hln2 : 0 < ln 2) by (rewrite <- ln_1; apply ln_increasing; lra).
  assert (Hlog : forall e, log2f (grey * exp2f e / grey) = e).
  { intros e. unfold log2f, exp2f.
    replace (grey * Rpower 2 e / grey) with (Rpower 2 e) by (field; lra).
    unfold Rpower. rewrite ln_exp. field. lra. }
  assert (Hgrey : log2f (grey / grey) = 0).
  { unfold log2f. replace (grey / grey) with 1 by (field; lra). rewrite ln_1. lra. }
  assert (Hmono : (log2f (x / grey) - black) / dynamic_range
                  <= (log2f (x' / grey) - black) / dynamic_range).
  { unfold Rdiv at 1 3. apply Rmult_le_compat_r; [left; now apply Rinv_0_lt_compat|].
    apply Rplus_le_compat_r. unfold log2f, Rdiv.
    apply Rmult_le_compat_r; [left; now apply Rinv_0_lt_compat|].
    destruct (proj2 Hx) as [Hlt| ->]; [left|right; reflexivity].
    apply ln_increasing.
    - apply Rmult_lt_0_compat; [lra | now apply Rinv_0_lt_compat].
    - apply Rmult_lt_compat_r; [now apply Rinv_0_lt_compat | exact Hlt]. }
  pose proof noise_floor_pos as Hnf.
  unfold log_tonemapping_v2, log_tonemapping_v1, clamp_simd, fmaxf, fminf. cbn zeta.
  rewrite !Hlog, Hgrey.
  replace ((black - black) / dynamic_range) with 0 by (field; lra).
  replace ((white - black) / dynamic_range) with 1 by (unfold dynamic_range; field; lra).
  assert (Hgl : 0 < (0 - black) / dynamic_range < 1).
  { split; [apply Rdiv_lt_0_compat; lra|].
    apply (Rmult_lt_reg_r dynamic_range); [lra|].
    unfold Rdiv. rewrite Rmult_assoc, Rinv_l by lra. unfold dynamic_range. lra. }
  assert (Habs : fabsf black / dynamic_range = (0 - black) / dynamic_range).
  { unfold fabsf. rewrite Rabs_left by lra. f_equal. lra. }
  rewrite Habs.
  set (u := (log2f (x / grey) - black) / dynamic_range) in *.
  set (u' := (log2f (x' / grey) - black) / dynamic_range) in *.
  set (gl := (0 - black) / dynamic_range) in *.
  repeat split.
  1-5: case_minmax; lra.
  - apply Rle_min_compat_r. apply Rle_max_compat_r. exact Hmono.
  - apply Rle_max_compat_r. apply Rle_min_compat_r. exact Hmono.
Qed.

(** ** Further properties of the clip mask and of [commit_params] *)

(** X3. The clip mask is monotone in brightness: wherever
    [feather / threshold] is not negative, a pixel whose Euclidean RGB norm
    is at least that of another gets a weight at least as large. *)
Theorem X3_mask_weight_grows_with_brightness (in_ mask0 : buffer) (feather threshold : R)
    (width height i j : nat) :
  (i < height * width)%nat -> (j < height * width)%nat ->
  0 <= feather / threshold ->
  spec_pix_norm in_ i <= spec_pix_norm in_ j ->
  let mask :=
    fst (mask_clipped_pixels in_ mask0 (feather / threshold) feather width height 4) in
  mask i <= mask j.
Proof.
  intros Hi Hj Hn Hle mask.
  destruct (mask_clipped_pixels_cells in_ mask0 feather threshold width height) as [Hcells _].
  cbn zeta in Hcells. unfold mask. rewrite (Hcells i Hi), (Hcells j Hj).
  unfold spec_weight, spec_argument.
  set (ai := feather - spec_pix_norm in_ i * (feather / threshold)).
  set (aj := feather - spec_pix_norm in_ j * (feather / threshold)).
  assert (Ha : aj <= ai) by (unfold ai, aj; nra).
  assert (Hp : Rpower 2 aj <= Rpower 2 ai) by (apply Rle_Rpower; lra).
  pose proof (Rpower_pos 2 aj). pose proof (Rpower_pos 2 ai).
  unfold Rdiv. rewrite !Rmult_1_l. apply Rinv_le_contravar; lra.
Qed.

(** X4. A pixel whose Euclidean RGB norm equals the clipping threshold gets
    the mask weight 1/2, whatever the feathering. *)
Theorem X4_mask_weight_is_half_at_the_threshold (in_ mask0 : buffer)
    (feather threshold : R) (width height i : nat) :
  (i < height * width)%nat ->
  threshold <> 0 ->
  spec_pix_norm in_ i = threshold ->
  fst (mask_clipped_pixels in_ mask0 (feather / threshold) feather width height 4) i = 1 / 2.
Proof.
  intros Hi Ht Hnorm.
  destruct (mask_clipped_pixels_cells in_ mask0 feather threshold width height) as [Hcells _].
  cbn zeta in Hcells. rewrite (Hcells i Hi).
  unfold spec_weight, spec_argument. rewrite Hnorm.
  replace (feather - threshold * (feather / threshold)) with 0 by (field; exact Ht).
  rewrite Rpower_O by lra. lra.
Qed.

(** The counter of clipped pixels stays between 0 and the number of pixels
    visited, as long as that fits an [int]. *)
Lemma mask_count_bound (in_ : buffer) (normalize feathering : R) (ch : nat) (l : list nat) :
  forall st : buffer * Z,
    (0 <= snd st)%Z -> (snd st + Z.of_nat (List.length l) < 2 ^ 31)%Z ->
    (0 <= snd (fold_left (mask_clipped_step in_ normalize feathering ch) l st)
     <= snd st + Z.of_nat (List.length l))%Z.
Proof.
  induction l as [|k l IH]; intros st H0 Hlen.
  - cbn. lia.
  - cbn [fold_left]. cbn [List.length] in Hlen.
    set (st' := mask_clipped_step in_ normalize feathering ch st k).
    assert (Hst' : (snd st <= snd st' <= snd st + 1)%Z).
    { unfold st', mask_clipped_step. cbn [snd].
      destruct (Rgt_dec 4 _); rewrite int_wrap_small; lia. }
    specialize (IH st'). cbn [List.length]. lia.
Qed.

Lemma pixel_offsets_length (width height ch : nat) :
  (List.length (pixel_offsets width height ch) <= height * width)%nat.
Proof.
  unfold pixel_offsets. destruct (Nat.eqb ch 0); cbn [List.length]; [lia|].
  rewrite length_map, length_seq. lia.
Qed.

Lemma mask_clipped_pixels_small (in_ mask : buffer) (normalize feathering : R)
    (width height ch : nat) :
  (height * width < 10)%nat ->
  snd (mask_clipped_pixels in_ mask normalize feathering width height ch) = false.
Proof.
  intros Hn. unfold mask_clipped_pixels. cbn [snd].
  pose proof (pixel_offsets_length width height ch) as Hlen.
  pose proof (mask_count_bound in_ normalize feathering ch (pixel_offsets width height ch)
                (mask, 0%Z)) as Hb.
  cbn [snd] in Hb. rewrite Z.gtb_ltb. apply Z.ltb_ge. lia.
Qed.

(** X5. A region of fewer than ten pixels is never reconstructed: the count
    of clipped pixels cannot exceed 9, [mask_clipped_pixels] returns FALSE
    whatever the pixels and the thresholds are, and [process] tone-maps its
    input as it is and logs nothing, whatever the later allocations
    return. *)
Theorem X5_fewer_than_ten_pixels_are_never_reconstructed
    (gui_attached show_mask : bool) (piece : dt_dev_pixelpipe_iop_t)
    (work_profile : option dt_iop_order_iccprofile_info_t)
    (data : dt_iop_filmicrgb_data_t) (ivoid ovoid : buffer)
    (roi_in roi_out : dt_iop_roi_t) (alloc : process_alloc) (mask0 : buffer) :
  colors piece = 4%Z ->
  alloc_mask alloc = Some mask0 ->
  (gui_attached && pipe_type_full piece && show_mask)%bool = false ->
  (Z.to_nat (roi_height roi_out) * Z.to_nat (roi_width roi_out) < 10)%nat ->
  (forall (in_ mask : buffer) (normalize feathering : R) (ch : nat),
      snd (mask_clipped_pixels in_ mask normalize feathering
             (Z.to_nat (roi_width roi_out)) (Z.to_nat (roi_height roi_out)) ch) = false)
  /\ process gui_attached show_mask piece work_profile data ivoid ovoid roi_in roi_out alloc
     = Some (process_alpha piece ivoid
               (process_tonemap ivoid ovoid work_profile data roi_in roi_out) roi_out,
             []).
Proof.
  intros Hc Hm Hflags Hn. split.
  - intros. now apply mask_clipped_pixels_small.
  - rewrite (process_unfold gui_attached show_mask piece work_profile data ivoid ovoid
               roi_in roi_out alloc mask0 Hc Hm Hflags).
    cbn zeta. rewrite mask_clipped_pixels_small by exact Hn.
    unfold process_highlights. destruct (alloc_reconstructed alloc); reflexivity.
Qed.

Lemma powf_2 (e : R) : powf 2 e = Rpower 2 e.
Proof.
  unfold powf. destruct (Req_EM_T 2 0); [lra|]. destruct (Rlt_dec 0 2); [reflexivity|lra].
Qed.

(** X6. [commit_params] always hands [process] a positive feathering, and a
    positive clipping threshold as soon as the grey point in use is positive
    (the default 18.45 %, or a positive custom grey): the normalisation
    [feather / threshold] of the clip mask is then a quotient of positive
    numbers. *)
Theorem X6_committed_mask_parameters_are_positive
    (p : dt_iop_filmicrgb_params_t) (d : dt_iop_filmicrgb_data_t) :
  (truthy (custom_grey p) = true -> 0 < grey_point_source p) ->
  let data := commit_params p d in
  0 < d_reconstruct_feather data
  /\ 0 < d_reconstruct_threshold data
  /\ 0 < d_reconstruct_feather data / d_reconstruct_threshold data.
Proof.
  intros Hgrey data.
  destruct (commit_params_reconstruction p d) as (Hf & Ht & _).
  cbn zeta in Hf, Ht. fold data in Hf, Ht.
  assert (H1 : 0 < d_reconstruct_feather data) by (rewrite Hf; apply Rpower_pos).
  assert (H2 : 0 < d_reconstruct_threshold data).
  { rewrite Ht, powf_2. apply Rmult_lt_0_compat; [apply Rpower_pos|].
    destruct (truthy (custom_grey p)); [specialize (Hgrey eq_refl)|]; lra. }
  repeat split; try assumption. now apply Rdiv_lt_0_compat.
Qed.

Lemma log2f_exp2f (grey e : R) : 0 < grey -> log2f (grey * exp2f e / grey) = e.
Proof.
  intros Hg. unfold log2f, exp2f.
  assert (Hln2 : 0 < ln 2) by (rewrite <- ln_1; apply ln_increasing; lra).
  replace (grey * Rpower 2 e / grey) with (Rpower 2 e) by (field; lra).
  unfold Rpower. rewrite ln_exp. field. lra.
Qed.

Lemma log_tonemapping_v2_anchors (grey black white : R) :
  0 < grey -> black < 0 -> 0 < white ->
  log_tonemapping_v2 (grey * exp2f black) grey black (white - black) = 0
  /\ log_tonemapping_v2 grey grey black (white - black) = fabsf black / (white - black)
  /\ log_tonemapping_v2 (grey * exp2f white) grey black (white - black) = 1.
Proof.
  intros Hg Hb Hw.
  unfold log_tonemapping_v2, clamp_simd, fmaxf, fminf.
  rewrite !log2f_exp2f by exact Hg.
  assert (Hgrey : log2f (grey / grey) = 0).
  { unfold log2f. replace (grey / grey) with 1 by (field; lra). rewrite ln_1. lra. }
  rewrite Hgrey.
  replace ((black - black) / (white - black)) with 0 by (field; lra).
  replace ((white - black) / (white - black)) with 1 by (field; lra).
  assert (Habs : fabsf black / (white - black) = (0 - black) / (white - black)).
  { unfold fabsf. rewrite Rabs_left by lra. f_equal. lra. }
  rewrite Habs.
  assert (Hgl : 0 < (0 - black) / (white - black) < 1).
  { split; [apply Rdiv_lt_0_compat; lra|].
    apply (Rmult_lt_reg_r (white - black)); [lra|].
    unfold Rdiv. rewrite Rmult_assoc, Rinv_l by lra. lra. }
  set (gl := (0 - black) / (white - black)) in *.
  repeat split; case_minmax; lra.
Qed.

Lemma spline_nodes_x (p : dt_iop_filmicrgb_params_t) (spline0 : dt_iop_filmic_rgb_spline_t) :
  let x := fst (spline_nodes p spline0) in
  x 0%nat = 0
  /\ x 2%nat = fabsf (black_point_source p) / (white_point_source p - black_point_source p)
  /\ x 4%nat = 1.
Proof.
  cbn zeta. unfold spline_nodes. cbn [fst].
  repeat first [ rewrite store_eq | rewrite store_neq by lia ].
  repeat split; reflexivity.
Qed.

Lemma commit_params_scene (p : dt_iop_filmicrgb_params_t) (d : dt_iop_filmicrgb_data_t) :
  let data := commit_params p d in
  d_grey_source data = (if truthy (custom_grey p) then grey_point_source p / 100 else 0.1845)
  /\ d_black_source data = black_point_source p
  /\ d_dynamic_range data = white_point_source p - black_point_source p
  /\ d_saturation data = 2 * saturation p / 100 + 1
  /\ d_version data = version p
  /\ d_spline data = dt_iop_filmic_rgb_compute_spline p (d_spline d)
  /\ d_sigma_toe data = powf (latitude_min (d_spline data) / 3) 2
  /\ d_sigma_shoulder data = powf ((1 - latitude_max (d_spline data)) / 3) 2.
Proof.
  cbn zeta. unfold commit_params.
  destruct (truthy (custom_grey p)); repeat split; reflexivity.
Qed.

(** X7. The committed encoder and the committed curve agree on the scene:
    with a black point below and a white point above a positive grey, the
    v2 log encoder run with the fields [commit_params] stored sends the
    scene black, grey and white ([grey * 2^black], [grey], [grey * 2^white])
    to the abscissae of the first, middle and last node of the committed
    spline, which are 0, [|black| / (white - black)] and 1. *)
Theorem X7_committed_encoder_sends_black_grey_white_to_the_nodes
    (p : dt_iop_filmicrgb_params_t) (d : dt_iop_filmicrgb_data_t) :
  black_point_source p < 0 ->
  0 < white_point_source p ->
  (truthy (custom_grey p) = true -> 0 < grey_point_source p) ->
  let data := commit_params p d in
  let encode x :=
    log_tonemapping_v2 x (d_grey_source data) (d_black_source data) (d_dynamic_range data) in
  let x := spline_x (d_spline data) in
  encode (d_grey_source data * exp2f (black_point_source p)) = x 0%nat
  /\ encode (d_grey_source data) = x 2%nat
  /\ encode (d_grey_source data * exp2f (white_point_source p)) = x 4%nat
  /\ x 0%nat = 0 /\ x 4%nat = 1
  /\ x 2%nat = fabsf (black_point_source p) / (white_point_source p - black_point_source p).
Proof.
  intros Hb Hw Hgrey data encode x.
  destruct (commit_params_scene p d) as (Hg & Hbl & Hdr & _ & _ & Hs & _).
  cbn zeta in Hg, Hbl, Hdr, Hs. fold data in Hg, Hbl, Hdr, Hs.
  assert (Hpos : 0 < d_grey_source data).
  { rewrite Hg. destruct (truthy (custom_grey p)); [specialize (Hgrey eq_refl)|]; lra. }
  destruct (compute_spline_fields p (d_spline d)) as (Hx & _).
  cbn zeta in Hx.
  destruct (spline_nodes_x p (d_spline d)) as (Hx0 & Hx2 & Hx4). cbn zeta in Hx0, Hx2, Hx4.
  unfold x. rewrite Hs, Hx, Hx0, Hx2, Hx4.
  destruct (log_tonemapping_v2_anchors (d_grey_source data) (black_point_source p)
              (white_point_source p) Hpos Hb Hw) as (H0 & H2 & H4).
  unfold encode. rewrite Hbl, Hdr. repeat split; assumption.
Qed.

(** ** Further properties of [process] and of the kernels *)

Lemma pixel_cell_index (i c : nat) :
  (c < 4)%nat -> ((4 * i + c) / 4 = i)%nat /\ ((4 * i + c) mod 4 = c)%nat.
Proof.
  intros Hc. replace (4 * i + c)%nat with (c + i * 4)%nat by lia.
  rewrite Nat.div_add, Nat.Div0.mod_add, Nat.div_small, Nat.mod_small by lia. lia.
Qed.

Lemma display_mask_cell (mask out : buffer) (width height : nat) (k : nat) :
  display_mask mask out width height 4 k
  = if (k <? height * width * 4)%nat then mask (k / 4)%nat else out k.
Proof.
  unfold display_mask.
  exact (cell_loop (fun k => mask (k / 4)%nat) (height * width * 4) out k).
Qed.

(** X8. In the mask preview (GUI attached, full pipe, [show_mask] set)
    [process] does no tone mapping: it returns, with an empty log, the
    output buffer in which all four channels of every pixel of the region,
    alpha included, hold the clip-mask weight of that pixel, and no cell
    beyond the region is written. *)
Theorem X8_mask_preview_writes_the_mask_to_all_four_channels
    (piece : dt_dev_pixelpipe_iop_t)
    (work_profile : option dt_iop_order_iccprofile_info_t)
    (data : dt_iop_filmicrgb_data_t) (ivoid ovoid : buffer)
    (roi_in roi_out : dt_iop_roi_t) (alloc : process_alloc) (mask0 : buffer) :
  colors piece = 4%Z ->
  alloc_mask alloc = Some mask0 ->
  pipe_type_full piece = true ->
  let width := Z.to_nat (roi_width roi_out) in
  let height := Z.to_nat (roi_height roi_out) in
  exists out,
    process true true piece work_profile data ivoid ovoid roi_in roi_out alloc
    = Some (out, [])
    /\ (forall i c, (i < height * width)%nat -> (c < 4)%nat ->
          out (4 * i + c)%nat
          = spec_weight (spec_argument ivoid (d_reconstruct_feather data)
                           (d_reconstruct_threshold data) i))
    /\ (forall k, (height * width * 4 <= k)%nat -> out k = ovoid k).
Proof.
  intros Hc Hm Hfull width height.
  unfold process, process_mask. rewrite Hc, Hm, Hfull. cbn [Z.eqb Pos.eqb negb andb].
  fold width height.
  destruct (mask_clipped_pixels_cells ivoid mask0 (d_reconstruct_feather data)
              (d_reconstruct_threshold data) width height) as [Hcells _].
  cbn zeta in Hcells.
  destruct (mask_clipped_pixels ivoid mask0 _ _ width height 4) as [mask recover].
  cbn [fst] in Hcells.
  exists (display_mask mask ovoid width height 4). split; [reflexivity|]. split.
  - intros i c Hi Hc4. rewrite display_mask_cell.
    destruct (pixel_cell_index i c Hc4) as [Hdiv _]. rewrite Hdiv.
    replace (4 * i + c <? height * width * 4)%nat with true
      by (symmetry; apply Nat.ltb_lt; lia).
    now apply Hcells.
  - intros k Hk. rewrite display_mask_cell.
    now replace (k <? height * width * 4)%nat with false by (symmetry; apply Nat.ltb_ge; lia).
Qed.

(** X10. A refused [reconstructed] buffer is not reported: whatever the
    clip mask found, [process] tone-maps the untouched input and logs
    nothing. *)
Theorem X10_refused_reconstruction_buffer_is_silent
    (gui_attached show_mask : bool) (piece : dt_dev_pixelpipe_iop_t)
    (work_profile : option dt_iop_order_iccprofile_info_t)
    (data : dt_iop_filmicrgb_data_t) (ivoid ovoid : buffer)
    (roi_in roi_out : dt_iop_roi_t) (alloc : process_alloc) (mask0 : buffer) :
  colors piece = 4%Z ->
  alloc_mask alloc = Some mask0 ->
  (gui_attached && pipe_type_full piece && show_mask)%bool = false ->
  alloc_reconstructed alloc = None ->
  process gui_attached show_mask piece work_profile data ivoid ovoid roi_in roi_out alloc
  = Some (process_alpha piece ivoid
            (process_tonemap ivoid ovoid work_profile data roi_in roi_out) roi_out,
          []).
Proof.
  intros Hc Hm Hflags Hr.
  rewrite (process_unfold gui_attached show_mask piece work_profile data ivoid ovoid
             roi_in roi_out alloc mask0 Hc Hm Hflags).
  cbn zeta. unfold process_highlights. rewrite Hr. reflexivity.
Qed.

(** X11. A refused [norms] or [ratios] buffer of the high-quality pass is
    not reported either: when the first pass ran, [process] tone-maps the
    result of the first pass and logs nothing, as if the high-quality
    reconstruction had not been asked for. *)
Theorem X11_refused_ratio_buffers_fall_back_to_the_first_pass
    (gui_attached show_mask : bool) (piece : dt_dev_pixelpipe_iop_t)
    (work_profile : option dt_iop_order_iccprofile_info_t)
    (data : dt_iop_filmicrgb_data_t) (ivoid ovoid : buffer)
    (roi_in roi_out : dt_iop_roi_t) (alloc : process_alloc)
    (mask0 reconstructed0 : buffer) :
  colors piece = 4%Z ->
  alloc_mask alloc = Some mask0 ->
  alloc_reconstructed alloc = Some reconstructed0 ->
  (gui_attached && pipe_type_full piece && show_mask)%bool = false ->
  let m := mask_clipped_pixels ivoid mask0
             (d_reconstruct_feather data / d_reconstruct_threshold data)
             (d_reconstruct_feather data)
             (Z.to_nat (roi_width roi_out)) (Z.to_nat (roi_height roi_out)) 4 in
  snd m = true ->
  scratch_ok (alloc_pass1 alloc) = true ->
  alloc_norms alloc = None \/ alloc_ratios alloc = None ->
  let pass_1 := reconstruct_highlights ivoid (fst m) reconstructed0 0 data piece roi_in roi_out
                  (alloc_pass1 alloc) in
  process gui_attached show_mask piece work_profile data ivoid ovoid roi_in roi_out alloc
  = Some (process_alpha piece ivoid
            (process_tonemap (snd (fst pass_1)) ovoid work_profile data roi_in roi_out)
            roi_out,
          []).
Proof.
  intros Hc Hm Hr Hflags m Hrec Hok Hnone pass_1.
  rewrite (process_unfold gui_attached show_mask piece work_profile data ivoid ovoid
             roi_in roi_out alloc mask0 Hc Hm Hflags).
  cbn zeta. fold m. rewrite Hrec.
  unfold process_highlights. rewrite Hr.
  destruct (reconstruct_highlights_succeeded ivoid (fst m) reconstructed0 0 data piece
              roi_in roi_out (alloc_pass1 alloc) Hok) as [r Hpass].
  unfold pass_1. rewrite Hpass. cbn [fst snd andb app].
  destruct (truthy (d_high_quality_reconstruction data)); cbn [andb]; [|reflexivity].
  destruct Hnone as [Hn|Hn]; rewrite Hn; [|destruct (alloc_norms alloc)]; reflexivity.
Qed.

Lemma pixel_offsets_no_width (height ch : nat) : pixel_offsets 0 height ch = [].
Proof.
  unfold pixel_offsets. rewrite Nat.mul_0_r. now destruct (Nat.eqb ch 0).
Qed.

(** X12. On a region without width [process] writes nothing: for a
    four-channel input it returns the output buffer as it received it and an
    empty log, in every mode and whatever the allocations return (a refused
    mask buffer included). *)
Theorem X12_empty_region_leaves_the_output_untouched
    (gui_attached show_mask : bool) (piece : dt_dev_pixelpipe_iop_t)
    (work_profile : option dt_iop_order_iccprofile_info_t)
    (data : dt_iop_filmicrgb_data_t) (ivoid ovoid : buffer)
    (roi_in roi_out : dt_iop_roi_t) (alloc : process_alloc) :
  colors piece = 4%Z ->
  (roi_width roi_out <= 0)%Z ->
  process gui_attached show_mask piece work_profile data ivoid ovoid roi_in roi_out alloc
  = Some (ovoid, []).
Proof.
  intros Hc Hw.
  assert (Hw0 : Z.to_nat (roi_width roi_out) = 0%nat) by lia.
  unfold process, process_mask, mask_clipped_pixels. rewrite Hc, Hw0.
  cbn [Z.eqb Pos.eqb negb]. rewrite !pixel_offsets_no_width. cbn [fold_left fst snd].
  assert (Htone : forall in_, process_tonemap in_ ovoid work_profile data roi_in roi_out
                              = ovoid).
  { intros in_. unfold process_tonemap, filmic_split_v1, filmic_split_v2,
      filmic_chroma_v1, filmic_chroma_v2.
    rewrite Hw0, !pixel_offsets_no_width. cbn [fold_left].
    repeat match goal with |- context [if ?b then _ else _] => destruct b end; reflexivity. }
  assert (Hhigh : forall mask, process_highlights ivoid false mask data piece work_profile
                                 roi_in roi_out alloc = (ivoid, [])).
  { intros mask. unfold process_highlights.
    destruct mask; [destruct (alloc_reconstructed alloc)|]; reflexivity. }
  assert (Hmask : forall mask, display_mask mask ovoid 0 (Z.to_nat (roi_height roi_out)) 4
                               = ovoid).
  { intros mask. unfold display_mask. now rewrite Nat.mul_0_r. }
  assert (Halpha : dt_iop_alpha_copy ivoid ovoid 0 (Z.to_nat (roi_height roi_out)) = ovoid).
  { unfold dt_iop_alpha_copy. now rewrite pixel_offsets_no_width. }
  destruct (alloc_mask alloc) as [mask0|]; cbn [Z.gtb Z.compare];
    destruct (gui_attached && pipe_type_full piece && show_mask)%bool;
    rewrite ?Hmask, ?Hhigh, ?Htone, ?Halpha;
    try reflexivity; destruct (pipe_mask_display piece); now rewrite ?Halpha.
Qed.

Lemma rgb_kernel_cell (g : rgb -> rgb) (in_ out : buffer) (width height j : nat) :
  fold_left (fun o k => store_rgb o k (g (pixel_at in_ k))) (pixel_offsets width height 4) out j
  = if ((j / 4 <? height * width)%nat && (j mod 4 <? 3)%nat)%bool
    then chan (g (pixel_at in_ (j / 4 * 4)%nat)) (j mod 4) else out j.
Proof.
  rewrite pixel_offsets_4.
  exact (pixel_loop_rgb (fun k => g (pixel_at in_ k)) (height * width) out j).
Qed.

Lemma rgb_kernel_pixel (g : rgb -> rgb) (in_ out : buffer) (width height i c : nat) :
  (i < height * width)%nat -> (c < 3)%nat ->
  fold_left (fun o k => store_rgb o k (g (pixel_at in_ k))) (pixel_offsets width height 4) out
    (4 * i + c)%nat
  = chan (g (pixel_at in_ (4 * i)%nat)) c.
Proof.
  intros Hi Hc. rewrite rgb_kernel_cell.
  destruct (pixel_channel_index i c Hc) as [-> ->].
  replace (i <? height * width)%nat with true by (symmetry; apply Nat.ltb_lt; lia).
  replace (c <? 3)%nat with true by (symmetry; apply Nat.ltb_lt; lia).
  cbn [andb]. now rewrite (Nat.mul_comm i 4).
Qed.

Lemma rgb_kernel_frame (g : rgb -> rgb) (in_ out : buffer) (width height k : nat) :
  (height * width * 4 <= k)%nat ->
  fold_left (fun o k => store_rgb o k (g (pixel_at in_ k))) (pixel_offsets width height 4) out k
  = out k.
Proof.
  intros Hk. rewrite rgb_kernel_cell.
  replace (k / 4 <? height * width)%nat with false; [reflexivity|].
  symmetry. apply Nat.ltb_ge. apply Nat.div_le_lower_bound; lia.
Qed.

(** X13. The four tone-mapping kernels are pixel-wise and stay inside the
    region: the colour cells they write for a pixel depend on the three
    colour cells of that input pixel only (neither on its neighbours nor on
    what the output buffer held), and no cell beyond the
    [height * width * 4] cells of the region is written. *)
Theorem X13_tone_mapping_kernels_are_pixelwise
    (in1 in2 out1 out2 : buffer) (work_profile : option dt_iop_order_iccprofile_info_t)
    (data : dt_iop_filmicrgb_data_t) (spline : dt_iop_filmic_rgb_spline_t)
    (variant : Z) (width height i c : nat) :
  (i < height * width)%nat -> (c < 3)%nat ->
  pixel_at in1 (4 * i)%nat = pixel_at in2 (4 * i)%nat ->
  (filmic_split_v1 in1 out1 work_profile data spline width height 4 (4 * i + c)%nat
   = filmic_split_v1 in2 out2 work_profile data spline width height 4 (4 * i + c)%nat
   /\ filmic_split_v2 in1 out1 work_profile data spline width height 4 (4 * i + c)%nat
      = filmic_split_v2 in2 out2 work_profile data spline width height 4 (4 * i + c)%nat
   /\ filmic_chroma_v1 in1 out1 work_profile data spline variant width height 4
        (4 * i + c)%nat
      = filmic_chroma_v1 in2 out2 work_profile data spline variant width height 4
          (4 * i + c)%nat
   /\ filmic_chroma_v2 in1 out1 work_profile data spline variant width height 4
        (4 * i + c)%nat
      = filmic_chroma_v2 in2 out2 work_profile data spline variant width height 4
          (4 * i + c)%nat)
  /\ (forall k, (height * width * 4 <= k)%nat ->
        filmic_split_v1 in1 out1 work_profile data spline width height 4 k = out1 k
        /\ filmic_split_v2 in1 out1 work_profile data spline width height 4 k = out1 k
        /\ filmic_chroma_v1 in1 out1 work_profile data spline variant width height 4 k
           = out1 k
        /\ filmic_chroma_v2 in1 out1 work_profile data spline variant width height 4 k
           = out1 k).
Proof.
  intros Hi Hc Hpix.
  unfold filmic_split_v1, filmic_split_v2, filmic_chroma_v1, filmic_chroma_v2. split.
  - rewrite !(rgb_kernel_pixel _ _ _ width height i c Hi Hc), Hpix. repeat split; reflexivity.
  - intros k Hk. rewrite !(rgb_kernel_frame _ _ _ width height k Hk). repeat split; reflexivity.
Qed.

(** X14. Without chroma preservation [process] runs the kernel over
    [roi_in->height] rows of [roi_out->width] pixels, not over the rows of
    the output region: the colour cells of exactly these pixels are
    overwritten by the split kernel of the committed version, applied to the
    pixel of the input at the same place. *)
Theorem X14_split_kernels_cover_the_rows_of_the_input_region
    (in_ out : buffer) (work_profile : option dt_iop_order_iccprofile_info_t)
    (data : dt_iop_filmicrgb_data_t) (roi_in roi_out : dt_iop_roi_t) (i c : nat) :
  d_preserve_color data = DT_FILMIC_METHOD_NONE ->
  d_version data = DT_FILMIC_COLORSCIENCE_V1 \/ d_version data = DT_FILMIC_COLORSCIENCE_V2 ->
  (c < 3)%nat ->
  let pixels := (Z.to_nat (roi_height roi_in) * Z.to_nat (roi_width roi_out))%nat in
  let kernel :=
    if (d_version data =? DT_FILMIC_COLORSCIENCE_V1)%Z
    then filmic_split_v1_pixel work_profile data (d_spline data)
    else filmic_split_v2_pixel work_profile data (d_spline data) in
  process_tonemap in_ out work_profile data roi_in roi_out (4 * i + c)%nat
  = if (i <? pixels)%nat then chan (kernel (pixel_at in_ (4 * i)%nat)) c
    else out (4 * i + c)%nat.
Proof.
  intros Hv Hver Hc pixels kernel.
  unfold process_tonemap. rewrite Hv. cbn [DT_FILMIC_METHOD_NONE Z.eqb].
  unfold kernel, filmic_split_v1, filmic_split_v2.
  destruct (i <? pixels)%nat eqn:Hi.
  - apply Nat.ltb_lt in Hi.
    destruct Hver as [-> | ->]; cbn [DT_FILMIC_COLORSCIENCE_V1 DT_FILMIC_COLORSCIENCE_V2 Z.eqb];
      now apply rgb_kernel_pixel.
  - apply Nat.ltb_ge in Hi.
    destruct Hver as [-> | ->]; cbn [DT_FILMIC_COLORSCIENCE_V1 DT_FILMIC_COLORSCIENCE_V2 Z.eqb];
      apply rgb_kernel_frame; unfold pixels in Hi; lia.
Qed.

(** ** The B-spline blur *)

Lemma fold_left_ext_in {A B : Type} (f g : A -> B -> A) (l : list B) :
  (forall a x, In x l -> f a x = g a x) ->
  forall a, fold_left f l a = fold_left g l a.
Proof.
  induction l as [|x l IH]; intros H a; [reflexivity|].
  cbn [fold_left]. rewrite (H a x (or_introl eq_refl)).
  apply IH. intros a' x' Hx'. apply H. now right.
Qed.

Lemma fold_left_over_map {A B C : Type} (f : A -> C -> A) (g : B -> C) (l : list B) :
  forall a, fold_left f (map g l) a = fold_left (fun a x => f a (g x)) l a.
Proof. induction l as [|x l IH]; intros a; [reflexivity|]. cbn [map fold_left]. apply IH. Qed.

Lemma seq_from (a n : nat) : seq a n = map (fun j => (a + j)%nat) (seq 0 n).
Proof.
  induction n as [|n IH]; [reflexivity|].
  rewrite (seq_S n a), (seq_S n 0), map_app, <- IH. reflexivity.
Qed.

(** Two nested loops over the rows and the columns visit the pixels in
    row-major order. *)
Lemma nested_loop_flatten {A : Type} (F : nat -> nat -> A -> A) (width height : nat) (a : A) :
  fold_left (fun a i => fold_left (fun a j => F i j a) (seq 0 width) a) (seq 0 height) a
  = fold_left (fun a p => F (p / width)%nat (p mod width)%nat a) (seq 0 (height * width)) a.
Proof.
  induction height as [|h IH].
  - reflexivity.
  - rewrite (seq_S h 0), fold_left_app, IH. cbn [fold_left Nat.add].
    replace (S h * width)%nat with (h * width + width)%nat by lia.
    rewrite seq_app, fold_left_app. cbn [Nat.add].
    rewrite (seq_from (h * width) width), fold_left_over_map.
    apply fold_left_ext_in. intros a' j Hj. apply in_seq in Hj.
    assert (Hw : width <> 0%nat) by lia.
    replace ((h * width + j) / width)%nat with h
      by (rewrite Nat.div_add_l, Nat.div_small by lia; lia).
    replace ((h * width + j) mod width)%nat with j
      by (rewrite Nat.add_comm, Nat.Div0.mod_add, Nat.mod_small by lia; lia).
    reflexivity.
Qed.

Lemma pixel_loop_rgb_seq (g : nat -> rgb) (n : nat) (out : buffer) (k : nat) :
  fold_left (fun o p => store_rgb o (p * 4)%nat (g p)) (seq 0 n) out k
  = if ((k / 4 <? n)%nat && (k mod 4 <? 3)%nat)%bool
    then chan (g (k / 4)%nat) (k mod 4) else out k.
Proof.
  pose proof (pixel_loop_rgb (fun q => g (q / 4)%nat) n out k) as H.
  rewrite fold_left_over_map in H.
  rewrite Nat.div_mul in H by lia. rewrite <- H.
  apply (f_equal (fun b : buffer => b k)).
  apply fold_left_ext_in. intros o p _. now rewrite Nat.div_mul by lia.
Qed.

Lemma pixel_loop_cells (v : nat -> nat -> R) (n : nat) (out : buffer) (k : nat) :
  fold_left (fun o p => fold_left (fun o c => store o (p * 4 + c)%nat (v p c)) (seq 0 4) o)
    (seq 0 n) out k
  = if (k / 4 <? n)%nat then v (k / 4)%nat (k mod 4) else out k.
Proof.
  induction n as [|n IH].
  - reflexivity.
  - rewrite (seq_S n 0), fold_left_app. cbn [fold_left seq Nat.add].
    set (o := fold_left _ _ out) in *.
    pose proof (Nat.div_mod_eq k 4) as E.
    pose proof (Nat.mod_upper_bound k 4 ltac:(lia)) as U.
    destruct (Nat.eq_dec (k / 4) n) as [Hp|Hp].
    + replace (k / 4 <? S n)%nat with true by (symmetry; apply Nat.ltb_lt; lia).
      assert (Hk : (k = n * 4 + k mod 4)%nat) by lia.
      rewrite Hp.
      destruct (k mod 4) as [|[|[|[|m]]]] eqn:Hm; try lia; rewrite Hk;
        repeat first [ rewrite store_eq | rewrite store_neq by lia ]; reflexivity.
    + repeat rewrite store_neq by lia. rewrite IH.
      replace (k / 4 <? S n)%nat with (k / 4 <? n)%nat; [reflexivity|].
      destruct (k / 4 <? n)%nat eqn:H1; symmetry;
        [apply Nat.ltb_lt in H1; apply Nat.ltb_lt | apply Nat.ltb_ge in H1; apply Nat.ltb_ge];
        lia.
Qed.

(** The index arithmetic in [size_t] and its conversion to [int]. *)
Lemma tap_index_mod (mult jj j : nat) :
  tap_index mult jj j
  = ((Z.of_nat j + (Z.of_nat jj - 2) * Z.of_nat mult) mod 2 ^ 64)%Z.
Proof.
  unfold tap_index, size_t_wrap. change (Z.of_nat ((fsize - 1) / 2)) with 2%Z.
  rewrite <- Zplus_mod_idemp_l, Zmult_mod_idemp_r, Zplus_mod_idemp_l.
  f_equal. lia.
Qed.

Lemma int_wrap_mod (z : Z) : int_wrap (z mod 2 ^ 64) = int_wrap z.
Proof.
  unfold int_wrap. f_equal.
  rewrite <- (Zplus_mod_idemp_l (z mod 2 ^ 64)).
  rewrite (Z.mod_mod_divide z (2 ^ 64) (2 ^ 32)) by (exists (2 ^ 32)%Z; lia).
  now rewrite Zplus_mod_idemp_l.
Qed.

Lemma edge_tap_in_line (mult jj j size : nat) :
  (0 < size)%nat -> (edge_tap mult jj j size < size)%nat.
Proof. intros Hs. unfold edge_tap. lia. Qed.

(** Both branches of the source, the bound-checked one in [int] and the
    fast track in [size_t], read the sample [edge_tap]. *)
Lemma tap_edge (mult jj j size : nat) :
  (jj < 5)%nat -> (j < size)%nat ->
  (2 * Z.of_nat mult + Z.of_nat size <= 2 ^ 31)%Z ->
  tap (negb ((2 * mult <? j)%nat
             && (Z.of_nat j <? size_t_wrap (Z.of_nat size - 2 * Z.of_nat mult))%Z))
      mult jj j 0 (Z.of_nat size - 1)
  = Z.of_nat (edge_tap mult jj j size).
Proof.
  intros Hjj Hj Hb. unfold tap, edge_tap.
  rewrite tap_index_mod, int_wrap_mod.
  set (t := (Z.of_nat j + (Z.of_nat jj - 2) * Z.of_nat mult)%Z).
  assert (Ht : (Z.of_nat j - 2 * Z.of_nat mult <= t <= Z.of_nat j + 2 * Z.of_nat mult)%Z)
    by (unfold t; nia).
  destruct (2 * mult <? j)%nat eqn:H1; cbn [andb negb].
  - apply Nat.ltb_lt in H1.
    destruct (Z.of_nat j <? size_t_wrap (Z.of_nat size - 2 * Z.of_nat mult))%Z eqn:H2;
      cbn [negb].
    + apply Z.ltb_lt in H2. unfold size_t_wrap in H2.
      rewrite Z.mod_small in H2 by lia.
      rewrite Z.mod_small by lia. lia.
    + rewrite int_wrap_small by lia.
      destruct (t <? 0)%Z eqn:E1; [apply Z.ltb_lt in E1; lia|apply Z.ltb_ge in E1].
      destruct (t >? Z.of_nat size - 1)%Z eqn:E2;
        [apply Z.gtb_lt in E2 | rewrite Z.gtb_ltb in E2; apply Z.ltb_ge in E2]; lia.
  - rewrite int_wrap_small by lia.
    destruct (t <? 0)%Z eqn:E1; [apply Z.ltb_lt in E1; lia|apply Z.ltb_ge in E1].
    destruct (t >? Z.of_nat size - 1)%Z eqn:E2;
      [apply Z.gtb_lt in E2 | rewrite Z.gtb_ltb in E2; apply Z.ltb_ge in E2]; lia.
Qed.

Lemma blur_2D_Bspline_vertical_cell (in_ out : buffer) (width height mult : nat)
    (bound_left bound_right : Z) (k : nat) :
  blur_2D_Bspline_vertical in_ out width height 4 mult bound_left bound_right k
  = if ((k / 4 <? height * width)%nat && (k mod 4 <? 3)%nat)%bool
    then
      let i := (k / 4 / width)%nat in
      let j := ((k / 4) mod width)%nat in
      let check :=
        negb ((2 * mult <? j)%nat
              && (Z.of_nat j <? size_t_wrap (Z.of_nat width - 2 * Z.of_nat mult))%Z) in
      fold_left (fun acc jj =>
          acc + filter jj
                * in_ (Z.to_nat (size_t_wrap
                         ((Z.of_nat (i * width) + tap check mult jj j bound_left bound_right)
                          * Z.of_nat 4 + Z.of_nat (k mod 4)))))
        (seq 0 fsize) 0
    else out k.
Proof.
  unfold blur_2D_Bspline_vertical. cbn zeta.
  rewrite nested_loop_flatten.
  rewrite (fold_left_ext_in _
             (fun o p => store_rgb o (p * 4)%nat
                (let acc c :=
                   fold_left (fun acc jj =>
                     acc + filter jj
                           * in_ (Z.to_nat (size_t_wrap
                                    ((Z.of_nat (p / width * width)
                                      + tap (negb ((2 * mult <? p mod width)%nat
                                                   && (Z.of_nat (p mod width)
                                                       <? size_t_wrap (Z.of_nat width
                                                                       - 2 * Z.of_nat mult))%Z))
                                          mult jj (p mod width) bound_left bound_right)
                                     * Z.of_nat 4 + Z.of_nat c))))
                     (seq 0 fsize) 0 in
                 (acc 0%nat, acc 1%nat, acc 2%nat)))).
  - rewrite pixel_loop_rgb_seq.
    destruct ((k / 4 <? height * width)%nat && (k mod 4 <? 3)%nat)%bool eqn:Hin;
      [|reflexivity].
    apply andb_true_iff in Hin. destruct Hin as [_ Hc]. apply Nat.ltb_lt in Hc.
    cbn zeta. destruct (k mod 4) as [|[|[|m]]]; try lia; reflexivity.
  - intros o p _. cbn zeta.
    replace ((p / width * width + p mod width) * 4)%nat with (p * 4)%nat; [reflexivity|].
    pose proof (Nat.div_mod_eq p width). lia.
Qed.

Lemma blur_2D_Bspline_horizontal_cell (in_ out : buffer) (width height mult : nat)
    (bound_top bound_bot : Z) (k : nat) :
  blur_2D_Bspline_horizontal in_ out width height 4 mult bound_top bound_bot k
  = if (k / 4 <? height * width)%nat
    then
      let i := (k / 4 / width)%nat in
      let j := ((k / 4) mod width)%nat in
      let check :=
        negb ((2 * mult <? i)%nat
              && (Z.of_nat i <? size_t_wrap (Z.of_nat height - 2 * Z.of_nat mult))%Z) in
      if (k mod 4 <? 3)%nat then
        fold_left (fun acc ii =>
            acc + filter ii
                  * in_ (Z.to_nat (size_t_wrap
                           ((tap check mult ii i bound_top bound_bot * Z.of_nat width
                             + Z.of_nat j) * Z.of_nat 4 + Z.of_nat (k mod 4)))))
          (seq 0 fsize) 0
      else 0
    else out k.
Proof.
  unfold blur_2D_Bspline_horizontal. cbn zeta.
  rewrite nested_loop_flatten.
  rewrite (fold_left_ext_in _
             (fun o p => fold_left (fun o c => store o (p * 4 + c)%nat
                (if (c <? 3)%nat then
                   fold_left (fun acc ii =>
                     acc + filter ii
                           * in_ (Z.to_nat (size_t_wrap
                                    ((tap (negb ((2 * mult <? p / width)%nat
                                                 && (Z.of_nat (p / width)
                                                     <? size_t_wrap (Z.of_nat height
                                                                     - 2 * Z.of_nat mult))%Z))
                                        mult ii (p / width) bound_top bound_bot
                                      * Z.of_nat width + Z.of_nat (p mod width))
                                     * Z.of_nat 4 + Z.of_nat c))))
                     (seq 0 fsize) 0
                 else 0)) (seq 0 4) o)).
  - rewrite (pixel_loop_cells
               (fun p c =>
                  if (c <? 3)%nat then
                    fold_left (fun acc ii =>
                      acc + filter ii
                            * in_ (Z.to_nat (size_t_wrap
                                     ((tap (negb ((2 * mult <? p / width)%nat
                                                  && (Z.of_nat (p / width)
                                                      <? size_t_wrap (Z.of_nat height
                                                                      - 2 * Z.of_nat mult))%Z))
                                         mult ii (p / width) bound_top bound_bot
                                       * Z.of_nat width + Z.of_nat (p mod width))
                                      * Z.of_nat 4 + Z.of_nat c))))
                      (seq 0 fsize) 0
                  else 0)).
    reflexivity.
  - intros o p _.
    replace ((p / width * width + p mod width) * 4)%nat with (p * 4)%nat; [reflexivity|].
    pose proof (Nat.div_mod_eq p width). lia.
Qed.

Lemma bspline_sum_const (sample : nat -> R) (v : R) :
  (forall jj, (jj < 5)%nat -> sample jj = v) -> bspline_sum sample = v.
Proof.
  intros H. unfold bspline_sum, fsize. cbn [seq fold_left].
  rewrite (H 0%nat), (H 1%nat), (H 2%nat), (H 3%nat), (H 4%nat) by lia.
  unfold filter. cbn [nth]. lra.
Qed.

Lemma pixel_of_cell (width i j c : nat) :
  (j < width)%nat -> (c < 4)%nat ->
  (((i * width + j) * 4 + c) / 4 = i * width + j)%nat
  /\ (((i * width + j) * 4 + c) mod 4 = c)%nat
  /\ ((i * width + j) / width = i)%nat
  /\ ((i * width + j) mod width = j)%nat.
Proof.
  intros Hj Hc.
  replace ((i * width + j) * 4 + c)%nat with (4 * (i * width + j) + c)%nat by lia.
  destruct (pixel_cell_index (i * width + j) c Hc) as [-> ->].
  rewrite Nat.div_add_l, Nat.div_small by lia.
  rewrite (Nat.add_comm (i * width) j), Nat.Div0.mod_add, Nat.mod_small by lia. lia.
Qed.

Lemma blur_2D_Bspline_vertical_pixel (in_ out : buffer) (width height mult i j c : nat) :
  (i < height)%nat -> (j < width)%nat -> (c < 3)%nat ->
  (2 * Z.of_nat mult + Z.of_nat width <= 2 ^ 31)%Z ->
  (Z.of_nat (height * width * 4) <= 2 ^ 64)%Z ->
  blur_2D_Bspline_vertical in_ out width height 4 mult 0 (Z.of_nat width - 1)
    ((i * width + j) * 4 + c)%nat
  = bspline_sum (fun jj => in_ ((i * width + edge_tap mult jj j width) * 4 + c)%nat).
Proof.
  intros Hi Hj Hc Hmult Hsize.
  rewrite blur_2D_Bspline_vertical_cell.
  destruct (pixel_of_cell width i j c Hj ltac:(lia)) as (-> & -> & -> & ->).
  replace (i * width + j <? height * width)%nat with true
    by (symmetry; apply Nat.ltb_lt; nia).
  replace (c <? 3)%nat with true by (symmetry; apply Nat.ltb_lt; lia).
  cbn [andb]. cbn zeta. unfold bspline_sum.
  apply fold_left_ext_in. intros acc jj Hjj. apply in_seq in Hjj. unfold fsize in Hjj.
  rewrite tap_edge by lia.
  pose proof (edge_tap_in_line mult jj j width ltac:(lia)) as He.
  replace ((Z.of_nat (i * width) + Z.of_nat (edge_tap mult jj j width)) * Z.of_nat 4
           + Z.of_nat c)%Z
    with (Z.of_nat ((i * width + edge_tap mult jj j width) * 4 + c)) by lia.
  unfold size_t_wrap. rewrite Z.mod_small by nia. now rewrite Nat2Z.id.
Qed.

Lemma blur_2D_Bspline_horizontal_pixel (in_ out : buffer) (width height mult i j c : nat) :
  (i < height)%nat -> (j < width)%nat -> (c < 3)%nat ->
  (2 * Z.of_nat mult + Z.of_nat height <= 2 ^ 31)%Z ->
  (Z.of_nat (height * width * 4) <= 2 ^ 64)%Z ->
  blur_2D_Bspline_horizontal in_ out width height 4 mult 0 (Z.of_nat height - 1)
    ((i * width + j) * 4 + c)%nat
  = bspline_sum (fun ii => in_ ((edge_tap mult ii i height * width + j) * 4 + c)%nat).
Proof.
  intros Hi Hj Hc Hmult Hsize.
  rewrite blur_2D_Bspline_horizontal_cell.
  destruct (pixel_of_cell width i j c Hj ltac:(lia)) as (-> & -> & -> & ->).
  replace (i * width + j <? height * width)%nat with true
    by (symmetry; apply Nat.ltb_lt; nia).
  replace (c <? 3)%nat with true by (symmetry; apply Nat.ltb_lt; lia).
  cbn zeta. unfold bspline_sum.
  apply fold_left_ext_in. intros acc ii Hii. apply in_seq in Hii. unfold fsize in Hii.
  rewrite tap_edge by lia.
  pose proof (edge_tap_in_line mult ii i height ltac:(lia)) as He.
  replace ((Z.of_nat (edge_tap mult ii i height) * Z.of_nat width + Z.of_nat j) * Z.of_nat 4
           + Z.of_nat c)%Z
    with (Z.of_nat ((edge_tap mult ii i height * width + j) * 4 + c)) by lia.
  unfold size_t_wrap. rewrite Z.mod_small by nia. now rewrite Nat2Z.id.
Qed.

Lemma blur_2D_Bspline_horizontal_alpha (in_ out : buffer) (width height mult i j : nat)
    (bound_top bound_bot : Z) :
  (i < height)%nat -> (j < width)%nat ->
  blur_2D_Bspline_horizontal in_ out width height 4 mult bound_top bound_bot
    ((i * width + j) * 4 + 3)%nat = 0.
Proof.
  intros Hi Hj. rewrite blur_2D_Bspline_horizontal_cell.
  destruct (pixel_of_cell width i j 3 Hj ltac:(lia)) as (-> & -> & _).
  now replace (i * width + j <? height * width)%nat with true
    by (symmetry; apply Nat.ltb_lt; nia).
Qed.

(** X15. [blur_2D_Bspline_vertical], called with the bounds 0 and
    [width - 1] as [reconstruct_highlights] calls it, convolves each line
    with the kernel (1, 4, 6, 4, 1)/16 dilated by [mult], the line being
    continued by its end pixels: the bound-checked [int] branch and the
    unchecked [size_t] fast track both read the sample
    [clamp (j + (jj - 2) * mult, 0, width - 1)] of the same line, so no read
    leaves the line.  The alpha cells and the cells beyond the region are
    not written.  (Sizes: [2 * mult + width <= 2^31], region within the
    [size_t] range.) *)
Theorem X15_vertical_blur_convolves_lines_with_replicated_ends
    (in_ out : buffer) (width height mult i j c : nat) :
  (i < height)%nat -> (j < width)%nat -> (c < 3)%nat ->
  (2 * Z.of_nat mult + Z.of_nat width <= 2 ^ 31)%Z ->
  (Z.of_nat (height * width * 4) <= 2 ^ 64)%Z ->
  let result :=
    blur_2D_Bspline_vertical in_ out width height 4 mult 0 (Z.of_nat width - 1) in
  result ((i * width + j) * 4 + c)%nat
  = bspline_sum (fun jj => in_ ((i * width + edge_tap mult jj j width) * 4 + c)%nat)
  /\ (forall jj, (edge_tap mult jj j width < width)%nat)
  /\ result ((i * width + j) * 4 + 3)%nat = out ((i * width + j) * 4 + 3)%nat
  /\ (forall k, (height * width * 4 <= k)%nat -> result k = out k).
Proof.
  intros Hi Hj Hc Hmult Hsize result. unfold result. split; [|split; [|split]].
  - now apply blur_2D_Bspline_vertical_pixel.
  - intros jj. apply edge_tap_in_line. lia.
  - rewrite blur_2D_Bspline_vertical_cell.
    destruct (pixel_of_cell width i j 3 Hj ltac:(lia)) as (-> & -> & _).
    cbn [Nat.ltb Nat.leb]. now rewrite andb_false_r.
  - intros k Hk. rewrite blur_2D_Bspline_vertical_cell.
    replace (k / 4 <? height * width)%nat with false; [reflexivity|].
    symmetry. apply Nat.ltb_ge. apply Nat.div_le_lower_bound; lia.
Qed.

(** X16. [blur_2D_Bspline_horizontal], called with the bounds 0 and
    [height - 1], convolves each column with the same dilated kernel, the
    column being continued by its end pixels, in both branches of the
    source; unlike the other pass it writes all four cells of a pixel and
    stores 0 in the alpha cell.  Cells beyond the region are not written. *)
Theorem X16_horizontal_blur_convolves_columns_and_zeroes_alpha
    (in_ out : buffer) (width height mult i j c : nat) :
  (i < height)%nat -> (j < width)%nat -> (c < 3)%nat ->
  (2 * Z.of_nat mult + Z.of_nat height <= 2 ^ 31)%Z ->
  (Z.of_nat (height * width * 4) <= 2 ^ 64)%Z ->
  let result :=
    blur_2D_Bspline_horizontal in_ out width height 4 mult 0 (Z.of_nat height - 1) in
  result ((i * width + j) * 4 + c)%nat
  = bspline_sum (fun ii => in_ ((edge_tap mult ii i height * width + j) * 4 + c)%nat)
  /\ (forall ii, (edge_tap mult ii i height < height)%nat)
  /\ result ((i * width + j) * 4 + 3)%nat = 0
  /\ (forall k, (height * width * 4 <= k)%nat -> result k = out k).
Proof.
  intros Hi Hj Hc Hmult Hsize result. unfold result. split; [|split; [|split]].
  - now apply blur_2D_Bspline_horizontal_pixel.
  - intros ii. apply edge_tap_in_line. lia.
  - now apply blur_2D_Bspline_horizontal_alpha.
  - intros k Hk. rewrite blur_2D_Bspline_horizontal_cell.
    replace (k / 4 <? height * width)%nat with false; [reflexivity|].
    symmetry. apply Nat.ltb_ge. apply Nat.div_le_lower_bound; lia.
Qed.

(** X17. The blur of one wavelet scale, the pass along the lines followed by
    the pass along the columns as [reconstruct_highlights] chains them, has
    unit gain: an image whose colour channels are constant over the region
    comes out with the same constants at every pixel, borders included, and
    with alpha 0. *)
Theorem X17_two_pass_blur_preserves_flat_images
    (in_ temp out : buffer) (width height mult : nat) (v : nat -> R) (i j c : nat) :
  (i < height)%nat -> (j < width)%nat -> (c < 3)%nat ->
  (2 * Z.of_nat mult + Z.of_nat width <= 2 ^ 31)%Z ->
  (2 * Z.of_nat mult + Z.of_nat height <= 2 ^ 31)%Z ->
  (Z.of_nat (height * width * 4) <= 2 ^ 64)%Z ->
  (forall p c', (p < height * width)%nat -> (c' < 3)%nat -> in_ (p * 4 + c')%nat = v c') ->
  let LF :=
    blur_2D_Bspline_horizontal
      (blur_2D_Bspline_vertical in_ temp width height 4 mult 0 (Z.of_nat width - 1))
      out width height 4 mult 0 (Z.of_nat height - 1) in
  LF ((i * width + j) * 4 + c)%nat = v c
  /\ LF ((i * width + j) * 4 + 3)%nat = 0.
Proof.
  intros Hi Hj Hc Hw Hh Hsize Hflat LF. unfold LF. split.
  - rewrite blur_2D_Bspline_horizontal_pixel by assumption.
    apply bspline_sum_const. intros ii Hii.
    pose proof (edge_tap_in_line mult ii i height ltac:(lia)) as He.
    rewrite blur_2D_Bspline_vertical_pixel by assumption.
    apply bspline_sum_const. intros jj Hjj.
    pose proof (edge_tap_in_line mult jj j width ltac:(lia)) as He'.
    apply Hflat; [nia | exact Hc].
  - now apply blur_2D_Bspline_horizontal_alpha.
Qed.

(** ** Further properties of the wavelet decomposition *)

Lemma fabsf_fmaxabsf (a b : R) : fabsf (fmaxabsf a b) = fmaxf (fabsf a) (fabsf b).
Proof.
  unfold fmaxabsf, fmaxf, fabsf. cbn zeta.
  destruct (Rgt_dec (Rabs a) (Rabs b)); unfold Rgt in *; case_minmax; lra.
Qed.

Lemma fabsf_fminabsf (a b : R) : fabsf (fminabsf a b) = fminf (fabsf a) (fabsf b).
Proof.
  unfold fminabsf, fminf, fabsf. cbn zeta.
  destruct (Rlt_dec (Rabs a) (Rabs b)); case_minmax; lra.
Qed.

Lemma detail_level_loop (combine : R -> R -> R) (detail LF HF0 texture0 : buffer) (n : nat) :
  let st :=
    fold_left (fun (st : buffer * buffer) k =>
      let '(HF, texture) := st in
      let HF := fold_left (fun HF c => store HF (k + c)%nat (detail (k + c)%nat - LF (k + c)%nat))
                  (seq 0 3) HF in
      (HF, store texture (k / 4)%nat
             (combine (combine (HF k) (HF (k + 1)%nat)) (HF (k + 2)%nat))))
      (map (fun i => (i * 4)%nat) (seq 0 n)) (HF0, texture0) in
  let high j := detail j - LF j in
  (forall j, fst st j = if ((j / 4 <? n)%nat && (j mod 4 <? 3)%nat)%bool
                        then high j else HF0 j)
  /\ (forall i, snd st i = if (i <? n)%nat
                           then combine (combine (high (i * 4)%nat) (high (i * 4 + 1)%nat))
                                  (high (i * 4 + 2)%nat)
                           else texture0 i).
Proof.
  induction n as [|n [IHh IHt]]; cbn zeta.
  - split; [|reflexivity]. intros j. cbn [seq map fold_left fst].
    now destruct (j mod 4 <? 3)%nat.
  - rewrite (seq_S n 0), map_app, fold_left_app. cbn [map fold_left Nat.add seq].
    cbn zeta in IHh, IHt.
    destruct (fold_left _ _ (HF0, texture0)) as [HF texture]. cbn [fst snd] in *.
    rewrite Nat.div_mul by lia.
    split.
    + intros j.
      pose proof (Nat.div_mod_eq j 4) as E.
      pose proof (Nat.mod_upper_bound j 4 ltac:(lia)) as U.
      destruct (Nat.eq_dec (j / 4) n) as [Hp|Hp].
      * assert (Hlt' : (j / 4 <? S n)%nat = true) by (apply Nat.ltb_lt; lia).
        assert (Hlt : (j / 4 <? n)%nat = false) by (apply Nat.ltb_ge; lia).
        specialize (IHh j). rewrite Hlt in IHh. rewrite Hlt'. cbn [andb] in *.
        destruct (j mod 4 <? 3)%nat eqn:Hc.
        -- apply Nat.ltb_lt in Hc.
           assert (Hj : (j = n * 4 + j mod 4)%nat) by lia.
           destruct (j mod 4) as [|[|[|m]]] eqn:Hm; try lia; rewrite Hj;
             rewrite ?Nat.add_0_r;
             repeat first [ rewrite store_eq | rewrite store_neq by lia ]; reflexivity.
        -- apply Nat.ltb_ge in Hc. rewrite !store_neq by lia. exact IHh.
      * rewrite !store_neq by lia. rewrite IHh.
        replace (j / 4 <? S n)%nat with (j / 4 <? n)%nat; [reflexivity|].
        destruct (j / 4 <? n)%nat eqn:H1; symmetry;
          [apply Nat.ltb_lt in H1; apply Nat.ltb_lt | apply Nat.ltb_ge in H1; apply Nat.ltb_ge];
          lia.
    + intros i. destruct (Nat.eq_dec i n) as [->|Hi].
      * rewrite store_eq.
        replace (n <? S n)%nat with true by (symmetry; apply Nat.ltb_lt; lia).
        rewrite ?Nat.add_0_r.
        repeat first [ rewrite store_eq | rewrite store_neq by lia ]. reflexivity.
      * rewrite store_neq by exact Hi. rewrite IHt.
        destruct (i <? n)%nat eqn:H1.
        -- apply Nat.ltb_lt in H1.
           now replace (i <? S n)%nat with true by (symmetry; apply Nat.ltb_lt; lia).
        -- apply Nat.ltb_ge in H1.
           now replace (i <? S n)%nat with false by (symmetry; apply Nat.ltb_ge; lia).
Qed.

(** X18. One level of the wavelet decomposition is exact and its texture
    proxy is a magnitude selection: on every colour cell of the region the
    high frequency stored is [detail - LF], so that high and low frequency
    add up to the signal again, in both variants alike; the grey texture of
    a pixel is the high-frequency channel of largest magnitude in the RGB
    variant and the one of smallest magnitude in the ratios variant. *)
Theorem X18_detail_level_splits_the_signal_exactly
    (detail LF HF0 texture0 : buffer) (width height i c : nat) :
  (i < height * width)%nat -> (c < 3)%nat ->
  let in_RGB := wavelets_detail_level_RGB detail LF HF0 texture0 width height 4 in
  let in_ratios := wavelets_detail_level_ratios detail LF HF0 texture0 width height 4 in
  let high k := fabsf (detail (4 * i + k)%nat - LF (4 * i + k)%nat) in
  fst in_RGB (4 * i + c)%nat + LF (4 * i + c)%nat = detail (4 * i + c)%nat
  /\ fst in_ratios (4 * i + c)%nat = fst in_RGB (4 * i + c)%nat
  /\ fabsf (snd in_RGB i) = fmaxf (fmaxf (high 0%nat) (high 1%nat)) (high 2%nat)
  /\ fabsf (snd in_ratios i) = fminf (fminf (high 0%nat) (high 1%nat)) (high 2%nat).
Proof.
  intros Hi Hc in_RGB in_ratios high.
  destruct (detail_level_loop fmaxabsf detail LF HF0 texture0 (height * width)) as [Hh Ht].
  destruct (detail_level_loop fminabsf detail LF HF0 texture0 (height * width)) as [Hh' Ht'].
  cbn zeta in Hh, Ht, Hh', Ht'.
  unfold in_RGB, in_ratios, wavelets_detail_level_RGB, wavelets_detail_level_ratios.
  rewrite pixel_offsets_4, Hh, Ht, Hh', Ht'.
  destruct (pixel_channel_index i c Hc) as [-> ->].
  replace (i <? height * width)%nat with true by (symmetry; apply Nat.ltb_lt; lia).
  replace (c <? 3)%nat with true by (symmetry; apply Nat.ltb_lt; lia).
  cbn [andb]. rewrite !fabsf_fmaxabsf, !fabsf_fminabsf.
  unfold high. rewrite (Nat.mul_comm i 4), !Nat.add_0_r.
  repeat split; try reflexivity. lra.
Qed.

Lemma reconstruct_scale_frame (in_ mask : buffer) (variant : Z)
    (data : dt_iop_filmicrgb_data_t) (width height scales : nat) (w : wavelets) (s : nat)
    (j : nat) :
  (j mod 4 = 3)%nat \/ (height * width * 4 <= j)%nat ->
  accumulator (reconstruct_scale in_ mask variant data width height scales w s) j
  = accumulator w j.
Proof.
  intros Hj.
  assert (Hout : ((j / 4 <? height * width)%nat && (j mod 4 <? 3)%nat)%bool = false).
  { destruct Hj as [Hj|Hj].
    - rewrite Hj. cbn [Nat.ltb Nat.leb]. apply andb_false_r.
    - replace (j / 4 <? height * width)%nat with false; [reflexivity|].
      symmetry. apply Nat.ltb_ge. apply Nat.div_le_lower_bound; lia. }
  unfold reconstruct_scale. cbn zeta.
  destruct (variant =? 0)%Z.
  - destruct (wavelets_detail_level_RGB _ _ _ _ _ _ _) as [HF1 grey1]. cbn [accumulator].
    now rewrite wavelets_reconstruct_RGB_cell, Hout.
  - destruct (variant =? 1)%Z.
    + destruct (wavelets_detail_level_ratios _ _ _ _ _ _ _) as [HF1 grey1]. cbn [accumulator].
      now rewrite wavelets_reconstruct_ratios_cell, Hout.
    + reflexivity.
Qed.

Lemma reconstruct_scales_frame (in_ mask : buffer) (variant : Z)
    (data : dt_iop_filmicrgb_data_t) (width height scales : nat) (l : list nat) (j : nat) :
  (j mod 4 = 3)%nat \/ (height * width * 4 <= j)%nat ->
  forall w : wavelets,
    accumulator (fold_left (reconstruct_scale in_ mask variant data width height scales) l w) j
    = accumulator w j.
Proof.
  intros Hj. induction l as [|s l IH]; intros w; [reflexivity|].
  cbn [fold_left]. rewrite IH. now apply reconstruct_scale_frame.
Qed.

(** X19. A successful [reconstruct_highlights] scales the alpha of its
    result by the mask and stays inside the region: the wavelet synthesis
    adds to the colour cells only, so the alpha cell of every pixel is left
    as [init_reconstruct] set it, the input alpha times [1 - mask], and the
    cells beyond the [height * width * 4] cells of the region keep what the
    buffer held. *)
Theorem X19_reconstruction_scales_alpha_by_the_mask_and_stays_in_the_region
    (in_ mask reconstructed : buffer) (variant : Z) (data : dt_iop_filmicrgb_data_t)
    (piece : dt_dev_pixelpipe_iop_t) (roi_in roi_out : dt_iop_roi_t) (a : scratch_alloc) :
  scratch_ok a = true ->
  let width := Z.to_nat (roi_width roi_out) in
  let height := Z.to_nat (roi_height roi_out) in
  let result :=
    snd (fst (reconstruct_highlights in_ mask reconstructed variant data piece
                roi_in roi_out a)) in
  (forall i, (i < height * width)%nat ->
     result (4 * i + 3)%nat = in_ (4 * i + 3)%nat * (1 - mask i))
  /\ (forall k, (height * width * 4 <= k)%nat -> result k = reconstructed k).
Proof.
  intros Hok width height. unfold scratch_ok in Hok. unfold reconstruct_highlights.
  destruct (alloc_LF_even a), (alloc_LF_odd a), (alloc_HF_RGB a), (alloc_HF_grey a),
    (alloc_temp a); try discriminate Hok.
  cbn [fst snd]. fold width height. split.
  - intros i Hi.
    destruct (pixel_cell_index i 3 ltac:(lia)) as [Hdiv Hmod].
    rewrite reconstruct_scales_frame by (left; exact Hmod).
    cbn [accumulator]. rewrite init_reconstruct_cell, Hdiv.
    now replace (4 * i + 3 <? height * width * 4)%nat with true
      by (symmetry; apply Nat.ltb_lt; lia).
  - intros k Hk.
    rewrite reconstruct_scales_frame by (right; exact Hk).
    cbn [accumulator]. rewrite init_reconstruct_cell.
    now replace (k <? height * width * 4)%nat with false by (symmetry; apply Nat.ltb_ge; lia).
Qed.

(** X20. [get_scales] always answers between 1 and [MAX_NUM_SCALES] = 12,
    whatever the region and the scale factors are, so that the filter
    dilation [2^s] used by [reconstruct_highlights] never exceeds 2048 and
    the [int] index arithmetic of the blur cannot overflow on lines of up to
    [2^31 - 4096] pixels. *)
Theorem X20_wavelet_scales_and_dilation_are_bounded
    (roi_in : dt_iop_roi_t) (piece : dt_dev_pixelpipe_iop_t) :
  (1 <= get_scales roi_in piece <= MAX_NUM_SCALES)%Z
  /\ forall s size : nat,
       (s < Z.to_nat (get_scales roi_in piece))%nat ->
       (Z.of_nat size <= 2 ^ 31 - 4096)%Z ->
       (2 ^ s <= 2048)%nat /\ (2 * Z.of_nat (2 ^ s) + Z.of_nat size <= 2 ^ 31)%Z.
Proof.
  assert (H : (1 <= get_scales roi_in piece <= MAX_NUM_SCALES)%Z).
  { unfold get_scales, CLAMP_int, MAX_NUM_SCALES. cbn zeta.
    destruct (_ >? 12)%Z eqn:E1; [lia|]. rewrite Z.gtb_ltb in E1. apply Z.ltb_ge in E1.
    destruct (_ <? 1)%Z eqn:E2; [lia|]. apply Z.ltb_ge in E2. lia. }
  split; [exact H|]. intros s size Hs Hsize.
  unfold MAX_NUM_SCALES in H.
  assert (Hp : (2 ^ s <= 2 ^ 11)%nat) by (apply Nat.pow_le_mono_r; lia).
  change (2 ^ 11)%nat with 2048%nat in Hp. lia.
Qed.

(** X21. The norms kept by [compute_ratios] are never below the noise floor
    [2^-16], whatever the norm in use; with the max-RGB norm no ratio it
    stores exceeds 1. *)
Theorem X21_max_rgb_ratios_do_not_exceed_one
    (in_ norms0 ratios0 : buffer) (work_profile : option dt_iop_order_iccprofile_info_t)
    (variant : Z) (width height i c : nat) :
  (i < height * width)%nat -> (c < 3)%nat ->
  noise_floor
    <= fst (compute_ratios in_ norms0 ratios0 work_profile variant width height 4) i
  /\ snd (compute_ratios in_ norms0 ratios0 work_profile DT_FILMIC_METHOD_MAX_RGB
            width height 4) (4 * i + c)%nat <= 1.
Proof.
  intros Hi Hc. unfold compute_ratios. rewrite pixel_offsets_4.
  destruct (compute_ratios_loop in_ norms0 ratios0 work_profile variant (height * width))
    as [Hn _].
  destruct (compute_ratios_loop in_ norms0 ratios0 work_profile DT_FILMIC_METHOD_MAX_RGB
              (height * width)) as [_ Hr].
  cbn zeta in Hn, Hr. rewrite Hn, Hr.
  destruct (pixel_channel_index i c Hc) as [-> ->].
  replace (i <? height * width)%nat with true by (symmetry; apply Nat.ltb_lt; lia).
  replace (c <? 3)%nat with true by (symmetry; apply Nat.ltb_lt; lia).
  cbn [andb]. split; [apply floor_noise_ge|].
  unfold get_pixel_norm. cbn [DT_FILMIC_METHOD_MAX_RGB Z.eqb Pos.eqb].
  pose proof (chan_le_max (pixel_at in_ (i * 4)%nat) c) as Hmax.
  rewrite (chan_pixel_at in_ (i * 4)%nat c Hc) in Hmax.
  replace (i * 4 + c)%nat with (4 * i + c)%nat in Hmax by lia.
  set (pixel := pixel_at in_ (i * 4)%nat) in *.
  set (norm := fmaxf (fmaxf (chan pixel 0) (chan pixel 1)) (chan pixel 2)) in *.
  pose proof (floor_noise_pos norm) as Hpos.
  assert (Hge : norm <= floor_noise norm).
  { unfold floor_noise. destruct (Rlt_dec norm noise_floor); lra. }
  apply (Rmult_le_reg_r (floor_noise norm)); [exact Hpos|].
  unfold Rdiv. rewrite Rmult_assoc, Rinv_l by lra. lra.
Qed.

(** ** Further properties of the curve *)

Lemma apply_spline_segment (spline : dt_iop_filmic_rgb_spline_t) (x : R) :
  apply_spline spline x
  = segment spline (if Rlt_dec x (latitude_min spline) then 0
                    else if Rgt_dec x (latitude_max spline) then 1 else 2)%nat x.
Proof.
  unfold apply_spline, filmic_spline, segment.
  destruct (Rlt_dec x (latitude_min spline)); [reflexivity|].
  destruct (Rgt_dec x (latitude_max spline)); reflexivity.
Qed.

Lemma compute_spline_latitude (p : dt_iop_filmicrgb_params_t)
    (spline0 : dt_iop_filmic_rgb_spline_t) (x : R) :
  white_point_source p <> black_point_source p ->
  let spline := dt_iop_filmic_rgb_compute_spline p spline0 in
  spline_x spline 1%nat <= x <= spline_x spline 3%nat ->
  apply_spline spline x
  = spline_y spline 2%nat + spline_contrast p * (x - spline_x spline 2%nat).
Proof.
  intros Hdr spline Hx.
  destruct (compute_spline_fields p spline0)
    as (Hsx & Hsy & Hmin & Hmax & (H1 & H2 & H3 & H4 & H5) & _ & _).
  destruct (spline_nodes_on_line p spline0 Hdr) as (Htoe & _ & _).
  cbn zeta in *. fold spline in Hsx, Hsy, Hmin, Hmax, H1, H2, H3, H4, H5.
  rewrite Hsx in Hx. rewrite Hsx, Hsy.
  unfold apply_spline, filmic_spline. rewrite Hmin, Hmax, H1, H2, H3, H4, H5.
  destruct (Rlt_dec x (fst (spline_nodes p spline0) 1%nat)); [lra|].
  destruct (Rgt_dec x (fst (spline_nodes p spline0) 3%nat)); [unfold Rgt in *; lra|].
  lra.
Qed.

(** X22. Between the toe node and the shoulder node the committed curve is
    the straight line through the grey node whose slope is the contrast
    clamped to [0.1, 2]: for every abscissa [x] of the latitude
    [filmic_spline] returns [y_grey + slope * (x - x_grey)]. *)
Theorem X22_latitude_is_the_line_of_slope_contrast_through_the_grey_node
    (p : dt_iop_filmicrgb_params_t) (spline0 : dt_iop_filmic_rgb_spline_t) (x : R) :
  white_point_source p <> black_point_source p ->
  let spline := dt_iop_filmic_rgb_compute_spline p spline0 in
  spline_x spline 1%nat <= x <= spline_x spline 3%nat ->
  let slope := CLAMP (contrast p) 0.1 2 in
  apply_spline spline x = spline_y spline 2%nat + slope * (x - spline_x spline 2%nat)
  /\ 0.1 <= slope <= 2.
Proof.
  intros Hdr spline Hx slope. split.
  - exact (compute_spline_latitude p spline0 x Hdr Hx).
  - apply CLAMP_range. lra.
Qed.

(** X23. Where the grey node falls is decided by the balance: with a
    positive latitude and a black point below the white point, the grey
    abscissa lies between the toe node and the shoulder node exactly when
    the balance shift [2 * balance / sqrt (contrast^2 + 1)] lies between
    [-|black / range|] and [|white / range|]; in that case the curve
    passes through the grey node. *)
Theorem X23_grey_node_is_in_the_latitude_iff_the_balance_shift_is_moderate
    (p : dt_iop_filmicrgb_params_t) (spline0 : dt_iop_filmic_rgb_spline_t) :
  black_point_source p < white_point_source p ->
  0 < latitude p ->
  let spline := dt_iop_filmic_rgb_compute_spline p spline0 in
  let x := spline_x spline in
  let dynamic_range := white_point_source p - black_point_source p in
  let shift :=
    2 * (CLAMP (balance p) (-50) 50 / 100)
    / sqrtf (spline_contrast p * spline_contrast p + 1) in
  let moderate :=
    - fabsf (black_point_source p / dynamic_range) <= shift
    /\ shift <= fabsf (white_point_source p / dynamic_range) in
  (x 1%nat <= x 2%nat <= x 3%nat <-> moderate)
  /\ (moderate -> apply_spline spline (x 2%nat) = spline_y spline 2%nat).
Proof.
  intros Hbw Hlat spline x dynamic_range shift moderate.
  assert (Hdr : white_point_source p <> black_point_source p) by lra.
  assert (Hiff : x 1%nat <= x 2%nat <= x 3%nat <-> moderate).
  { destruct (compute_spline_fields p spline0) as (Hsx & _).
    cbn zeta in Hsx. fold spline in Hsx. unfold x. rewrite Hsx.
    pose proof (sqrtf_norm_pos (spline_contrast p)) as Hnorm.
    assert (HL : 0 < CLAMP (latitude p) 0 100 / 100).
    { unfold CLAMP. destruct (Rgt_dec (latitude p) 100); [lra|].
      destruct (Rlt_dec (latitude p) 0); lra. }
    unfold moderate, shift, dynamic_range.
    unfold spline_nodes. cbn [fst snd].
    repeat first [ rewrite store_eq | rewrite store_neq by lia ].
    set (L := CLAMP (latitude p) 0 100 / 100) in *.
    set (dr := white_point_source p - black_point_source p).
    set (B := fabsf (black_point_source p / dr)).
    set (W := fabsf (white_point_source p / dr)).
    set (bal := CLAMP (balance p) (-50) 50 / 100).
    set (norm := sqrtf (spline_contrast p * spline_contrast p + 1)) in *.
    set (gl := fabsf (black_point_source p) / dr).
    assert (Hdr0 : dr <> 0) by (unfold dr; lra).
    replace (gl - L * dr / dr * B + - (2 * (L * dr) / dr) * bal / norm)
      with (gl - L * (B + 2 * bal / norm)) by (field; lra).
    replace (gl + L * dr / dr * W + - (2 * (L * dr) / dr) * bal / norm)
      with (gl + L * (W - 2 * bal / norm)) by (field; lra).
    set (t := 2 * bal / norm).
    split; intros [H1 H2]; split; nra. }
  split; [exact Hiff|].
  intros Hm. apply Hiff in Hm.
  pose proof (compute_spline_latitude p spline0 (x 2%nat) Hdr Hm) as Hline.
  cbn zeta in Hline. fold spline in Hline. fold x in Hline.
  rewrite Hline. lra.
Qed.

Lemma dot_nth5 (a0 a1 a2 a3 a4 : R) (v : list R) :
  dot [a0; a1; a2; a3; a4] v
  = a0 * nth 0 v 0 + a1 * nth 1 v 0 + a2 * nth 2 v 0 + a3 * nth 3 v 0 + a4 * nth 4 v 0.
Proof.
  destruct v as [|v0 [|v1 [|v2 [|v3 [|v4 v]]]]]; cbn [dot nth]; lra.
Qed.

Lemma dot_nth4 (a0 a1 a2 a3 : R) (v : list R) :
  dot [a0; a1; a2; a3] v
  = a0 * nth 0 v 0 + a1 * nth 1 v 0 + a2 * nth 2 v 0 + a3 * nth 3 v 0.
Proof.
  destruct v as [|v0 [|v1 [|v2 [|v3 v]]]]; cbn [dot nth]; lra.
Qed.

(** What a solved toe system says about the coefficients [solve_toe] reads
    off the solution. *)
Lemma solve_toe_solved (x y : buffer) (slope : R)
    (shadows : dt_iop_filmicrgb_curve_type_t) :
  solved (toe_system x y slope shadows) ->
  let '(t1, t2, t3, t4, t5) := solve_toe x y slope shadows in
  let Tl := x 1%nat in
  t1 = y 0%nat
  /\ t1 + Tl * (t2 + Tl * (t3 + Tl * (t4 + Tl * t5))) = y 1%nat
  /\ t2 + Tl * (2 * t3 + Tl * (3 * t4 + Tl * (4 * t5))) = slope
  /\ 2 * t3 + Tl * (6 * t4 + Tl * (12 * t5)) = 0
  /\ (shadows = DT_FILMIC_CURVE_POLY_4 -> t2 = 0).
Proof.
  unfold solved, toe_system, solve_toe, mat_vec, ORDER_4, ORDER_3.
  destruct shadows; cbn zeta; cbn [mat_vec_rows firstn skipn].
  - set (s := gauss_solve _ _ _). rewrite !dot_nth5. intros H.
    injection H as E0 E1 E2 E3 E4. repeat split; first [lra | intros; lra].
  - set (s := gauss_solve _ _ _). rewrite !dot_nth4. intros H.
    injection H as E0 E1 E2 E3. repeat split; first [lra | intros; discriminate].
Qed.

Lemma solve_shoulder_solved (x y : buffer) (slope : R)
    (highlights : dt_iop_filmicrgb_curve_type_t) :
  solved (shoulder_system x y slope highlights) ->
  let '(s1, s2, s3, s4, s5) := solve_shoulder x y slope highlights in
  let Sl := x 3%nat in
  s1 + 1 * (s2 + 1 * (s3 + 1 * (s4 + 1 * s5))) = y 4%nat
  /\ s1 + Sl * (s2 + Sl * (s3 + Sl * (s4 + Sl * s5))) = y 3%nat
  /\ s2 + Sl * (2 * s3 + Sl * (3 * s4 + Sl * (4 * s5))) = slope
  /\ 2 * s3 + Sl * (6 * s4 + Sl * (12 * s5)) = 0
  /\ (highlights = DT_FILMIC_CURVE_POLY_4 ->
      s2 + 1 * (2 * s3 + 1 * (3 * s4 + 1 * (4 * s5))) = 0).
Proof.
  unfold solved, shoulder_system, solve_shoulder, mat_vec, ORDER_4, ORDER_3.
  destruct highlights; cbn zeta; cbn [mat_vec_rows firstn skipn].
  - set (s := gauss_solve _ _ _). rewrite !dot_nth5. intros H.
    injection H as E0 E1 E2 E3 E4. repeat split; first [lra | intros; lra].
  - set (s := gauss_solve _ _ _). rewrite !dot_nth4. intros H.
    injection H as E0 E1 E2 E3. repeat split; first [lra | intros; discriminate].
Qed.

(** X24. If [gauss_solve] returns solutions of the two systems it is given,
    the curve is anchored and smooth: the toe polynomial takes the black
    display value at 0 and meets the latitude line at the toe node with
    the same value, the same slope and no curvature; the shoulder polynomial
    takes the white display value at 1 and leaves the line at the shoulder
    node in the same way; a fourth-order end is flat at 0, respectively at
    1.  So [filmic_spline] maps 0 to the black display value when the toe
    node is to the right of 0, and 1 to the white display value when the
    shoulder node is to the left of 1. *)
Theorem X24_solved_curve_is_anchored_and_smooth_at_the_nodes
    (p : dt_iop_filmicrgb_params_t) (spline0 : dt_iop_filmic_rgb_spline_t) :
  white_point_source p <> black_point_source p ->
  let x := fst (spline_nodes p spline0) in
  let y := snd (spline_nodes p spline0) in
  solved (toe_system x y (spline_contrast p) (shadows p)) ->
  solved (shoulder_system x y (spline_contrast p) (highlights p)) ->
  let spline := dt_iop_filmic_rgb_compute_spline p spline0 in
  (segment spline 0 0 = y 0%nat
   /\ segment spline 0 (x 1%nat) = y 1%nat
   /\ segment_slope spline 0 (x 1%nat) = segment_slope spline 2 (x 1%nat)
   /\ segment_curvature spline 0 (x 1%nat) = 0
   /\ (shadows p = DT_FILMIC_CURVE_POLY_4 -> segment_slope spline 0 0 = 0))
  /\ (segment spline 1 1 = y 4%nat
      /\ segment spline 1 (x 3%nat) = y 3%nat
      /\ segment_slope spline 1 (x 3%nat) = segment_slope spline 2 (x 3%nat)
      /\ segment_curvature spline 1 (x 3%nat) = 0
      /\ (highlights p = DT_FILMIC_CURVE_POLY_4 -> segment_slope spline 1 1 = 0))
  /\ (0 < x 1%nat -> apply_spline spline 0 = y 0%nat)
  /\ (x 3%nat < 1 -> apply_spline spline 1 = y 4%nat).
Proof.
  intros Hdr x y Htoe Hshoulder spline.
  destruct (compute_spline_fields p spline0)
    as (_ & _ & Hmin & Hmax & (H1 & H2 & H3 & H4 & H5) & Ht & Hs).
  cbn zeta in *. fold spline x y in Hmin, Hmax, H1, H2, H3, H4, H5, Ht, Hs.
  pose proof (solve_toe_solved x y (spline_contrast p) (shadows p) Htoe) as Et.
  pose proof (solve_shoulder_solved x y (spline_contrast p) (highlights p) Hshoulder) as Es.
  rewrite <- Ht in Et. rewrite <- Hs in Es. cbn zeta in Et, Es.
  destruct Et as (Et0 & Et1 & Et2 & Et3 & Et4).
  destruct Es as (Es0 & Es1 & Es2 & Es3 & Es4).
  assert (Hline : forall v, segment_slope spline 2 v = spline_contrast p).
  { intros v. unfold segment_slope. rewrite H2, H3, H4, H5. lra. }
  assert (Toe : segment spline 0 0 = y 0%nat).
  { unfold segment. rewrite <- Et0. lra. }
  assert (Shoulder : segment spline 1 1 = y 4%nat).
  { unfold segment. rewrite <- Es0. lra. }
  split; [|split; [|split]].
  - rewrite Hline. unfold segment_slope, segment_curvature.
    split; [exact Toe|]. split; [exact Et1|]. split; [exact Et2|]. split; [exact Et3|].
    intros Hp4. specialize (Et4 Hp4). rewrite Et4. lra.
  - rewrite Hline. unfold segment_slope, segment_curvature.
    split; [exact Shoulder|]. split; [exact Es1|]. split; [exact Es2|]. split; [exact Es3|].
    intros Hp4. specialize (Es4 Hp4). lra.
  - intros Hx1. rewrite apply_spline_segment, Hmin.
    destruct (Rlt_dec 0 (x 1%nat)); [exact Toe | lra].
  - intros Hx3. rewrite apply_spline_segment, Hmin, Hmax.
    destruct (spline_nodes_on_line p spline0 Hdr) as (_ & _ & Horder).
    cbn zeta in Horder. fold x in Horder.
    destruct (Rlt_dec 1 (x 1%nat)); [lra|].
    destruct (Rgt_dec 1 (x 3%nat)); [exact Shoulder | unfold Rgt in *; lra].
Qed.

(** ** The colour pickers and the sliders of the scene *)

Lemma ln_2_pos : 0 < ln 2.
Proof. rewrite <- ln_1. apply ln_increasing; lra. Qed.

Lemma exp2f_log2f (x : R) : 0 < x -> exp2f (log2f x) = x.
Proof.
  intros Hx. unfold exp2f, log2f, Rpower. pose proof ln_2_pos.
  replace (ln x / ln 2 * ln 2) with (ln x) by (field; lra).
  now apply exp_ln.
Qed.

Lemma autotune_fields (picked_color picked_color_min picked_color_max : rgb)
    (work_profile : option dt_iop_order_iccprofile_info_t)
    (p : dt_iop_filmicrgb_params_t) :
  let q := apply_autotune picked_color picked_color_min picked_color_max work_profile p in
  let grey :=
    CLAMP (100 * (get_pixel_norm picked_color (preserve_color p) work_profile / 2))
      0.001 100 in
  let EVmax :=
    CLAMP (log2f (get_pixel_norm picked_color_max (preserve_color p) work_profile
                  / (grey / 100))) 1 16
    * (1 + security_factor p / 100) in
  let EVmin :=
    CLAMP (log2f (get_pixel_norm picked_color_min (preserve_color p) work_profile
                  / (grey / 100))) (-16) (-1)
    * (1 + security_factor p / 100) in
  grey_point_source q = grey
  /\ white_point_source q = EVmax
  /\ black_point_source q = fmaxf EVmin (-16)
  /\ output_power q
     = logf (grey_point_target p / 100)
       / logf (- black_point_source q / (white_point_source q - black_point_source q))
  /\ grey_point_target q = grey_point_target p
  /\ security_factor q = security_factor p
  /\ custom_grey q = custom_grey p.
Proof. cbn zeta. repeat split; reflexivity. Qed.

Lemma autotune_bounds (picked_color picked_color_min picked_color_max : rgb)
    (work_profile : option dt_iop_order_iccprofile_info_t)
    (p : dt_iop_filmicrgb_params_t) :
  -100 < security_factor p ->
  let q := apply_autotune picked_color picked_color_min picked_color_max work_profile p in
  0.001 <= grey_point_source q <= 100
  /\ -16 <= black_point_source q < 0
  /\ 0 < white_point_source q <= 16 * (1 + security_factor p / 100)
  /\ (0 <= security_factor p -> black_point_source q <= -1 /\ 1 <= white_point_source q).
Proof.
  intros Hs q.
  destruct (autotune_fields picked_color picked_color_min picked_color_max work_profile p)
    as (Hg & Hw & Hb & _).
  cbn zeta in Hg, Hw, Hb. fold q in Hg, Hw, Hb. rewrite Hg, Hw, Hb.
  match goal with
  | |- context [CLAMP ?e 1 16] => pose proof (CLAMP_range e 1 16 ltac:(lra)) as Hmax
  end.
  match goal with
  | |- context [CLAMP ?e (-16) (-1)] =>
      pose proof (CLAMP_range e (-16) (-1) ltac:(lra)) as Hmin
  end.
  match goal with
  | |- context [CLAMP ?e 0.001 100] =>
      pose proof (CLAMP_range e 0.001 100 ltac:(lra)) as Hgrey
  end.
  set (f := 1 + security_factor p / 100).
  assert (Hf : 0 < f) by (unfold f; lra).
  set (Cmin := CLAMP _ (-16) (-1)) in *. set (Cmax := CLAMP _ 1 16) in *.
  assert (Hlow : Cmin * f <= - f) by nra.
  assert (Hhigh : f <= Cmax * f <= 16 * f) by nra.
  unfold fmaxf.
  split; [exact Hgrey|]. split; [case_minmax; lra|]. split; [lra|].
  intros Hs0. assert (1 <= f) by (unfold f; lra). split; [case_minmax; lra | lra].
Qed.

(** X25. Whatever colours the picker returns, [apply_autotune] leaves scene
    bounds that [commit_params] can use: with a safety factor above -100 %
    the grey point lies in [0.001, 100], the black point in [-16, 0) and the
    white point is positive, so that the dynamic range is positive; with a
    safety factor that is not negative the black point is at most -1 EV and
    the white point at least 1 EV. *)
Theorem X25_autotune_leaves_ordered_scene_bounds
    (picked_color picked_color_min picked_color_max : rgb)
    (work_profile : option dt_iop_order_iccprofile_info_t)
    (p : dt_iop_filmicrgb_params_t) :
  -100 < security_factor p ->
  let q := apply_autotune picked_color picked_color_min picked_color_max work_profile p in
  0.001 <= grey_point_source q <= 100
  /\ -16 <= black_point_source q < 0
  /\ 0 < white_point_source q <= 16 * (1 + security_factor p / 100)
  /\ 0 < white_point_source q - black_point_source q
  /\ (0 <= security_factor p -> black_point_source q <= -1 /\ 1 <= white_point_source q).
Proof.
  intros Hs q.
  destruct (autotune_bounds picked_color picked_color_min picked_color_max work_profile p Hs)
    as (Hg & Hb & Hw & H0).
  fold q in Hg, Hb, Hw, H0. repeat split; try lra; apply H0; assumption.
Qed.

(** The hardness every picker and slider of the scene computes sends the
    grey target back to the grey abscissa. *)
Lemma auto_hardness_fixpoint (grey_target black white : R) :
  0 < grey_target < 100 -> black < 0 -> 0 < white ->
  let power := logf (grey_target / 100) / logf (- black / (white - black)) in
  0 < power
  /\ powf (grey_target / 100) (1 / power) = fabsf black / (white - black)
  /\ powf (fabsf black / (white - black)) power = grey_target / 100.
Proof.
  intros Hg Hb Hw power.
  assert (Habs : fabsf black / (white - black) = - black / (white - black)).
  { unfold fabsf. now rewrite Rabs_left by lra. }
  rewrite Habs.
  set (a := - black / (white - black)) in *.
  assert (Ha : 0 < a < 1).
  { unfold a. split; [apply Rdiv_lt_0_compat; lra|].
    apply (Rmult_lt_reg_r (white - black)); [lra|].
    unfold Rdiv. rewrite Rmult_assoc, Rinv_l by lra. lra. }
  assert (Hlna : ln a < 0) by (rewrite <- ln_1; apply ln_increasing; lra).
  assert (Hlng : ln (grey_target / 100) < 0) by (rewrite <- ln_1; apply ln_increasing; lra).
  assert (Hpow : 0 < power).
  { unfold power, logf.
    replace (ln (grey_target / 100) / ln a)
      with ((- ln (grey_target / 100)) / (- ln a)) by (field; lra).
    apply Rdiv_lt_0_compat; lra. }
  split; [exact Hpow|]. unfold powf.
  destruct (Req_EM_T (grey_target / 100) 0); [lra|].
  destruct (Rlt_dec 0 (grey_target / 100)); [|lra].
  destruct (Req_EM_T a 0); [lra|].
  destruct (Rlt_dec 0 a); [|lra].
  unfold Rpower, power, logf. split.
  - replace (1 / (ln (grey_target / 100) / ln a) * ln (grey_target / 100)) with (ln a)
      by (field; lra).
    apply exp_ln; lra.
  - replace (ln (grey_target / 100) / ln a * ln a) with (ln (grey_target / 100))
      by (field; lra).
    apply exp_ln; lra.
Qed.

(** X26. The hardness set by [apply_autotune] makes the display transfer
    neutral at grey: with a grey target strictly between 0 and 100 % and a
    safety factor above -100 %, whether the grey is custom or not, the new
    [output_power] is positive and the power function with it sends the grey
    abscissa [|black| / (white - black)] to the grey target; for a custom
    grey the display grey that [commit_params] computes from the result then
    equals the grey abscissa, so that the lower bound it enforces on the
    contrast is 1. *)
Theorem X26_autotune_hardness_maps_the_grey_node_to_the_grey_target
    (picked_color picked_color_min picked_color_max : rgb)
    (work_profile : option dt_iop_order_iccprofile_info_t)
    (p : dt_iop_filmicrgb_params_t) :
  -100 < security_factor p ->
  0 < grey_point_target p < 100 ->
  let q := apply_autotune picked_color picked_color_min picked_color_max work_profile p in
  0 < output_power q
  /\ powf (commit_grey_log q) (output_power q) = grey_point_target p / 100
  /\ (truthy (custom_grey p) = true ->
      commit_grey_display q = commit_grey_log q
      /\ commit_grey_display q / commit_grey_log q = 1).
Proof.
  intros Hs Hg q.
  destruct (autotune_bounds picked_color picked_color_min picked_color_max work_profile p Hs)
    as (_ & Hb & Hw & _).
  destruct (autotune_fields picked_color picked_color_min picked_color_max work_profile p)
    as (_ & _ & _ & Hpow & Hgt & _ & Hcg).
  cbn zeta in Hpow, Hgt, Hcg. fold q in Hb, Hw, Hpow, Hgt, Hcg.
  destruct (auto_hardness_fixpoint (grey_point_target p) (black_point_source q)
              (white_point_source q) Hg (proj2 Hb) (proj1 Hw)) as (H0 & H1 & H2).
  cbn zeta in H0, H1, H2. rewrite <- Hpow in H0, H1, H2.
  assert (Hgl : 0 < fabsf (black_point_source q)
                    / (white_point_source q - black_point_source q)).
  { unfold fabsf. rewrite Rabs_left by lra. apply Rdiv_lt_0_compat; lra. }
  split; [exact H0|]. split; [exact H2|].
  intros Hcustom.
  unfold commit_grey_display, commit_grey_log. rewrite Hcg, Hcustom, Hgt.
  split; [exact H1|].
  rewrite H1.
  set (a := fabsf (black_point_source q) / (white_point_source q - black_point_source q))
    in *.
  field. lra.
Qed.

Lemma auto_grey_fields (picked_color : rgb)
    (work_profile : option dt_iop_order_iccprofile_info_t)
    (p : dt_iop_filmicrgb_params_t) :
  let q := apply_auto_grey false picked_color work_profile p in
  let grey :=
    CLAMP (100 * (get_pixel_norm picked_color (preserve_color p) work_profile / 2))
      0.001 100 in
  let grey_var := log2f (grey_point_source p / grey) in
  grey_point_source q = grey
  /\ black_point_source q = black_point_source p - grey_var
  /\ white_point_source q = white_point_source p + grey_var
  /\ preserve_color q = preserve_color p.
Proof. cbn zeta. repeat split; reflexivity. Qed.

(** X27. The grey picker keeps the scene white where it was: with a positive
    previous grey, [apply_auto_grey] moves the white point by the
    logarithm of the grey change, so that the luminance of the white point,
    [grey * 2^white], is unchanged; the black point is moved by the same
    amount in the opposite direction, so that the sum of the two bounds is
    unchanged and the dynamic range grows by twice the grey change. *)
Theorem X27_grey_picker_preserves_the_white_luminance
    (picked_color : rgb) (work_profile : option dt_iop_order_iccprofile_info_t)
    (p : dt_iop_filmicrgb_params_t) :
  0 < grey_point_source p ->
  let q := apply_auto_grey false picked_color work_profile p in
  let grey_var := log2f (grey_point_source p / grey_point_source q) in
  0.001 <= grey_point_source q <= 100
  /\ grey_point_source q * exp2f (white_point_source q)
     = grey_point_source p * exp2f (white_point_source p)
  /\ black_point_source q + white_point_source q
     = black_point_source p + white_point_source p
  /\ white_point_source q - black_point_source q
     = white_point_source p - black_point_source p + 2 * grey_var.
Proof.
  intros Hgrey q grey_var.
  destruct (auto_grey_fields picked_color work_profile p) as (Hg & Hb & Hw & _).
  cbn zeta in Hg, Hb, Hw. fold q in Hg, Hb, Hw.
  rewrite <- Hg in Hb, Hw. fold grey_var in Hb, Hw.
  assert (Hrange : 0.001 <= grey_point_source q <= 100).
  { rewrite Hg. apply CLAMP_range. lra. }
  split; [exact Hrange|]. split; [|split; lra].
  rewrite Hw. unfold exp2f. rewrite Rpower_plus. fold (exp2f grey_var).
  unfold grey_var. rewrite exp2f_log2f by (apply Rdiv_lt_0_compat; lra).
  field. lra.
Qed.

Lemma security_fields (slider : R) (p : dt_iop_filmicrgb_params_t) :
  let q := security_threshold_callback false slider p in
  let ratio := (slider - security_factor p) / (security_factor p + 100) in
  security_factor q = slider
  /\ black_point_source q = black_point_source p + ratio * black_point_source p
  /\ white_point_source q = white_point_source p + ratio * white_point_source p
  /\ grey_point_source q = grey_point_source p.
Proof.
  cbn zeta. unfold security_threshold_callback. cbn zeta.
  match goal with |- context [if ?b then _ else _] => destruct b end;
    repeat split; reflexivity.
Qed.

(** X28. The safety-factor slider rescales the scene bounds and can be
    undone: moving it from [a] to [b] (neither of them -100 %) multiplies
    the black and the white point by [(b + 100) / (a + 100)], which leaves
    the grey abscissa [-black / (white - black)] as it was, and moving it
    back to [a] restores both bounds. *)
Theorem X28_safety_factor_rescales_the_bounds_reversibly
    (slider : R) (p : dt_iop_filmicrgb_params_t) :
  security_factor p <> -100 -> slider <> -100 ->
  let q := security_threshold_callback false slider p in
  let back := security_threshold_callback false (security_factor p) q in
  let scale := (slider + 100) / (security_factor p + 100) in
  black_point_source q = scale * black_point_source p
  /\ white_point_source q = scale * white_point_source p
  /\ - black_point_source q / (white_point_source q - black_point_source q)
     = - black_point_source p / (white_point_source p - black_point_source p)
  /\ security_factor back = security_factor p
  /\ black_point_source back = black_point_source p
  /\ white_point_source back = white_point_source p.
Proof.
  intros Ha Hb q back scale.
  destruct (security_fields slider p) as (Hs & Hbl & Hwh & _).
  destruct (security_fields (security_factor p) q) as (Hs' & Hbl' & Hwh' & _).
  cbn zeta in *. fold q in Hs, Hbl, Hwh, Hs', Hbl', Hwh'.
  fold back in Hs', Hbl', Hwh'.
  assert (Ha' : security_factor p + 100 <> 0) by lra.
  assert (Hb' : slider + 100 <> 0) by lra.
  assert (Hscale : scale <> 0).
  { unfold scale. intros H. apply Hb'.
    apply (Rmult_eq_reg_r (/ (security_factor p + 100))); [|now apply Rinv_neq_0_compat].
    rewrite Rmult_0_l. exact H. }
  assert (E1 : black_point_source q = scale * black_point_source p).
  { rewrite Hbl. unfold scale. field. exact Ha'. }
  assert (E2 : white_point_source q = scale * white_point_source p).
  { rewrite Hwh. unfold scale. field. exact Ha'. }
  split; [exact E1|]. split; [exact E2|]. split; [|split; [exact Hs'|split]].
  - rewrite E1, E2.
    destruct (Req_EM_T (white_point_source p - black_point_source p) 0) as [Hz|Hz].
    + replace (scale * white_point_source p - scale * black_point_source p)
        with (scale * (white_point_source p - black_point_source p)) by ring.
      rewrite Hz, Rmult_0_r. unfold Rdiv. now rewrite Rinv_0, !Rmult_0_r.
    + field. split; [exact Hz|].
      replace (scale * white_point_source p - scale * black_point_source p)
        with (scale * (white_point_source p - black_point_source p)) by ring.
      now apply Rmult_integral_contrapositive.
  - rewrite Hbl', Hs, E1. unfold scale. field. split; assumption.
  - rewrite Hwh', Hs, E2. unfold scale. field. split; assumption.
Qed.

(** X29. [apply_autotune] is the three pickers in a row: it leaves the
    parameters that the grey picker, then the white picker, then the black
    picker leave when they are given the same three colours, and the white
    and the black picker may be swapped. *)
Theorem X29_autotune_is_the_grey_white_and_black_pickers_in_sequence
    (picked_color picked_color_min picked_color_max : rgb)
    (work_profile : option dt_iop_order_iccprofile_info_t)
    (p : dt_iop_filmicrgb_params_t) :
  let grey := apply_auto_grey false picked_color work_profile in
  let white := apply_auto_white_point_source false picked_color_max work_profile in
  let black := apply_auto_black false picked_color_min work_profile in
  apply_autotune picked_color picked_color_min picked_color_max work_profile p
  = black (white (grey p))
  /\ black (white (grey p)) = white (black (grey p)).
Proof. cbn zeta. split; reflexivity. Qed.

(** ** Migrated parameters *)

Lemma spec_clipped_none (in_ : buffer) (feather threshold : R) (n : nat) :
  (forall i, (i < n)%nat -> 4 <= spec_argument in_ feather threshold i) ->
  spec_clipped in_ feather threshold n = 0%nat.
Proof.
  induction n as [|n IH]; intros H; [reflexivity|].
  rewrite spec_clipped_S, IH by (intros i Hi; apply H; lia).
  specialize (H n ltac:(lia)).
  destruct (Rlt_dec (spec_argument in_ feather threshold n) 4); [lra|reflexivity].
Qed.

Lemma exp2f_nat (n : nat) : exp2f (INR n) = 2 ^ n.
Proof. unfold exp2f. apply Rpower_pow. lra. Qed.

(** X30. [legacy_params] converts version 1 to version 2 only; the
    parameters it writes switch the highlight reconstruction off for
    ordinary pixels, as its comment promises: once committed (with a
    positive grey point) the feathering is 16 and the clipping threshold 8
    times the luminance of the scene white, [grey * 2^white], so that a
    region in which no pixel has a Euclidean RGB norm above 6 times that
    luminance is never reconstructed.  Any other pair of versions is refused
    with status 1 and the new parameters are left as they were. *)
Theorem X30_migrated_edits_leave_the_highlights_alone
    (defaults new_params : dt_iop_filmicrgb_params_t)
    (old_params : dt_iop_filmicrgb_params_v1_t) (d : dt_iop_filmicrgb_data_t)
    (in_ mask0 : buffer) (width height : nat) :
  0 < v1_grey_point_source old_params ->
  (Z.of_nat (height * width) < 2 ^ 31)%Z ->
  let migrated := legacy_params defaults old_params 1 new_params 2 in
  let data := commit_params (snd migrated) d in
  let white_luminance :=
    v1_grey_point_source old_params / 100 * exp2f (v1_white_point_source old_params) in
  (forall i, (i < height * width)%nat -> spec_pix_norm in_ i <= 6 * white_luminance) ->
  fst migrated = 0%Z
  /\ d_reconstruct_feather data = 16
  /\ d_reconstruct_threshold data = 8 * white_luminance
  /\ snd (mask_clipped_pixels in_ mask0
            (d_reconstruct_feather data / d_reconstruct_threshold data)
            (d_reconstruct_feather data) width height 4) = false
  /\ (forall old_version new_version,
        (old_version =? 1)%Z && (new_version =? 2)%Z = false ->
        legacy_params defaults old_params old_version new_params new_version
        = (1%Z, new_params)).
Proof.
  intros Hgrey Hsize migrated data white_luminance Hnorm.
  destruct (commit_params_reconstruction (snd migrated) d) as (Hf & Ht & _).
  cbn zeta in Hf, Ht. fold data in Hf, Ht.
  assert (Hwl : 0 < white_luminance).
  { unfold white_luminance. apply Rmult_lt_0_compat; [lra | apply Rpower_pos]. }
  assert (Ef : d_reconstruct_feather data = 16).
  { rewrite Hf. unfold migrated, legacy_params. cbn [Z.eqb Pos.eqb andb snd reconstruct_feather].
    replace (12 / 3) with (INR 4) by (cbn [INR]; lra). rewrite exp2f_nat. lra. }
  assert (Et : d_reconstruct_threshold data = 8 * white_luminance).
  { rewrite Ht. unfold migrated, legacy_params.
    cbn [Z.eqb Pos.eqb andb snd reconstruct_threshold white_point_source custom_grey
         grey_point_source truthy negb].
    rewrite powf_2, Rpower_plus. fold (exp2f 3).
    replace 3 with (INR 3) at 1 by (cbn [INR]; lra). rewrite exp2f_nat.
    unfold white_luminance, exp2f. lra. }
  split; [reflexivity|]. split; [exact Ef|]. split; [exact Et|]. split.
  - rewrite Ef, Et.
    destruct (mask_clipped_pixels_cells in_ mask0 16 (8 * white_luminance) width height)
      as [_ Hcount].
    cbn zeta in Hcount. rewrite (Hcount Hsize).
    rewrite spec_clipped_none; [reflexivity|].
    intros i Hi. specialize (Hnorm i Hi). unfold spec_argument.
    replace (16 / (8 * white_luminance)) with (2 / white_luminance) by (field; lra).
    apply (Rmult_le_compat_r (/ white_luminance)) in Hnorm;
      [|left; now apply Rinv_0_lt_compat].
    replace (6 * white_luminance * / white_luminance) with 6 in Hnorm by (field; lra).
    unfold Rdiv. lra.
  - intros old_version new_version Hv. unfold legacy_params. now rewrite Hv.
Qed.

End Filmic.

(** * The theorems at concrete inputs *)

Lemma CLAMP_inside (x low high : R) : low <= x <= high -> CLAMP x low high = x.
Proof.
  intros H. unfold CLAMP.
  destruct (Rgt_dec x high); [unfold Rgt in *; lra|]. destruct (Rlt_dec x low); lra.
Qed.

Lemma powf_positive_one (x y : R) : 0 < x -> y = 1 -> powf x y = x.
Proof.
  intros Hx ->. unfold powf.
  destruct (Req_EM_T x 0); [lra|]. destruct (Rlt_dec 0 x); [|lra].
  now apply Rpower_1.
Qed.

Lemma sqrtf_square (a x : R) : 0 <= x -> a = x * x -> sqrtf a = x.
Proof. intros Hx ->. unfold sqrtf. now apply sqrt_square. Qed.

Lemma fabsf_neg (x : R) : x <= 0 -> fabsf x = - x.
Proof. intros H. unfold fabsf. now apply Rabs_left1. Qed.

Lemma fabsf_pos (x : R) : 0 <= x -> fabsf x = x.
Proof. intros H. unfold fabsf. now apply Rabs_right, Rle_ge. Qed.

(** The nodes of the curve solved for [balanced_params]. *)
Lemma balanced_nodes :
  let x := fst (spline_nodes balanced_params zero_spline) in
  let y := snd (spline_nodes balanced_params zero_spline) in
  x 1%nat = 7 / 40 /\ x 2%nat = 3 / 4 /\ x 3%nat = 27 / 40
  /\ y 2%nat = 1 / 2 /\ y 3%nat = 71 / 160 /\ y 4%nat = 1
  /\ spline_contrast balanced_params = 3 / 4.
Proof.
  cbn zeta. unfold spline_nodes, spline_contrast.
  cbn [balanced_params shadows highlights custom_grey truthy Z.eqb negb grey_point_target
       black_point_target white_point_target output_power white_point_source
       black_point_source latitude balance contrast spline_x spline_y zero_spline fst snd].
  rewrite (CLAMP_inside 50 0 100) by lra.
  rewrite (CLAMP_inside 0.75 0.1 2) by lra.
  rewrite (CLAMP_inside 25 (-50) 50) by lra.
  rewrite (CLAMP_inside 100 50 100) by lra.
  rewrite (powf_positive_one (50 / 100) (1 / 1)) by lra.
  rewrite (sqrtf_square (0.75 * 0.75 + 1) 1.25) by lra.
  rewrite (fabsf_neg (-12)) by lra.
  rewrite (fabsf_neg (-12 / (4 - -12))) by lra.
  rewrite (fabsf_pos (4 / (4 - -12))) by lra.
  repeat first [ rewrite store_eq | rewrite store_neq by lia ].
  repeat split; lra.
Qed.

(** The solved shoulder of [balanced_params]: the cubic through the white
    node that leaves the straight line at the shoulder node with the same
    value, slope and curvature. *)
Lemma balanced_shoulder :
  solve_shoulder gauss_solve_model
    (fst (spline_nodes balanced_params zero_spline))
    (snd (spline_nodes balanced_params zero_spline))
    (spline_contrast balanced_params) DT_FILMIC_CURVE_POLY_3
  = (- 25153 / 8788, 115941 / 8788, - 40500 / 2197, 20000 / 2197, 0).
Proof.
  destruct balanced_nodes as (_ & _ & Hx3 & _ & Hy3 & Hy4 & Hc).
  cbn zeta in *. unfold solve_shoulder. rewrite Hx3, Hy3, Hy4, Hc.
  unfold gauss_solve_model, ORDER_3.
  cbn [gauss_eliminate matrix_rows firstn skipn app pivot_row hd tl map eliminate
       sub_scaled last dot].
  do 4 (decide_pivot;
        cbn [gauss_eliminate matrix_rows firstn skipn app pivot_row hd tl map eliminate
             sub_scaled last dot]).
  cbn [nth].
  repeat match goal with |- (_, _) = (_, _) => apply f_equal2 end; lra.
Qed.

(** These coefficients do solve the shoulder system of lines 2122-2127 at
    [Sl = 27/40]: position in 1, position, slope and curvature at the
    shoulder node. *)
Lemma balanced_shoulder_is_solution :
  let Sl := 27 / 40 in
  let M4s := 20000 / 2197 in
  let M3s := - 40500 / 2197 in
  let M2s := 115941 / 8788 in
  let M1s := - 25153 / 8788 in
  M4s + M3s + M2s + M1s = 1
  /\ Sl * Sl * Sl * M4s + Sl * Sl * M3s + Sl * M2s + M1s = 71 / 160
  /\ 3 * (Sl * Sl) * M4s + 2 * Sl * M3s + M2s = 3 / 4
  /\ 6 * Sl * M4s + 2 * M3s = 0.
Proof. cbn zeta. repeat split; lra. Qed.

(** C1, a defect of the code.  The claim, and the comment of the code at
    lines 2031-2039 ("x = [toe_log ; grey_log ; shoulder_log], linear part",
    "in case some nodes overlap, we need to remove them", after which no
    node is removed), want the grey node on the linear part.  With
    [balanced_params], settings within the ranges of the sliders, the
    balance shift puts the shoulder node 27/40 to the left of the grey
    abscissa 3/4; [filmic_spline] evaluates the shoulder polynomial there
    and returns the grey ordinate 1/2 plus 135/35152, about 3.8e-3, well
    beyond 1e-5. *)
Lemma C1_counterexample :
  let spline :=
    dt_iop_filmic_rgb_compute_spline gauss_solve_model balanced_params zero_spline in
  white_point_source balanced_params <> black_point_source balanced_params
  /\ spline_x spline 2%nat = 3 / 4 /\ spline_y spline 2%nat = 1 / 2
  /\ apply_spline spline (spline_x spline 2%nat) = 1 / 2 + 135 / 35152
  /\ ~ Rabs (apply_spline spline (spline_x spline 2%nat) - spline_y spline 2%nat) <= 1e-5.
Proof.
  destruct balanced_nodes as (Hx1 & Hx2 & Hx3 & Hy2 & Hy3 & Hy4 & Hc).
  destruct (compute_spline_fields gauss_solve_model balanced_params zero_spline)
    as (Hx & Hy & Hmin & Hmax & _ & _ & Hshoulder).
  cbn zeta in *.
  change (highlights balanced_params) with DT_FILMIC_CURVE_POLY_3 in Hshoulder.
  rewrite balanced_shoulder in Hshoulder.
  pose proof (f_equal (fun t => fst (fst (fst (fst t)))) Hshoulder) as H1.
  pose proof (f_equal (fun t => snd (fst (fst (fst t)))) Hshoulder) as H2.
  pose proof (f_equal (fun t => snd (fst (fst t))) Hshoulder) as H3.
  pose proof (f_equal (fun t => snd (fst t)) Hshoulder) as H4.
  pose proof (f_equal snd Hshoulder) as H5.
  cbn [fst snd] in H1, H2, H3, H4, H5. clear Hshoulder.
  rewrite Hx, Hy, Hx2, Hy2.
  assert (Hval : apply_spline
                   (dt_iop_filmic_rgb_compute_spline gauss_solve_model balanced_params
                      zero_spline) (3 / 4) = 1 / 2 + 135 / 35152).
  { unfold apply_spline, filmic_spline. rewrite Hmin, Hmax, Hx1, Hx3, H1, H2, H3, H4, H5.
    destruct (Rlt_dec (3 / 4) (7 / 40)); [lra|].
    destruct (Rgt_dec (3 / 4) (27 / 40)); [|unfold Rgt in *; lra]. lra. }
  split; [cbn; lra|]. split; [reflexivity|]. split; [reflexivity|].
  rewrite Hval. split; [reflexivity|].
  rewrite Rabs_right by lra. lra.
Qed.

(** ** The row of ten clipped pixels *)

Lemma sqrt_of_square (a x : R) : 0 <= x -> a = x * x -> sqrt a = x.
Proof. intros Hx ->. now apply sqrt_square. Qed.

Lemma highlight_row_argument (i : nat) :
  (i < 10)%nat -> spec_argument highlight_row 4 1 i = 0.
Proof.
  intros Hi. unfold spec_argument, spec_pix_norm.
  do 10 (destruct i as [|i];
         [ cbn [highlight_row Nat.mul Nat.add Nat.modulo Nat.divmod fst snd Nat.sub];
           rewrite (sqrt_of_square _ 1) by lra; lra | ]).
  lia.
Qed.

Lemma spec_clipped_all (in_ : buffer) (feather threshold : R) (n : nat) :
  (forall i, (i < n)%nat -> spec_argument in_ feather threshold i < 4) ->
  spec_clipped in_ feather threshold n = n.
Proof.
  induction n as [|n IH]; intros H; [reflexivity|].
  rewrite spec_clipped_S, IH by (intros i Hi; apply H; lia).
  destruct (Rlt_dec _ 4) as [_|Hn]; [lia|]. exfalso. apply Hn, H. lia.
Qed.

Lemma highlight_row_mask :
  let m := mask_clipped_pixels highlight_row zero_buffer (4 / 1) 4 10 1 4 in
  snd m = true /\ forall i, (i < 10)%nat -> fst m i = 1 / 2.
Proof.
  intros m.
  destruct (mask_clipped_pixels_cells highlight_row zero_buffer 4 1 10 1) as [Hm Hc].
  cbn zeta in Hm, Hc. fold m in Hm, Hc. split.
  - rewrite Hc by (change (1 * 10)%nat with 10%nat; lia).
    rewrite spec_clipped_all; [reflexivity|].
    intros i Hi. rewrite highlight_row_argument by exact Hi. lra.
  - intros i Hi. rewrite Hm by exact Hi.
    rewrite highlight_row_argument by exact Hi.
    unfold spec_weight. rewrite Rpower_O by lra. lra.
Qed.

Lemma Int_part_IZR (z : Z) : Int_part (IZR z) = z.
Proof. symmetry. apply Int_part_spec. lra. Qed.

Lemma row_scales : get_scales row_roi row_piece = 1%Z.
Proof.
  unfold get_scales. cbn [row_roi row_piece roi_scale iscale buf_in_height buf_in_width].
  assert (Hmax : MAX (1 * 1) (20 * 1) = 20).
  { unfold MAX. destruct (Rgt_dec (1 * 1) (20 * 1)); unfold Rgt in *; lra. }
  rewrite Hmax, Int_part_IZR.
  assert (Harg : 2 * 20 * (1 / 1) / INR ((fsize - 1) * fsize) - 1 = 1).
  { replace (INR ((fsize - 1) * fsize)) with 20 by (cbn; lra). lra. }
  rewrite Harg. unfold log2f, floorf. rewrite ln_1.
  replace (0 / ln 2) with 0 by (unfold Rdiv; ring).
  rewrite !Int_part_IZR. reflexivity.
Qed.

Lemma exp2f_2 : exp2f 2 = 4.
Proof.
  unfold exp2f. replace 2 with (1 + 1) at 2 by lra.
  rewrite Rpower_plus, Rpower_1 by lra. lra.
Qed.

(** What [commit_params] commits for the row. *)
Lemma row_committed :
  let data := commit_params gauss_solve_model row_params zero_data in
  d_reconstruct_feather data = 4 /\ d_reconstruct_threshold data = 1
  /\ d_reconstruct_structure_vs_texture data = 1 / 2
  /\ d_reconstruct_grey_vs_color data = 1
  /\ d_reconstruct_bloom_vs_details data = 0
  /\ d_high_quality_reconstruction data = 1%Z
  /\ d_preserve_color data = DT_FILMIC_METHOD_MAX_RGB
  /\ d_output_power data = 1.
Proof.
  destruct (commit_params_reconstruction gauss_solve_model row_params zero_data)
    as (H1 & H2 & H3 & H4 & H5 & H6 & H7 & H8).
  cbn zeta in *. rewrite H1, H2, H3, H4, H5, H6, H7, H8.
  cbn [row_params reconstruct_feather white_point_source reconstruct_threshold custom_grey
       truthy Z.eqb negb grey_point_source reconstruct_structure_vs_texture
       reconstruct_grey_vs_color reconstruct_bloom_vs_details high_quality_reconstruction
       preserve_color output_power].
  replace (12 / 6) with 2 by lra. rewrite exp2f_2.
  assert (Hpow : powf 2 (4 + -2) = 4).
  { unfold powf. destruct (Req_EM_T 2 0); [lra|]. destruct (Rlt_dec 0 2); [|lra].
    replace (4 + -2) with 2 by lra. exact exp2f_2. }
  rewrite Hpow. repeat split; try reflexivity; lra.
Qed.

(** The first pass on the row: the accumulator's first cell goes from 1 to
    27/32 (half of the input plus half of the blurred input 11/16). *)
Lemma row_first_pass (data : dt_iop_filmicrgb_data_t) :
  d_reconstruct_grey_vs_color data = 1 ->
  d_reconstruct_bloom_vs_details data = 0 ->
  let m := mask_clipped_pixels highlight_row zero_buffer (4 / 1) 4 10 1 4 in
  exists r, reconstruct_highlights highlight_row (fst m) zero_buffer 0 data row_piece
              row_roi row_roi scratch_allocated = (true, r, [])
            /\ r 0%nat = 27 / 32.
Proof.
  intros Hbeta Hdelta. cbn zeta.
  destruct highlight_row_mask as [_ Hmask]. cbn zeta in Hmask.
  set (mask := fst (mask_clipped_pixels highlight_row zero_buffer (4 / 1) 4 10 1 4)) in *.
  unfold reconstruct_highlights. rewrite row_scales.
  cbn [scratch_allocated alloc_LF_even alloc_LF_odd alloc_HF_RGB alloc_HF_grey alloc_temp
       row_roi roi_width roi_height].
  eexists. split; [reflexivity|].
  change (Z.to_nat 1) with 1%nat. change (Z.to_nat 10) with 10%nat.
  cbn [seq fold_left]. unfold reconstruct_scale.
  cbn [Z.eqb Nat.eqb orb LF_odd LF_even temp HF_RGB HF_grey accumulator Nat.pow Nat.mul Nat.add].
  destruct (wavelets_detail_level_RGB _ _ _ _ _ _ _) as [HF1 grey1]. cbn [accumulator].
  rewrite wavelets_reconstruct_RGB_cell.
  change ((0 / 4 <? 1 * 10)%nat && (0 mod 4 <? 3)%nat)%bool with true. cbn iota.
  rewrite init_reconstruct_cell.
  change (0 <? 1 * 10 * 4)%nat with true. cbn iota.
  unfold synthesis_term.
  change (0 / 4 * 4)%nat with 0%nat. change (0 mod 4)%nat with 0%nat.
  change (0 / 4)%nat with 0%nat. change (0 + 0)%nat with 0%nat.
  rewrite Hmask by lia. rewrite Hbeta, Hdelta.
  set (LF := blur_2D_Bspline_horizontal _ zero_buffer 10 1 4 1 0 _).
  assert (HLF : LF 0%nat = 11 / 16) by (vm_compute; lra).
  rewrite HLF. cbn [highlight_row INR]. lra.
Qed.

(** C8 fails as stated: on the row, with the settings of [row_params]
    committed and the last scratch buffer of the second pass refused, the
    reconstruction is requested, the first pass succeeds, the second reports
    failure, and the buffer handed to the tone mapper holds 27/32 in its
    first cell where the original buffer holds 1. *)
Lemma C8_counterexample :
  let data := commit_params gauss_solve_model row_params zero_data in
  let m := mask_clipped_pixels highlight_row zero_buffer
             (d_reconstruct_feather data / d_reconstruct_threshold data)
             (d_reconstruct_feather data) 10 1 4 in
  let h := process_highlights unit (fun _ _ => 0) example_luminance
             highlight_row (snd m) (Some (fst m)) data row_piece None
             row_roi row_roi second_pass_refused in
  snd m = true
  /\ scratch_ok (alloc_pass2 second_pass_refused) = false
  /\ snd h = [alloc_failed_message]
  /\ fst h 0%nat = 27 / 32
  /\ highlight_row 0%nat = 1
  /\ fst h 0%nat <> highlight_row 0%nat.
Proof.
  destruct row_committed as (Hf & Ht & _ & Hbeta & Hdelta & Hhq & _ & _).
  cbn zeta in *. rewrite Hf, Ht.
  destruct highlight_row_mask as [Hrec _]. cbn zeta in Hrec.
  destruct (row_first_pass _ Hbeta Hdelta) as (r & Hr & Hr0). cbn zeta in Hr.
  unfold process_highlights. rewrite Hrec.
  cbn [second_pass_refused alloc_reconstructed alloc_pass1 alloc_pass2 alloc_norms alloc_ratios].
  rewrite Hr, Hhq.
  cbn [truthy Z.eqb negb andb].
  destruct (compute_ratios _ _ _ _ _ _ _ _ _ _ _) as [norms ratios].
  rewrite reconstruct_highlights_failed by reflexivity.
  cbn [fst snd app highlight_row].
  repeat split; try reflexivity; try exact Hr0. rewrite Hr0. lra.
Qed.

(** ** One fully masked pixel with low frequencies 1, 2, 3 *)

Lemma fmaxabsf_zero : fmaxabsf 0 0 = 0.
Proof. unfold fmaxabsf. now destruct (Rgt_dec _ _). Qed.

Lemma low_frequency_123_synthesis (combine : R -> R -> R) :
  synthesis_term combine zero_buffer low_frequency_123 zero_buffer one_buffer
    0.5 0.5 0 1 1 1 0 0
  = combine (combine 1 2) 3.
Proof.
  unfold synthesis_term.
  unfold zero_buffer, one_buffer, low_frequency_123.
  cbn [Nat.add Nat.div Nat.divmod fst INR].
  rewrite !fmaxabsf_zero. field.
Qed.

(** C6 fails as stated: on this pixel the ratio-domain pass accumulates 3,
    the max of the low-frequency channels, where the claim has the min, 1;
    and the RGB-domain pass accumulates 1, the min, where the claim has the
    max, 3. *)
Lemma C6_counterexample :
  let ratios :=
    wavelets_reconstruct_ratios zero_buffer low_frequency_123 zero_buffer one_buffer
      zero_buffer 1 1 4 0.5 0.5 0 1 1 0 1 in
  let RGB :=
    wavelets_reconstruct_RGB zero_buffer low_frequency_123 zero_buffer one_buffer
      zero_buffer 1 1 4 0.5 0.5 0 1 1 0 1 in
  ratios 0%nat = 3 /\ RGB 0%nat = 1
  /\ ratios 0%nat
     <> zero_buffer 0%nat
        + synthesis_term Rmin zero_buffer low_frequency_123 zero_buffer one_buffer
            0.5 0.5 0 1 1 1 0 0
  /\ RGB 0%nat
     <> zero_buffer 0%nat
        + synthesis_term Rmax zero_buffer low_frequency_123 zero_buffer one_buffer
            0.5 0.5 0 1 1 1 0 0.
Proof.
  cbn zeta.
  rewrite wavelets_reconstruct_ratios_cell, wavelets_reconstruct_RGB_cell.
  change ((0 / 4 <? 1 * 1)%nat && (0 mod 4 <? 3)%nat)%bool with true. cbn iota.
  change (0 / 4 * 4)%nat with 0%nat. change (0 mod 4)%nat with 0%nat.
  rewrite !low_frequency_123_synthesis.
  assert (Hmax : Rmax (Rmax 1 2) 3 = 3)
    by (rewrite (Rmax_right 1 2) by lra; rewrite Rmax_right by lra; reflexivity).
  assert (Hmin : Rmin (Rmin 1 2) 3 = 1)
    by (rewrite (Rmin_left 1 2) by lra; rewrite Rmin_left by lra; reflexivity).
  rewrite Hmax, Hmin. unfold zero_buffer. repeat split; lra.
Qed.

(** ** The theorems applied *)

Lemma C1_spline_node_fidelity_witness :
  white_point_source default_params <> black_point_source default_params
  /\ (let spline :=
        dt_iop_filmic_rgb_compute_spline gauss_solve_model default_params zero_spline in
      let x := spline_x spline in
      let y := spline_y spline in
      (M2 spline 2%nat = CLAMP (contrast default_params) 0.1 2
       /\ M3 spline 2%nat = 0 /\ M4 spline 2%nat = 0 /\ M5 spline 2%nat = 0
       /\ M1 spline 2%nat + M2 spline 2%nat * x 2%nat = y 2%nat)
      /\ apply_spline spline (x 1%nat) = y 1%nat
      /\ apply_spline spline (x 3%nat) = y 3%nat
      /\ (x 1%nat <= x 2%nat <= x 3%nat -> apply_spline spline (x 2%nat) = y 2%nat)).
Proof.
  assert (H : white_point_source default_params <> black_point_source default_params)
    by (cbn; lra).
  split; [exact H|].
  exact (C1_spline_node_fidelity gauss_solve_model default_params zero_spline H).
Defined.

Lemma C3_clip_mask_witness :
  (Z.of_nat (1 * 10) < 2 ^ 31)%Z
  /\ (let result := mask_clipped_pixels highlight_row zero_buffer (4 / 1) 4 10 1 4 in
      (forall i, (i < 1 * 10)%nat ->
         fst result i = spec_weight (spec_argument highlight_row 4 1 i)
         /\ 0 <= fst result i <= 1)
      /\ (snd result = true <-> (10 <= spec_clipped highlight_row 4 1 (1 * 10))%nat)
      /\ (forall data piece work_profile roi_in roi_out alloc,
            process_highlights unit (fun _ _ => 0) example_luminance highlight_row false
              (Some (fst result)) data piece work_profile roi_in roi_out alloc
            = (highlight_row, []))).
Proof.
  assert (H : (Z.of_nat (1 * 10) < 2 ^ 31)%Z) by (vm_compute; reflexivity).
  split; [exact H|].
  exact (C3_clip_mask unit (fun _ _ => 0) example_luminance highlight_row zero_buffer
           4 1 10 1 H).
Defined.

Lemma C4_reconstruction_is_noop_without_clipping_witness :
  let width := Z.to_nat (roi_width row_roi) in
  let height := Z.to_nat (roi_height row_roi) in
  (forall i, (i < height * width)%nat -> zero_buffer i = 0)
  /\ (forall k, (k < height * width * 4)%nat ->
        init_reconstruct highlight_row zero_buffer zero_buffer width height 4 k
        = highlight_row k)
  /\ (forall (scales : nat) (w : wavelets) (k : nat),
        accumulator (fold_left
                       (reconstruct_scale highlight_row zero_buffer 0 zero_data width height
                          scales)
                       (seq 0 scales) w) k
        = accumulator w k)
  /\ (let result :=
        reconstruct_highlights highlight_row zero_buffer zero_buffer 0 zero_data row_piece
          row_roi row_roi
          (mk_scratch (Some zero_buffer) (Some zero_buffer) (Some zero_buffer)
             (Some zero_buffer) (Some zero_buffer)) in
      fst (fst result) = true
      /\ forall k, (k < height * width * 4)%nat -> snd (fst result) k = highlight_row k).
Proof.
  intros width height.
  assert (H : forall i, (i < height * width)%nat -> zero_buffer i = 0)
    by (intros i _; reflexivity).
  split; [exact H|].
  exact (C4_reconstruction_is_noop_without_clipping highlight_row zero_buffer zero_buffer 0
           zero_data row_piece row_roi row_roi zero_buffer zero_buffer zero_buffer zero_buffer
           zero_buffer H).
Defined.

Lemma C5_ratios_round_trip_witness :
  (0 < 1 * 10)%nat /\ (0 < 3)%nat
  /\ (let result :=
        compute_ratios unit (fun _ _ => 0) example_luminance highlight_row zero_buffer
          zero_buffer None DT_FILMIC_METHOD_MAX_RGB 10 1 4 in
      let norm :=
        get_pixel_norm unit (fun _ _ => 0) example_luminance
          (pixel_at highlight_row (4 * 0)%nat) DT_FILMIC_METHOD_MAX_RGB None in
      fst result 0%nat
      = (if Rlt_dec norm 1.52587890625e-05 then 1.52587890625e-05 else norm)
      /\ snd result (4 * 0 + 0)%nat = highlight_row (4 * 0 + 0)%nat / fst result 0%nat
      /\ restore_ratios (snd result) (fst result) 10 1 4 (4 * 0 + 0)%nat
         = highlight_row (4 * 0 + 0)%nat).
Proof.
  assert (H1 : (0 < 1 * 10)%nat) by (cbn; lia).
  assert (H2 : (0 < 3)%nat) by lia.
  split; [exact H1|]. split; [exact H2|].
  exact (C5_ratios_round_trip unit (fun _ _ => 0) example_luminance highlight_row
           zero_buffer zero_buffer None DT_FILMIC_METHOD_MAX_RGB 10 1 0 0 H1 H2).
Defined.

Lemma C6_residual_max_in_ratios_min_in_RGB_witness :
  (0 < 1 * 1)%nat /\ (0 < 3)%nat
  /\ wavelets_reconstruct_ratios zero_buffer low_frequency_123 zero_buffer one_buffer
       zero_buffer 1 1 4 0.5 0.5 0 1 1 0 1 (4 * 0 + 0)%nat
     = zero_buffer (4 * 0 + 0)%nat
       + synthesis_term Rmax zero_buffer low_frequency_123 zero_buffer one_buffer
           0.5 0.5 0 1 1 1 (4 * 0)%nat 0
  /\ wavelets_reconstruct_RGB zero_buffer low_frequency_123 zero_buffer one_buffer
       zero_buffer 1 1 4 0.5 0.5 0 1 1 0 1 (4 * 0 + 0)%nat
     = zero_buffer (4 * 0 + 0)%nat
       + synthesis_term Rmin zero_buffer low_frequency_123 zero_buffer one_buffer
           0.5 0.5 0 1 1 1 (4 * 0)%nat 0.
Proof.
  assert (H1 : (0 < 1 * 1)%nat) by (cbn; lia).
  assert (H2 : (0 < 3)%nat) by lia.
  split; [exact H1|]. split; [exact H2|].
  exact (C6_residual_max_in_ratios_min_in_RGB zero_buffer low_frequency_123 zero_buffer
           one_buffer zero_buffer 1 1 0.5 0.5 0 1 1 0 1 0 0 H1 H2).
Defined.

Lemma C7_commit_contrast_invariant_witness :
  black_point_source default_params < white_point_source default_params
  /\ 0 <= grey_point_target default_params
  /\ (let bound := commit_grey_display default_params / commit_grey_log default_params in
      (contrast default_params < bound ->
       d_contrast (commit_params gauss_solve_model default_params zero_data) = 1.0001 * bound)
      /\ (bound <= contrast default_params ->
          d_contrast (commit_params gauss_solve_model default_params zero_data)
          = contrast default_params)
      /\ bound <= d_contrast (commit_params gauss_solve_model default_params zero_data)).
Proof.
  assert (H1 : black_point_source default_params < white_point_source default_params)
    by (cbn; lra).
  assert (H2 : 0 <= grey_point_target default_params) by (cbn; lra).
  split; [exact H1|]. split; [exact H2|].
  exact (C7_commit_contrast_invariant gauss_solve_model default_params zero_data H1 H2).
Defined.

Lemma C8_allocation_failure_is_not_fatal_witness :
  let data := commit_params gauss_solve_model row_params zero_data in
  let m := mask_clipped_pixels highlight_row zero_buffer
             (d_reconstruct_feather data / d_reconstruct_threshold data)
             (d_reconstruct_feather data)
             (Z.to_nat (roi_width row_roi)) (Z.to_nat (roi_height row_roi)) 4 in
  let pass_1 := reconstruct_highlights highlight_row (fst m) zero_buffer 0 data row_piece
                  row_roi row_roi (alloc_pass1 second_pass_refused) in
  let tonemapper_input :=
    if scratch_ok (alloc_pass1 second_pass_refused) then snd (fst pass_1)
    else highlight_row in
  colors row_piece = 4%Z
  /\ alloc_mask second_pass_refused = Some zero_buffer
  /\ alloc_reconstructed second_pass_refused = Some zero_buffer
  /\ (false && pipe_type_full row_piece && false)%bool = false
  /\ snd m = true
  /\ (scratch_ok (alloc_pass1 second_pass_refused) = false
      \/ (truthy (d_high_quality_reconstruction data) = true
          /\ alloc_norms second_pass_refused <> None
          /\ alloc_ratios second_pass_refused <> None
          /\ scratch_ok (alloc_pass2 second_pass_refused) = false))
  /\ (forall (in_ mask reconstructed : buffer) (variant : Z) (a : scratch_alloc),
        scratch_ok a = false ->
        reconstruct_highlights in_ mask reconstructed variant data row_piece
          row_roi row_roi a
        = (false, reconstructed, [alloc_failed_message]))
  /\ process unit (fun _ _ => 0) example_luminance false false row_piece None data
       highlight_row zero_buffer row_roi row_roi second_pass_refused
     = Some (process_alpha row_piece highlight_row
               (process_tonemap unit (fun _ _ => 0) example_luminance tonemapper_input
                  zero_buffer None data row_roi row_roi)
               row_roi,
             [alloc_failed_message]).
Proof.
  intros data m pass_1 tonemapper_input.
  destruct row_committed as (Hf & Ht & _ & _ & _ & Hhq & _ & _).
  cbn zeta in Hf, Ht, Hhq. fold data in Hf, Ht, Hhq.
  assert (H1 : colors row_piece = 4%Z) by reflexivity.
  assert (H2 : alloc_mask second_pass_refused = Some zero_buffer) by reflexivity.
  assert (H3 : alloc_reconstructed second_pass_refused = Some zero_buffer) by reflexivity.
  assert (H4 : (false && pipe_type_full row_piece && false)%bool = false) by reflexivity.
  assert (H5 : snd m = true).
  { unfold m. rewrite Hf, Ht. exact (proj1 highlight_row_mask). }
  assert (H6 : scratch_ok (alloc_pass1 second_pass_refused) = false
               \/ (truthy (d_high_quality_reconstruction data) = true
                   /\ alloc_norms second_pass_refused <> None
                   /\ alloc_ratios second_pass_refused <> None
                   /\ scratch_ok (alloc_pass2 second_pass_refused) = false)).
  { right. rewrite Hhq. repeat split; try reflexivity; discriminate. }
  repeat (split; [assumption|]).
  exact (C8_allocation_failure_is_not_fatal unit (fun _ _ => 0) example_luminance
           false false row_piece None data highlight_row zero_buffer row_roi row_roi
           second_pass_refused zero_buffer zero_buffer H1 H2 H3 H4 H5 H6).
Defined.

Lemma C9_alpha_channel_untouched_witness :
  let data := commit_params gauss_solve_model row_params zero_data in
  colors row_piece = 4%Z
  /\ alloc_mask second_pass_refused = Some zero_buffer
  /\ (false && pipe_type_full row_piece && false)%bool = false
  /\ (forall (in_ out : buffer) (spline : dt_iop_filmic_rgb_spline_t) (variant : Z)
             (width height i : nat),
         filmic_split_v1 unit (fun _ _ => 0) example_luminance in_ out None data spline
           width height 4 (4 * i + 3)%nat = out (4 * i + 3)%nat
         /\ filmic_split_v2 unit (fun _ _ => 0) example_luminance in_ out None data spline
              width height 4 (4 * i + 3)%nat = out (4 * i + 3)%nat
         /\ filmic_chroma_v1 unit (fun _ _ => 0) example_luminance in_ out None data
              spline variant width height 4 (4 * i + 3)%nat = out (4 * i + 3)%nat
         /\ filmic_chroma_v2 unit (fun _ _ => 0) example_luminance in_ out None data
              spline variant width height 4 (4 * i + 3)%nat = out (4 * i + 3)%nat)
  /\ (exists out log,
        process unit (fun _ _ => 0) example_luminance false false row_piece None data
          highlight_row zero_buffer row_roi row_roi second_pass_refused
        = Some (out, log)
        /\ forall i,
             (i < Z.to_nat (roi_height row_roi) * Z.to_nat (roi_width row_roi))%nat ->
             out (4 * i + 3)%nat
             = if pipe_mask_display row_piece then highlight_row (4 * i + 3)%nat
               else zero_buffer (4 * i + 3)%nat).
Proof.
  intros data.
  assert (H1 : colors row_piece = 4%Z) by reflexivity.
  assert (H2 : alloc_mask second_pass_refused = Some zero_buffer) by reflexivity.
  assert (H3 : (false && pipe_type_full row_piece && false)%bool = false) by reflexivity.
  repeat (split; [assumption|]).
  exact (C9_alpha_channel_untouched unit (fun _ _ => 0) example_luminance
           false false row_piece None data highlight_row zero_buffer row_roi row_roi
           second_pass_refused zero_buffer H1 H2 H3).
Defined.


(** * The further properties at concrete inputs *)

(** The nodes of the curve solved for [cubic_params]. *)
Lemma cubic_nodes :
  let x := fst (spline_nodes cubic_params zero_spline) in
  let y := snd (spline_nodes cubic_params zero_spline) in
  (x 1%nat = 3 / 8 /\ x 2%nat = 3 / 4 /\ x 3%nat = 7 / 8)
  /\ (y 0%nat = 0 /\ y 1%nat = 7 / 32 /\ y 2%nat = 1 / 2 /\ y 3%nat = 19 / 32 /\ y 4%nat = 1)
  /\ spline_contrast cubic_params = 3 / 4.
Proof.
  cbn zeta. unfold spline_nodes, spline_contrast.
  cbn [cubic_params shadows highlights custom_grey truthy Z.eqb negb grey_point_target
       black_point_target white_point_target output_power white_point_source
       black_point_source latitude balance contrast spline_x spline_y zero_spline fst snd].
  rewrite (CLAMP_inside 50 0 100) by lra.
  rewrite (CLAMP_inside 0.75 0.1 2) by lra.
  rewrite (CLAMP_inside 0 (-50) 50) by lra.
  rewrite (CLAMP_inside 100 50 100) by lra.
  rewrite (CLAMP_inside 0 0 50) by lra.
  rewrite (powf_positive_one (50 / 100) (1 / 1)) by lra.
  rewrite (sqrtf_square (0.75 * 0.75 + 1) 1.25) by lra.
  rewrite (fabsf_neg (-12)) by lra.
  rewrite (fabsf_neg (-12 / (4 - -12))) by lra.
  rewrite (fabsf_pos (4 / (4 - -12))) by lra.
  repeat first [ rewrite store_eq | rewrite store_neq by lia ].
  repeat split; lra.
Qed.

(** On the toe and the shoulder system of [cubic_params] the model of
    [gauss_solve] returns a solution. *)
Lemma cubic_toe_solved :
  solved gauss_solve_model
    (toe_system (fst (spline_nodes cubic_params zero_spline))
       (snd (spline_nodes cubic_params zero_spline))
       (spline_contrast cubic_params) (shadows cubic_params)).
Proof.
  destruct cubic_nodes as ((Hx1 & _ & _) & (Hy0 & Hy1 & _) & Hc).
  cbn zeta in *. unfold solved, toe_system.
  change (shadows cubic_params) with DT_FILMIC_CURVE_POLY_3. cbn iota.
  rewrite Hx1, Hy0, Hy1, Hc.
  unfold gauss_solve_model, ORDER_3, mat_vec.
  cbn [gauss_eliminate matrix_rows firstn skipn app pivot_row hd tl map eliminate
       sub_scaled last dot].
  repeat (decide_pivot;
        cbn [gauss_eliminate matrix_rows firstn skipn app pivot_row hd tl map eliminate
             sub_scaled last dot]).
  cbn [mat_vec_rows firstn skipn dot].
  repeat match goal with |- _ :: _ = _ :: _ => apply f_equal2 end; try reflexivity; lra.
Qed.

Lemma cubic_shoulder_solved :
  solved gauss_solve_model
    (shoulder_system (fst (spline_nodes cubic_params zero_spline))
       (snd (spline_nodes cubic_params zero_spline))
       (spline_contrast cubic_params) (highlights cubic_params)).
Proof.
  destruct cubic_nodes as ((_ & _ & Hx3) & (_ & _ & _ & Hy3 & Hy4) & Hc).
  cbn zeta in *. unfold solved, shoulder_system.
  change (highlights cubic_params) with DT_FILMIC_CURVE_POLY_3. cbn iota.
  rewrite Hx3, Hy3, Hy4, Hc.
  unfold gauss_solve_model, ORDER_3, mat_vec.
  cbn [gauss_eliminate matrix_rows firstn skipn app pivot_row hd tl map eliminate
       sub_scaled last dot].
  repeat (decide_pivot;
        cbn [gauss_eliminate matrix_rows firstn skipn app pivot_row hd tl map eliminate
             sub_scaled last dot]).
  cbn [mat_vec_rows firstn skipn dot].
  repeat match goal with |- _ :: _ = _ :: _ => apply f_equal2 end; try reflexivity; lra.
Qed.

(** X2 at a concrete input. *)
Lemma X2_log_encoders_anchor_black_grey_white_witness :
  (0 < 0.1845)
  /\ (-8 < 0)
  /\ (0 < 4)
  /\ (0 < 1 <= 2)
  /\ (let dynamic_range := 4 - -8 in
   (log_tonemapping_v2 (0.1845 * exp2f (-8)) 0.1845 (-8) dynamic_range = 0 /\
       log_tonemapping_v2 (0.1845 * exp2f 4) 0.1845 (-8) dynamic_range = 1 /\
       log_tonemapping_v2 0.1845 0.1845 (-8) dynamic_range = fabsf (-8) / dynamic_range /\
       log_tonemapping_v1 (0.1845 * exp2f (-8)) 0.1845 (-8) dynamic_range = noise_floor /\
       log_tonemapping_v1 (0.1845 * exp2f 4) 0.1845 (-8) dynamic_range = 1 /\
       log_tonemapping_v2 1 0.1845 (-8) dynamic_range <=
       log_tonemapping_v2 2 0.1845 (-8) dynamic_range /\
       log_tonemapping_v1 1 0.1845 (-8) dynamic_range <=
       log_tonemapping_v1 2 0.1845 (-8) dynamic_range)).
Proof.
  assert (H1 : 0 < 0.1845).
  { lra. }
  split; [exact H1|].
  assert (H2 : -8 < 0).
  { lra. }
  split; [exact H2|].
  assert (H3 : 0 < 4).
  { lra. }
  split; [exact H3|].
  assert (H4 : 0 < 1 <= 2).
  { lra. }
  split; [exact H4|].
  intros dynamic_range.
  exact (X2_log_encoders_anchor_black_grey_white 0.1845 (-8) 4 1 2 H1 H2 H3 H4).
Defined.

(** X3 at a concrete input. *)
Lemma X3_mask_weight_grows_with_brightness_witness :
  ((1 < 2 * 1)%nat)
  /\ ((0 < 2 * 1)%nat)
  /\ (0 <= 4 / 1)
  /\ (spec_pix_norm low_frequency_123 1 <= spec_pix_norm low_frequency_123 0)
  /\ (let mask := fst (mask_clipped_pixels low_frequency_123 zero_buffer (4 / 1) 4 1 2 4) in
   (mask 1%nat <= mask 0%nat)).
Proof.
  assert (H1 : (1 < 2 * 1)%nat).
  { cbn; lia. }
  split; [exact H1|].
  assert (H2 : (0 < 2 * 1)%nat).
  { cbn; lia. }
  split; [exact H2|].
  assert (H3 : 0 <= 4 / 1).
  { lra. }
  split; [exact H3|].
  assert (H4 : spec_pix_norm low_frequency_123 1 <= spec_pix_norm low_frequency_123 0).
  { unfold spec_pix_norm. apply sqrt_le_1_alt. cbn [low_frequency_123 Nat.mul Nat.add]. lra. }
  split; [exact H4|].
  intros mask.
  exact (X3_mask_weight_grows_with_brightness low_frequency_123 zero_buffer 4 1 1 2 1 0 H1 H2
      H3 H4).
Defined.

(** X4 at a concrete input. *)
Lemma X4_mask_weight_is_half_at_the_threshold_witness :
  ((0 < 1 * 10)%nat)
  /\ (1 <> 0)
  /\ (spec_pix_norm highlight_row 0 = 1)
  /\ (fst (mask_clipped_pixels highlight_row zero_buffer (4 / 1) 4 10 1 4) 0%nat = 1 / 2).
Proof.
  assert (H1 : (0 < 1 * 10)%nat).
  { cbn; lia. }
  split; [exact H1|].
  assert (H2 : 1 <> 0).
  { lra. }
  split; [exact H2|].
  assert (H3 : spec_pix_norm highlight_row 0 = 1).
  { unfold spec_pix_norm. cbn [highlight_row Nat.mul Nat.add]. apply sqrt_of_square; lra. }
  split; [exact H3|].
  exact (X4_mask_weight_is_half_at_the_threshold highlight_row zero_buffer 4 1 10 1 0 H1 H2 H3).
Defined.

(** X5 at a concrete input. *)
Lemma X5_fewer_than_ten_pixels_are_never_reconstructed_witness :
  (colors row_piece = 4%Z)
  /\ (alloc_mask second_pass_refused = Some zero_buffer)
  /\ (false && pipe_type_full row_piece && false = false)
  /\ ((Z.to_nat (roi_height small_roi) * Z.to_nat (roi_width small_roi) < 10)%nat)
  /\ ((forall (in_ mask : buffer) (normalize feathering : R) (ch : nat),
       snd
         (mask_clipped_pixels in_ mask normalize feathering (Z.to_nat (roi_width small_roi))
            (Z.to_nat (roi_height small_roi)) ch) =
       false) /\
      process unit (fun (_ : unit) (_ : rgb) => 0) example_luminance false false row_piece None
        zero_data highlight_row zero_buffer small_roi small_roi second_pass_refused =
      Some
        (process_alpha row_piece highlight_row
           (process_tonemap unit (fun (_ : unit) (_ : rgb) => 0) example_luminance highlight_row
              zero_buffer None zero_data small_roi small_roi)
           small_roi,
         [])).
Proof.
  assert (H1 : colors row_piece = 4%Z).
  { reflexivity. }
  split; [exact H1|].
  assert (H2 : alloc_mask second_pass_refused = Some zero_buffer).
  { reflexivity. }
  split; [exact H2|].
  assert (H3 : false && pipe_type_full row_piece && false = false).
  { reflexivity. }
  split; [exact H3|].
  assert (H4 : (Z.to_nat (roi_height small_roi) * Z.to_nat (roi_width small_roi) < 10)%nat).
  { cbn; lia. }
  split; [exact H4|].
  exact (X5_fewer_than_ten_pixels_are_never_reconstructed unit (fun _ _ => 0)
      example_luminance false false row_piece None zero_data highlight_row zero_buffer
      small_roi small_roi second_pass_refused zero_buffer H1 H2 H3 H4).
Defined.

(** X6 at a concrete input. *)
Lemma X6_committed_mask_parameters_are_positive_witness :
  ((truthy (custom_grey row_params) = true -> 0 < grey_point_source row_params))
  /\ (let data := commit_params gauss_solve_model row_params zero_data in
   (0 < d_reconstruct_feather data /\
       0 < d_reconstruct_threshold data /\
       0 < d_reconstruct_feather data / d_reconstruct_threshold data)).
Proof.
  assert (H1 : (truthy (custom_grey row_params) = true -> 0 < grey_point_source row_params)).
  { intros _. cbn [row_params grey_point_source]. lra. }
  split; [exact H1|].
  intros data.
  exact (X6_committed_mask_parameters_are_positive gauss_solve_model row_params zero_data H1).
Defined.

(** X7 at a concrete input. *)
Lemma X7_committed_encoder_sends_black_grey_white_to_the_nodes_witness :
  (black_point_source row_params < 0)
  /\ (0 < white_point_source row_params)
  /\ ((truthy (custom_grey row_params) = true -> 0 < grey_point_source row_params))
  /\ (let data := commit_params gauss_solve_model row_params zero_data in
   (let encode :=
      fun x : R =>
      log_tonemapping_v2 x (d_grey_source data) (d_black_source data) (d_dynamic_range data) in
    (let x := spline_x (d_spline data) in
     (encode (d_grey_source data * exp2f (black_point_source row_params)) = x 0%nat /\
         encode (d_grey_source data) = x 2%nat /\
         encode (d_grey_source data * exp2f (white_point_source row_params)) = x 4%nat /\
         x 0%nat = 0 /\
         x 4%nat = 1 /\
         x 2%nat =
         fabsf (black_point_source row_params) /
         (white_point_source row_params - black_point_source row_params))))).
Proof.
  assert (H1 : black_point_source row_params < 0).
  { cbn [row_params black_point_source]. lra. }
  split; [exact H1|].
  assert (H2 : 0 < white_point_source row_params).
  { cbn [row_params white_point_source]. lra. }
  split; [exact H2|].
  assert (H3 : (truthy (custom_grey row_params) = true -> 0 < grey_point_source row_params)).
  { intros _. cbn [row_params grey_point_source]. lra. }
  split; [exact H3|].
  intros data.
  intros encode.
  intros x.
  exact (X7_committed_encoder_sends_black_grey_white_to_the_nodes gauss_solve_model row_params
      zero_data H1 H2 H3).
Defined.

(** X8 at a concrete input. *)
Lemma X8_mask_preview_writes_the_mask_to_all_four_channels_witness :
  (colors row_piece = 4%Z)
  /\ (alloc_mask second_pass_refused = Some zero_buffer)
  /\ (pipe_type_full row_piece = true)
  /\ (let width := Z.to_nat (roi_width row_roi) in
   (let height := Z.to_nat (roi_height row_roi) in
    (exists out : buffer,
          process unit (fun (_ : unit) (_ : rgb) => 0) example_luminance true true row_piece None
            zero_data highlight_row zero_buffer row_roi row_roi second_pass_refused =
          Some (out, []) /\
          (forall i c : nat,
           (i < height * width)%nat ->
           (c < 4)%nat ->
           out (4 * i + c)%nat =
           spec_weight
             (spec_argument highlight_row (d_reconstruct_feather zero_data)
                (d_reconstruct_threshold zero_data) i)) /\
          (forall k : nat, (height * width * 4 <= k)%nat -> out k = zero_buffer k)))).
Proof.
  assert (H1 : colors row_piece = 4%Z).
  { reflexivity. }
  split; [exact H1|].
  assert (H2 : alloc_mask second_pass_refused = Some zero_buffer).
  { reflexivity. }
  split; [exact H2|].
  assert (H3 : pipe_type_full row_piece = true).
  { reflexivity. }
  split; [exact H3|].
  intros width.
  intros height.
  exact (X8_mask_preview_writes_the_mask_to_all_four_channels unit (fun _ _ => 0)
      example_luminance row_piece None zero_data highlight_row zero_buffer row_roi row_roi
      second_pass_refused zero_buffer H1 H2 H3).
Defined.

(** X10 at a concrete input. *)
Lemma X10_refused_reconstruction_buffer_is_silent_witness :
  (colors row_piece = 4%Z)
  /\ (alloc_mask reconstruction_refused = Some zero_buffer)
  /\ (false && pipe_type_full row_piece && false = false)
  /\ (alloc_reconstructed reconstruction_refused = None)
  /\ (process unit (fun (_ : unit) (_ : rgb) => 0) example_luminance false false row_piece None
        zero_data highlight_row zero_buffer row_roi row_roi reconstruction_refused =
      Some
        (process_alpha row_piece highlight_row
           (process_tonemap unit (fun (_ : unit) (_ : rgb) => 0) example_luminance highlight_row
              zero_buffer None zero_data row_roi row_roi)
           row_roi,
         [])).
Proof.
  assert (H1 : colors row_piece = 4%Z).
  { reflexivity. }
  split; [exact H1|].
  assert (H2 : alloc_mask reconstruction_refused = Some zero_buffer).
  { reflexivity. }
  split; [exact H2|].
  assert (H3 : false && pipe_type_full row_piece && false = false).
  { reflexivity. }
  split; [exact H3|].
  assert (H4 : alloc_reconstructed reconstruction_refused = None).
  { reflexivity. }
  split; [exact H4|].
  exact (X10_refused_reconstruction_buffer_is_silent unit (fun _ _ => 0) example_luminance
      false false row_piece None zero_data highlight_row zero_buffer row_roi row_roi
      reconstruction_refused zero_buffer H1 H2 H3 H4).
Defined.

(** X11 at a concrete input. *)
Lemma X11_refused_ratio_buffers_fall_back_to_the_first_pass_witness :
  (colors row_piece = 4%Z)
  /\ (alloc_mask ratios_refused = Some zero_buffer)
  /\ (alloc_reconstructed ratios_refused = Some zero_buffer)
  /\ (false && pipe_type_full row_piece && false = false)
  /\ (let m :=
     mask_clipped_pixels highlight_row zero_buffer
       (d_reconstruct_feather (commit_params gauss_solve_model row_params zero_data) /
        d_reconstruct_threshold (commit_params gauss_solve_model row_params zero_data))
       (d_reconstruct_feather (commit_params gauss_solve_model row_params zero_data))
       (Z.to_nat (roi_width row_roi)) (Z.to_nat (roi_height row_roi)) 4
     in
   (snd m = true)
   /\ (scratch_ok (alloc_pass1 ratios_refused) = true)
   /\ (alloc_norms ratios_refused = None \/ alloc_ratios ratios_refused = None)
   /\ (let pass_1 :=
      reconstruct_highlights highlight_row (fst m) zero_buffer 0
        (commit_params gauss_solve_model row_params zero_data) row_piece row_roi row_roi
        (alloc_pass1 ratios_refused)
      in
    (process unit (fun (_ : unit) (_ : rgb) => 0) example_luminance false false row_piece None
          (commit_params gauss_solve_model row_params zero_data) highlight_row zero_buffer row_roi
          row_roi ratios_refused =
        Some
          (process_alpha row_piece highlight_row
             (process_tonemap unit (fun (_ : unit) (_ : rgb) => 0) example_luminance
                (snd (fst pass_1)) zero_buffer None
                (commit_params gauss_solve_model row_params zero_data) row_roi row_roi)
             row_roi,
           [])))).
Proof.
  destruct row_committed as (Hf & Ht & _). cbn zeta in Hf, Ht.
  assert (H1 : colors row_piece = 4%Z).
  { reflexivity. }
  split; [exact H1|].
  assert (H2 : alloc_mask ratios_refused = Some zero_buffer).
  { reflexivity. }
  split; [exact H2|].
  assert (H3 : alloc_reconstructed ratios_refused = Some zero_buffer).
  { reflexivity. }
  split; [exact H3|].
  assert (H4 : false && pipe_type_full row_piece && false = false).
  { reflexivity. }
  split; [exact H4|].
  intros m.
  assert (H5 : snd m = true).
  { unfold m. rewrite Hf, Ht. exact (proj1 highlight_row_mask). }
  split; [exact H5|].
  assert (H6 : scratch_ok (alloc_pass1 ratios_refused) = true).
  { reflexivity. }
  split; [exact H6|].
  assert (H7 : alloc_norms ratios_refused = None \/ alloc_ratios ratios_refused = None).
  { right. reflexivity. }
  split; [exact H7|].
  intros pass_1.
  exact (X11_refused_ratio_buffers_fall_back_to_the_first_pass unit (fun _ _ => 0)
      example_luminance false false row_piece None (commit_params gauss_solve_model row_params
      zero_data) highlight_row zero_buffer row_roi row_roi ratios_refused zero_buffer
      zero_buffer H1 H2 H3 H4 H5 H6 H7).
Defined.

(** X12 at a concrete input. *)
Lemma X12_empty_region_leaves_the_output_untouched_witness :
  (colors row_piece = 4%Z)
  /\ ((roi_width empty_roi <= 0)%Z)
  /\ (process unit (fun (_ : unit) (_ : rgb) => 0) example_luminance true true row_piece None
        zero_data highlight_row zero_buffer empty_roi empty_roi reconstruction_refused =
      Some (zero_buffer, [])).
Proof.
  assert (H1 : colors row_piece = 4%Z).
  { reflexivity. }
  split; [exact H1|].
  assert (H2 : (roi_width empty_roi <= 0)%Z).
  { cbn; lia. }
  split; [exact H2|].
  exact (X12_empty_region_leaves_the_output_untouched unit (fun _ _ => 0) example_luminance
      true true row_piece None zero_data highlight_row zero_buffer empty_roi empty_roi
      reconstruction_refused H1 H2).
Defined.

(** X13 at a concrete input. *)
Lemma X13_tone_mapping_kernels_are_pixelwise_witness :
  ((0 < 1 * 10)%nat)
  /\ ((0 < 3)%nat)
  /\ (pixel_at highlight_row (4 * 0) = pixel_at highlight_row (4 * 0))
  /\ ((filmic_split_v1 unit (fun (_ : unit) (_ : rgb) => 0) example_luminance highlight_row
         zero_buffer None zero_data zero_spline 10 1 4 (4 * 0 + 0)%nat =
       filmic_split_v1 unit (fun (_ : unit) (_ : rgb) => 0) example_luminance highlight_row
         one_buffer None zero_data zero_spline 10 1 4 (4 * 0 + 0)%nat /\
       filmic_split_v2 unit (fun (_ : unit) (_ : rgb) => 0) example_luminance highlight_row
         zero_buffer None zero_data zero_spline 10 1 4 (4 * 0 + 0)%nat =
       filmic_split_v2 unit (fun (_ : unit) (_ : rgb) => 0) example_luminance highlight_row
         one_buffer None zero_data zero_spline 10 1 4 (4 * 0 + 0)%nat /\
       filmic_chroma_v1 unit (fun (_ : unit) (_ : rgb) => 0) example_luminance highlight_row
         zero_buffer None zero_data zero_spline DT_FILMIC_METHOD_MAX_RGB 10 1 4 
         (4 * 0 + 0)%nat =
       filmic_chroma_v1 unit (fun (_ : unit) (_ : rgb) => 0) example_luminance highlight_row
         one_buffer None zero_data zero_spline DT_FILMIC_METHOD_MAX_RGB 10 1 4 
         (4 * 0 + 0)%nat /\
       filmic_chroma_v2 unit (fun (_ : unit) (_ : rgb) => 0) example_luminance highlight_row
         zero_buffer None zero_data zero_spline DT_FILMIC_METHOD_MAX_RGB 10 1 4 
         (4 * 0 + 0)%nat =
       filmic_chroma_v2 unit (fun (_ : unit) (_ : rgb) => 0) example_luminance highlight_row
         one_buffer None zero_data zero_spline DT_FILMIC_METHOD_MAX_RGB 10 1 4 
         (4 * 0 + 0)%nat) /\
      (forall k : nat,
       (1 * 10 * 4 <= k)%nat ->
       filmic_split_v1 unit (fun (_ : unit) (_ : rgb) => 0) example_luminance highlight_row
         zero_buffer None zero_data zero_spline 10 1 4 k =
       zero_buffer k /\
       filmic_split_v2 unit (fun (_ : unit) (_ : rgb) => 0) example_luminance highlight_row
         zero_buffer None zero_data zero_spline 10 1 4 k =
       zero_buffer k /\
       filmic_chroma_v1 unit (fun (_ : unit) (_ : rgb) => 0) example_luminance highlight_row
         zero_buffer None zero_data zero_spline DT_FILMIC_METHOD_MAX_RGB 10 1 4 k =
       zero_buffer k /\
       filmic_chroma_v2 unit (fun (_ : unit) (_ : rgb) => 0) example_luminance highlight_row
         zero_buffer None zero_data zero_spline DT_FILMIC_METHOD_MAX_RGB 10 1 4 k =
       zero_buffer k)).
Proof.
  assert (H1 : (0 < 1 * 10)%nat).
  { cbn; lia. }
  split; [exact H1|].
  assert (H2 : (0 < 3)%nat).
  { lia. }
  split; [exact H2|].
  assert (H3 : pixel_at highlight_row (4 * 0) = pixel_at highlight_row (4 * 0)).
  { reflexivity. }
  split; [exact H3|].
  exact (X13_tone_mapping_kernels_are_pixelwise unit (fun _ _ => 0) example_luminance
      highlight_row highlight_row zero_buffer one_buffer None zero_data zero_spline
      DT_FILMIC_METHOD_MAX_RGB 10 1 0 0 H1 H2 H3).
Defined.

(** X14 at a concrete input. *)
Lemma X14_split_kernels_cover_the_rows_of_the_input_region_witness :
  (d_preserve_color zero_data = DT_FILMIC_METHOD_NONE)
  /\ (d_version zero_data = DT_FILMIC_COLORSCIENCE_V1 \/
   d_version zero_data = DT_FILMIC_COLORSCIENCE_V2)
  /\ ((0 < 3)%nat)
  /\ (let pixels := (Z.to_nat (roi_height row_roi) * Z.to_nat (roi_width row_roi))%nat in
   (let kernel :=
      if (d_version zero_data =? DT_FILMIC_COLORSCIENCE_V1)%Z
      then
       filmic_split_v1_pixel unit (fun (_ : unit) (_ : rgb) => 0) example_luminance None zero_data
         (d_spline zero_data)
      else
       filmic_split_v2_pixel unit (fun (_ : unit) (_ : rgb) => 0) example_luminance None zero_data
         (d_spline zero_data)
      in
    (process_tonemap unit (fun (_ : unit) (_ : rgb) => 0) example_luminance highlight_row
          zero_buffer None zero_data row_roi row_roi (4 * 0 + 0)%nat =
        (if 0 <? pixels
         then chan (kernel (pixel_at highlight_row (4 * 0))) 0
         else zero_buffer (4 * 0 + 0)%nat)))).
Proof.
  assert (H1 : d_preserve_color zero_data = DT_FILMIC_METHOD_NONE).
  { reflexivity. }
  split; [exact H1|].
  assert (H2 : d_version zero_data = DT_FILMIC_COLORSCIENCE_V1 \/ d_version zero_data =
      DT_FILMIC_COLORSCIENCE_V2).
  { left. reflexivity. }
  split; [exact H2|].
  assert (H3 : (0 < 3)%nat).
  { lia. }
  split; [exact H3|].
  intros pixels.
  intros kernel.
  exact (X14_split_kernels_cover_the_rows_of_the_input_region unit (fun _ _ => 0)
      example_luminance highlight_row zero_buffer None zero_data row_roi row_roi 0 0 H1 H2
      H3).
Defined.

(** X15 at a concrete input. *)
Lemma X15_vertical_blur_convolves_lines_with_replicated_ends_witness :
  ((0 < 1)%nat)
  /\ ((0 < 10)%nat)
  /\ ((0 < 3)%nat)
  /\ ((2 * Z.of_nat 1 + Z.of_nat 10 <= 2 ^ 31)%Z)
  /\ ((Z.of_nat (1 * 10 * 4) <= 2 ^ 64)%Z)
  /\ (let result := blur_2D_Bspline_vertical highlight_row zero_buffer 10 1 4 1 0 (Z.of_nat 10 - 1)
     in
   (result ((0 * 10 + 0) * 4 + 0)%nat =
       bspline_sum (fun jj : nat => highlight_row ((0 * 10 + edge_tap 1 jj 0 10) * 4 + 0)) /\
       (forall jj : nat, (edge_tap 1 jj 0 10 < 10)%nat) /\
       result ((0 * 10 + 0) * 4 + 3)%nat = zero_buffer ((0 * 10 + 0) * 4 + 3)%nat /\
       (forall k : nat, (1 * 10 * 4 <= k)%nat -> result k = zero_buffer k))).
Proof.
  assert (H1 : (0 < 1)%nat).
  { lia. }
  split; [exact H1|].
  assert (H2 : (0 < 10)%nat).
  { lia. }
  split; [exact H2|].
  assert (H3 : (0 < 3)%nat).
  { lia. }
  split; [exact H3|].
  assert (H4 : (2 * Z.of_nat 1 + Z.of_nat 10 <= 2 ^ 31)%Z).
  { cbn; lia. }
  split; [exact H4|].
  assert (H5 : (Z.of_nat (1 * 10 * 4) <= 2 ^ 64)%Z).
  { cbn; lia. }
  split; [exact H5|].
  intros result.
  exact (X15_vertical_blur_convolves_lines_with_replicated_ends highlight_row zero_buffer 10 1
      1 0 0 0 H1 H2 H3 H4 H5).
Defined.

(** X16 at a concrete input. *)
Lemma X16_horizontal_blur_convolves_columns_and_zeroes_alpha_witness :
  ((0 < 1)%nat)
  /\ ((0 < 10)%nat)
  /\ ((0 < 3)%nat)
  /\ ((2 * Z.of_nat 1 + Z.of_nat 1 <= 2 ^ 31)%Z)
  /\ ((Z.of_nat (1 * 10 * 4) <= 2 ^ 64)%Z)
  /\ (let result := blur_2D_Bspline_horizontal highlight_row zero_buffer 10 1 4 1 0 (Z.of_nat 1 - 1)
     in
   (result ((0 * 10 + 0) * 4 + 0)%nat =
       bspline_sum (fun ii : nat => highlight_row ((edge_tap 1 ii 0 1 * 10 + 0) * 4 + 0)) /\
       (forall ii : nat, (edge_tap 1 ii 0 1 < 1)%nat) /\
       result ((0 * 10 + 0) * 4 + 3)%nat = 0 /\
       (forall k : nat, (1 * 10 * 4 <= k)%nat -> result k = zero_buffer k))).
Proof.
  assert (H1 : (0 < 1)%nat).
  { lia. }
  split; [exact H1|].
  assert (H2 : (0 < 10)%nat).
  { lia. }
  split; [exact H2|].
  assert (H3 : (0 < 3)%nat).
  { lia. }
  split; [exact H3|].
  assert (H4 : (2 * Z.of_nat 1 + Z.of_nat 1 <= 2 ^ 31)%Z).
  { cbn; lia. }
  split; [exact H4|].
  assert (H5 : (Z.of_nat (1 * 10 * 4) <= 2 ^ 64)%Z).
  { cbn; lia. }
  split; [exact H5|].
  intros result.
  exact (X16_horizontal_blur_convolves_columns_and_zeroes_alpha highlight_row zero_buffer 10 1
      1 0 0 0 H1 H2 H3 H4 H5).
Defined.

(** X17 at a concrete input. *)
Lemma X17_two_pass_blur_preserves_flat_images_witness :
  ((0 < 1)%nat)
  /\ ((0 < 10)%nat)
  /\ ((0 < 3)%nat)
  /\ ((2 * Z.of_nat 1 + Z.of_nat 10 <= 2 ^ 31)%Z)
  /\ ((2 * Z.of_nat 1 + Z.of_nat 1 <= 2 ^ 31)%Z)
  /\ ((Z.of_nat (1 * 10 * 4) <= 2 ^ 64)%Z)
  /\ ((forall p c' : nat,
    (p < 1 * 10)%nat -> (c' < 3)%nat -> one_buffer (p * 4 + c')%nat = (fun _ : nat => 1) c'))
  /\ (let LF :=
     blur_2D_Bspline_horizontal
       (blur_2D_Bspline_vertical one_buffer zero_buffer 10 1 4 1 0 (Z.of_nat 10 - 1)) zero_buffer
       10 1 4 1 0 (Z.of_nat 1 - 1)
     in
   (LF ((0 * 10 + 0) * 4 + 0)%nat = (fun _ : nat => 1) 0%nat /\ LF ((0 * 10 + 0) * 4 + 3)%nat = 0)).
Proof.
  assert (H1 : (0 < 1)%nat).
  { lia. }
  split; [exact H1|].
  assert (H2 : (0 < 10)%nat).
  { lia. }
  split; [exact H2|].
  assert (H3 : (0 < 3)%nat).
  { lia. }
  split; [exact H3|].
  assert (H4 : (2 * Z.of_nat 1 + Z.of_nat 10 <= 2 ^ 31)%Z).
  { cbn; lia. }
  split; [exact H4|].
  assert (H5 : (2 * Z.of_nat 1 + Z.of_nat 1 <= 2 ^ 31)%Z).
  { cbn; lia. }
  split; [exact H5|].
  assert (H6 : (Z.of_nat (1 * 10 * 4) <= 2 ^ 64)%Z).
  { cbn; lia. }
  split; [exact H6|].
  assert (H7 : (forall p c' : nat, (p < 1 * 10)%nat -> (c' < 3)%nat -> one_buffer (p * 4 +
      c')%nat = (fun _ : nat => 1) c')).
  { intros; reflexivity. }
  split; [exact H7|].
  intros LF.
  exact (X17_two_pass_blur_preserves_flat_images one_buffer zero_buffer zero_buffer 10 1 1
      (fun _ => 1) 0 0 0 H1 H2 H3 H4 H5 H6 H7).
Defined.

(** X18 at a concrete input. *)
Lemma X18_detail_level_splits_the_signal_exactly_witness :
  ((0 < 1 * 10)%nat)
  /\ ((0 < 3)%nat)
  /\ (let in_RGB :=
     wavelets_detail_level_RGB highlight_row one_buffer zero_buffer zero_buffer 10 1 4 in
   (let in_ratios :=
      wavelets_detail_level_ratios highlight_row one_buffer zero_buffer zero_buffer 10 1 4 in
    (let high := fun k : nat => fabsf (highlight_row (4 * 0 + k) - one_buffer (4 * 0 + k)%nat) in
     (fst in_RGB (4 * 0 + 0)%nat + one_buffer (4 * 0 + 0)%nat = highlight_row (4 * 0 + 0) /\
         fst in_ratios (4 * 0 + 0)%nat = fst in_RGB (4 * 0 + 0)%nat /\
         fabsf (snd in_RGB 0%nat) = fmaxf (fmaxf (high 0%nat) (high 1%nat)) (high 2%nat) /\
         fabsf (snd in_ratios 0%nat) = fminf (fminf (high 0%nat) (high 1%nat)) (high 2%nat))))).
Proof.
  assert (H1 : (0 < 1 * 10)%nat).
  { cbn; lia. }
  split; [exact H1|].
  assert (H2 : (0 < 3)%nat).
  { lia. }
  split; [exact H2|].
  intros in_RGB.
  intros in_ratios.
  intros high.
  exact (X18_detail_level_splits_the_signal_exactly highlight_row one_buffer zero_buffer
      zero_buffer 10 1 0 0 H1 H2).
Defined.

(** X19 at a concrete input. *)
Lemma X19_reconstruction_scales_alpha_by_the_mask_and_stays_in_the_region_witness :
  (scratch_ok scratch_allocated = true)
  /\ (let width := Z.to_nat (roi_width row_roi) in
   (let height := Z.to_nat (roi_height row_roi) in
    (let result :=
       snd
         (fst
            (reconstruct_highlights highlight_row one_buffer zero_buffer 0 zero_data row_piece
               row_roi row_roi scratch_allocated))
       in
     ((forall i : nat,
          (i < height * width)%nat ->
          result (4 * i + 3)%nat = highlight_row (4 * i + 3) * (1 - one_buffer i)) /\
         (forall k : nat, (height * width * 4 <= k)%nat -> result k = zero_buffer k))))).
Proof.
  assert (H1 : scratch_ok scratch_allocated = true).
  { reflexivity. }
  split; [exact H1|].
  intros width.
  intros height.
  intros result.
  exact (X19_reconstruction_scales_alpha_by_the_mask_and_stays_in_the_region highlight_row
      one_buffer zero_buffer 0 zero_data row_piece row_roi row_roi scratch_allocated H1).
Defined.

(** X21 at a concrete input. *)
Lemma X21_max_rgb_ratios_do_not_exceed_one_witness :
  ((0 < 1 * 10)%nat)
  /\ ((0 < 3)%nat)
  /\ (noise_floor <=
      fst
        (compute_ratios unit (fun (_ : unit) (_ : rgb) => 0) example_luminance highlight_row
           zero_buffer zero_buffer None DT_FILMIC_METHOD_LUMINANCE 10 1 4)
        0%nat /\
      snd
        (compute_ratios unit (fun (_ : unit) (_ : rgb) => 0) example_luminance highlight_row
           zero_buffer zero_buffer None DT_FILMIC_METHOD_MAX_RGB 10 1 4)
        (4 * 0 + 0)%nat <=
      1).
Proof.
  assert (H1 : (0 < 1 * 10)%nat).
  { cbn; lia. }
  split; [exact H1|].
  assert (H2 : (0 < 3)%nat).
  { lia. }
  split; [exact H2|].
  exact (X21_max_rgb_ratios_do_not_exceed_one unit (fun _ _ => 0) example_luminance
      highlight_row zero_buffer zero_buffer None DT_FILMIC_METHOD_LUMINANCE 10 1 0 0 H1 H2).
Defined.

(** X22 at a concrete input. *)
Lemma X22_latitude_is_the_line_of_slope_contrast_through_the_grey_node_witness :
  (white_point_source cubic_params <> black_point_source cubic_params)
  /\ (let spline := dt_iop_filmic_rgb_compute_spline gauss_solve_model cubic_params zero_spline in
   (spline_x spline 1%nat <= 1 / 2 <= spline_x spline 3%nat)
   /\ (let slope := CLAMP (contrast cubic_params) 0.1 2 in
    (apply_spline spline (1 / 2) = spline_y spline 2%nat + slope * (1 / 2 - spline_x spline 2%nat) /\
        0.1 <= slope <= 2))).
Proof.
  destruct (compute_spline_fields gauss_solve_model cubic_params zero_spline) as (Hx & _).
      destruct cubic_nodes as ((Hx1 & _ & Hx3) & _). cbn zeta in Hx, Hx1, Hx3.
  assert (H1 : white_point_source cubic_params <> black_point_source cubic_params).
  { cbn [cubic_params white_point_source black_point_source]. lra. }
  split; [exact H1|].
  intros spline.
  assert (H2 : spline_x spline 1%nat <= 1 / 2 <= spline_x spline 3%nat).
  { unfold spline. rewrite Hx, Hx1, Hx3. lra. }
  split; [exact H2|].
  intros slope.
  exact (X22_latitude_is_the_line_of_slope_contrast_through_the_grey_node gauss_solve_model
      cubic_params zero_spline (1/2) H1 H2).
Defined.

(** X23 at a concrete input. *)
Lemma X23_grey_node_is_in_the_latitude_iff_the_balance_shift_is_moderate_witness :
  (black_point_source cubic_params < white_point_source cubic_params)
  /\ (0 < latitude cubic_params)
  /\ (let spline := dt_iop_filmic_rgb_compute_spline gauss_solve_model cubic_params zero_spline in
   (let x := spline_x spline in
    (let dynamic_range := white_point_source cubic_params - black_point_source cubic_params in
     (let shift :=
        2 * (CLAMP (balance cubic_params) (-50) 50 / 100) /
        sqrtf (spline_contrast cubic_params * spline_contrast cubic_params + 1) in
      (let moderate :=
         - fabsf (black_point_source cubic_params / dynamic_range) <= shift <=
         fabsf (white_point_source cubic_params / dynamic_range) in
       ((x 1%nat <= x 2%nat <= x 3%nat <-> moderate) /\
           (moderate -> apply_spline spline (x 2%nat) = spline_y spline 2%nat))))))).
Proof.
  assert (H1 : black_point_source cubic_params < white_point_source cubic_params).
  { cbn [cubic_params white_point_source black_point_source]. lra. }
  split; [exact H1|].
  assert (H2 : 0 < latitude cubic_params).
  { cbn [cubic_params latitude]. lra. }
  split; [exact H2|].
  intros spline.
  intros x.
  intros dynamic_range.
  intros shift.
  intros moderate.
  exact (X23_grey_node_is_in_the_latitude_iff_the_balance_shift_is_moderate gauss_solve_model
      cubic_params zero_spline H1 H2).
Defined.

(** X24 at a concrete input. *)
Lemma X24_solved_curve_is_anchored_and_smooth_at_the_nodes_witness :
  (white_point_source cubic_params <> black_point_source cubic_params)
  /\ (let x := fst (spline_nodes cubic_params zero_spline) in
   (let y := snd (spline_nodes cubic_params zero_spline) in
    (solved gauss_solve_model
       (toe_system x y (spline_contrast cubic_params) (shadows cubic_params)))
    /\ (solved gauss_solve_model
       (shoulder_system x y (spline_contrast cubic_params) (highlights cubic_params)))
    /\ (let spline := dt_iop_filmic_rgb_compute_spline gauss_solve_model cubic_params zero_spline in
     ((segment spline 0 0 = y 0%nat /\
          segment spline 0 (x 1%nat) = y 1%nat /\
          segment_slope spline 0 (x 1%nat) = segment_slope spline 2 (x 1%nat) /\
          segment_curvature spline 0 (x 1%nat) = 0 /\
          (shadows cubic_params = DT_FILMIC_CURVE_POLY_4 -> segment_slope spline 0 0 = 0)) /\
         (segment spline 1 1 = y 4%nat /\
          segment spline 1 (x 3%nat) = y 3%nat /\
          segment_slope spline 1 (x 3%nat) = segment_slope spline 2 (x 3%nat) /\
          segment_curvature spline 1 (x 3%nat) = 0 /\
          (highlights cubic_params = DT_FILMIC_CURVE_POLY_4 -> segment_slope spline 1 1 = 0)) /\
         (0 < x 1%nat -> apply_spline spline 0 = y 0%nat) /\
         (x 3%nat < 1 -> apply_spline spline 1 = y 4%nat))))).
Proof.
  assert (H1 : white_point_source cubic_params <> black_point_source cubic_params).
  { cbn [cubic_params white_point_source black_point_source]. lra. }
  split; [exact H1|].
  intros x.
  intros y.
  assert (H2 : solved gauss_solve_model (toe_system x y (spline_contrast cubic_params)
      (shadows cubic_params))).
  { exact cubic_toe_solved. }
  split; [exact H2|].
  assert (H3 : solved gauss_solve_model (shoulder_system x y (spline_contrast cubic_params)
      (highlights cubic_params))).
  { exact cubic_shoulder_solved. }
  split; [exact H3|].
  intros spline.
  exact (X24_solved_curve_is_anchored_and_smooth_at_the_nodes gauss_solve_model cubic_params
      zero_spline H1 H2 H3).
Defined.

(** X25 at a concrete input. *)
Lemma X25_autotune_leaves_ordered_scene_bounds_witness :
  (-100 < security_factor default_params)
  /\ (let q :=
     apply_autotune unit (fun (_ : unit) (_ : rgb) => 0) example_luminance picked_grey
       picked_black picked_white None default_params
     in
   (0.001 <= grey_point_source q <= 100 /\
       -16 <= black_point_source q < 0 /\
       0 < white_point_source q <= 16 * (1 + security_factor default_params / 100) /\
       0 < white_point_source q - black_point_source q /\
       (0 <= security_factor default_params ->
        black_point_source q <= -1 /\ 1 <= white_point_source q))).
Proof.
  assert (H1 : -100 < security_factor default_params).
  { cbn [default_params security_factor]. lra. }
  split; [exact H1|].
  intros q.
  exact (X25_autotune_leaves_ordered_scene_bounds unit (fun _ _ => 0) example_luminance
      picked_grey picked_black picked_white None default_params H1).
Defined.

(** X26 at a concrete input, a custom grey included. *)
Lemma X26_autotune_hardness_maps_the_grey_node_to_the_grey_target_witness :
  (-100 < security_factor cubic_params)
  /\ (0 < grey_point_target cubic_params < 100)
  /\ (truthy (custom_grey cubic_params) = true)
  /\ (let q :=
        apply_autotune unit (fun (_ : unit) (_ : rgb) => 0) example_luminance picked_grey
          picked_black picked_white None cubic_params in
      0 < output_power q
      /\ powf (commit_grey_log q) (output_power q) = grey_point_target cubic_params / 100
      /\ commit_grey_display q = commit_grey_log q
      /\ commit_grey_display q / commit_grey_log q = 1).
Proof.
  assert (H1 : -100 < security_factor cubic_params).
  { cbn [cubic_params security_factor]. lra. }
  split; [exact H1|].
  assert (H2 : 0 < grey_point_target cubic_params < 100).
  { cbn [cubic_params grey_point_target]. lra. }
  split; [exact H2|].
  assert (H3 : truthy (custom_grey cubic_params) = true).
  { reflexivity. }
  split; [exact H3|].
  intros q.
  destruct (X26_autotune_hardness_maps_the_grey_node_to_the_grey_target unit
              (fun _ _ => 0) example_luminance picked_grey picked_black picked_white None
              cubic_params H1 H2) as (Hpos & Hpow & Hcustom).
  split; [exact Hpos|]. split; [exact Hpow|]. exact (Hcustom H3).
Defined.

(** X27 at a concrete input. *)
Lemma X27_grey_picker_preserves_the_white_luminance_witness :
  (0 < grey_point_source default_params)
  /\ (let q :=
     apply_auto_grey unit (fun (_ : unit) (_ : rgb) => 0) example_luminance false picked_grey
       None default_params
     in
   (let grey_var := log2f (grey_point_source default_params / grey_point_source q) in
    (0.001 <= grey_point_source q <= 100 /\
        grey_point_source q * exp2f (white_point_source q) =
        grey_point_source default_params * exp2f (white_point_source default_params) /\
        black_point_source q + white_point_source q =
        black_point_source default_params + white_point_source default_params /\
        white_point_source q - black_point_source q =
        white_point_source default_params - black_point_source default_params + 2 * grey_var))).
Proof.
  assert (H1 : 0 < grey_point_source default_params).
  { cbn [default_params grey_point_source]. lra. }
  split; [exact H1|].
  intros q.
  intros grey_var.
  exact (X27_grey_picker_preserves_the_white_luminance unit (fun _ _ => 0) example_luminance
      picked_grey None default_params H1).
Defined.

(** X28 at a concrete input. *)
Lemma X28_safety_factor_rescales_the_bounds_reversibly_witness :
  (security_factor default_params <> -100)
  /\ (50 <> -100)
  /\ (let q := security_threshold_callback false 50 default_params in
   (let back := security_threshold_callback false (security_factor default_params) q in
    (let scale := (50 + 100) / (security_factor default_params + 100) in
     (black_point_source q = scale * black_point_source default_params /\
         white_point_source q = scale * white_point_source default_params /\
         - black_point_source q / (white_point_source q - black_point_source q) =
         - black_point_source default_params /
         (white_point_source default_params - black_point_source default_params) /\
         security_factor back = security_factor default_params /\
         black_point_source back = black_point_source default_params /\
         white_point_source back = white_point_source default_params)))).
Proof.
  assert (H1 : security_factor default_params <> -100).
  { cbn [default_params security_factor]. lra. }
  split; [exact H1|].
  assert (H2 : 50 <> -100).
  { lra. }
  split; [exact H2|].
  intros q.
  intros back.
  intros scale.
  exact (X28_safety_factor_rescales_the_bounds_reversibly 50 default_params H1 H2).
Defined.

(** X30 at a concrete input. *)
Lemma X30_migrated_edits_leave_the_highlights_alone_witness :
  (0 < v1_grey_point_source old_edit)
  /\ ((Z.of_nat (1 * 10) < 2 ^ 31)%Z)
  /\ (let migrated := legacy_params default_params old_edit 1 default_params 2 in
   (let data := commit_params gauss_solve_model (snd migrated) zero_data in
    (let white_luminance :=
       v1_grey_point_source old_edit / 100 * exp2f (v1_white_point_source old_edit) in
     ((forall i : nat, (i < 1 * 10)%nat -> spec_pix_norm zero_buffer i <= 6 * white_luminance))
     /\ (fst migrated = 0%Z /\
         d_reconstruct_feather data = 16 /\
         d_reconstruct_threshold data = 8 * white_luminance /\
         snd
           (mask_clipped_pixels zero_buffer zero_buffer
              (d_reconstruct_feather data / d_reconstruct_threshold data) (d_reconstruct_feather data)
              10 1 4) =
         false /\
         (forall old_version new_version : Z,
          (old_version =? 1)%Z && (new_version =? 2)%Z = false ->
          legacy_params default_params old_edit old_version default_params new_version =
          (1%Z, default_params)))))).
Proof.
  assert (H1 : 0 < v1_grey_point_source old_edit).
  { cbn [old_edit v1_grey_point_source]. lra. }
  split; [exact H1|].
  assert (H2 : (Z.of_nat (1 * 10) < 2 ^ 31)%Z).
  { cbn; lia. }
  split; [exact H2|].
  intros migrated.
  intros data.
  intros white_luminance.
  assert (H3 : (forall i : nat, (i < 1 * 10)%nat -> spec_pix_norm zero_buffer i <= 6 *
      white_luminance)).
  { intros i _. unfold spec_pix_norm, zero_buffer. rewrite !Rmult_0_l, !Rplus_0_l, sqrt_0.
      unfold white_luminance, exp2f. cbn [old_edit v1_grey_point_source
      v1_white_point_source]. pose proof (Rpower_pos 2 4). lra. }
  split; [exact H3|].
  exact (X30_migrated_edits_leave_the_highlights_alone gauss_solve_model default_params
      default_params old_edit zero_data zero_buffer zero_buffer 10 1 H1 H2 H3).
Defined.

(** * The output power and the range of the kernels *)










